(** * Match engines and room handlers of the pong / key-clash server

    A shallow embedding of
    - [backend/src/PingPongGame.ts]   (the Paddle engine),
    - [backend/src/KeyClashGame.ts]   (the Reaction engine and its socket
      handlers, and [validatePlayerNames]),
    - the pong socket handlers ([setupPongNamespace]: [startGame],
      [togglePause], the [names], [setReady], [restart], [pause] and
      [disconnect] handlers).

    Conventions of the embedding.
    - JavaScript numbers are exact rationals ([Q]); scores, rounds and
      durations, which the code only ever increments, decrements or
      assigns integer values to, are [Z] or [nat].  Rounding of doubles
      and the special values NaN and infinity are outside the model.
    - [performance.now()] and [Math.random()] are inputs of the operation
      that reads them.
    - A [Player] is a heap object; arrays and match records hold
      references to it ([Ref]), so that [m.winner = m.player2] and
      [m.player1.side = "left"] alias as in the source.
    - An uncaught [TypeError] (a property access on [undefined]) is the
      result [None].
    - [setInterval] / [clearInterval] act on the table of active timers of
      the Node runtime: for pong a finite map from timer handles to the
      callback the timer runs (there are three), for key clash the set of
      active handles (there is one callback).  A world holds one room, the
      timers and the ids on the two registries of its namespace; an event
      for another room id finds no game and does nothing.
    - Fields that only feed the display ([timerDisplay], [scoreDisplay],
      [matchInfo], [ball.color]) and the socket emissions are left out;
      where building a message reads a property of [undefined], the
      [TypeError] is kept. *)

From Stdlib Require Import QArith Qabs Qround Qminmax ZArith String Ascii Lia Lqa.
From stdpp Require Import base option list strings gmap.

Open Scope Q_scope.

(* ================================================================== *)
(** * Shared types ([types/lobby.ts] and the two [state] interfaces)   *)
(* ================================================================== *)

Inductive Status := waiting | starting | in_progress | paused | finished.
Inductive Mode := mode_local | mode_remote.
Inductive RoomType := type_1v1 | type_tournament.
Inductive Side := side_left | side_right.

#[global] Instance Status_eq_dec : EqDecision Status.
Proof. solve_decision. Defined.
#[global] Instance Mode_eq_dec : EqDecision Mode.
Proof. solve_decision. Defined.
#[global] Instance RoomType_eq_dec : EqDecision RoomType.
Proof. solve_decision. Defined.
#[global] Instance Side_eq_dec : EqDecision Side.
Proof. solve_decision. Defined.

(** A reference to a [Player] object, and a timer handle. *)
Abbreviation Ref := nat (only parsing).
Abbreviation Timer := nat (only parsing).

(** [interface Player]; [None] is [null]. *)
Record Player := mkPlayer {
  playerId : option nat;
  socketId : option string;
  name : option string;
  side : option Side
}.

Definition set_side (s : option Side) (p : Player) : Player :=
  mkPlayer (playerId p) (socketId p) (name p) s.

(** The element type of [matches]; [None] in a player slot is
    [undefined] or [null]. *)
Record Match := mkMatch {
  player1 : option Ref;
  player2 : option Ref;
  p1score : Z;
  p2score : Z;
  winner : option Ref;
  duration : Z
}.

Definition newMatch (a b : option Ref) : Match := mkMatch a b 0 0 None 0.

Definition set_winner (w : option Ref) (m : Match) : Match :=
  mkMatch (player1 m) (player2 m) (p1score m) (p2score m) w (duration m).

Definition set_result (s1 s2 d : Z) (m : Match) : Match :=
  mkMatch (player1 m) (player2 m) s1 s2 (winner m) d.

(** ** The object heap *)

Abbreviation Heap := (list Player) (only parsing).

(** [r.side = s] for a reference [r]. *)
Definition heap_set_side (r : Ref) (s : option Side) (h : Heap) : Heap :=
  alter (set_side s) r h.

(** [players.forEach(player => { player.side = null })]. *)
Definition resetSides (ps : list Ref) (h : Heap) : Heap :=
  foldl (fun h r => heap_set_side r None h) h ps.

(** Every reference of [rs] points into the heap. *)
Definition refsValid (h : list Player) (rs : list nat) : bool :=
  forallb (fun r => (r <? length h)%nat) rs.

(** [m.player.name]: [None] when [m.player] is [undefined]
    (the access throws). *)
Definition nameOf (h : Heap) (r : option Ref) : option (option string) :=
  r ≫= fun r => name <$> h !! r.

(** A read that must not hit [undefined]; its value is not used. *)
Definition defined {A} (o : option A) : option unit := _ ← o; Some tt.

(** ** Numbers *)

(** [a < b] and [a <= b] on JavaScript numbers. *)
Definition Qltb (a b : Q) : bool := negb (Qle_bool b a).
Definition Qleb (a b : Q) : bool := Qle_bool a b.

(** [Math.floor(r * n)] for a draw [r] of [Math.random()]. *)
Definition randomIndex (r : Q) (n : nat) : nat :=
  Z.to_nat (Qfloor (r * inject_Z (Z.of_nat n))).

(** ** [shufflePlayers] (PingPongGame.ts) *)

(** [[array[i], array[j]] = [array[j], array[i]]]; both indices are in
    range in [shufflePlayers], where [j <= i < array.length]. *)
Definition swap {A} (i j : nat) (l : list A) : list A :=
  match l !! i, l !! j with
  | Some a, Some b => <[j := a]> (<[i := b]> l)
  | _, _ => l
  end.

(** The loop [for (i = array.length - 1; i > 0; i--)], entered at [i];
    [rand k] is the draw of the [k]-th iteration. *)
Fixpoint shuffleLoop {A} (rand : nat -> Q) (k i : nat) (l : list A) : list A :=
  match i with
  | O => l
  | S i' => shuffleLoop rand (S k) i' (swap i (randomIndex (rand k) (i + 1)) l)
  end.

Definition shufflePlayers {A} (rand : nat -> Q) (array : list A) : list A :=
  shuffleLoop rand 0 (length array - 1) array.

(** ** [validatePlayerNames] (KeyClashGame.ts; both namespaces call it) *)

(** The payload of the [names] event; [None] is a field that is absent. *)
Record Names := mkNames {
  n_player1 : option string;
  n_player2 : option string;
  n_player3 : option string;
  n_player4 : option string
}.

(** One character of the class [[A-Za-z0-9 _-]]. *)
Definition nameChar (c : ascii) : bool :=
  let n := nat_of_ascii c in
  ((65 <=? n) && (n <=? 90) || (97 <=? n) && (n <=? 122)
   || (48 <=? n) && (n <=? 57) || (n =? 32) || (n =? 95) || (n =? 45))%nat.

(** [/^[A-Za-z0-9 _-]+$/.test(s)]. *)
Definition validNameRegex (s : string) : bool :=
  negb (String.eqb s "") && forallb nameChar (list_ascii_of_string s).

(** [!n || n.length > 20 || !validNameRegex.test(n)]. *)
Definition badName (n : option string) : bool :=
  match n with
  | None => true
  | Some s => String.eqb s "" || (20 <? String.length s)%nat || negb (validNameRegex s)
  end.

(** The number of the first player whose name is refused, 0 if none. *)
Definition validatePlayerNames (players : Names) (type : RoomType) (mode : Mode) : nat :=
  if badName (n_player1 players) then 1%nat
  else if decide (mode = mode_local) then
    if badName (n_player2 players)
       || bool_decide (n_player2 players = n_player1 players) then 2%nat
    else if decide (type = type_tournament) then
      if badName (n_player3 players)
         || bool_decide (n_player3 players = n_player2 players) then 3%nat
      else if badName (n_player4 players)
              || bool_decide (n_player4 players = n_player3 players) then 4%nat
      else 0%nat
    else 0%nat
  else 0%nat.

(** The two rejections of a [names] handler:
    [Invalid name for player<n>] and [The name "<name>" is already taken]. *)
Inductive JoinError :=
  | InvalidName (n : nat)
  | NameTaken (n : option string).

(** [players.length >= i + 1 && players[i].name === n]. *)
Definition seatedAt (h : Heap) (ps : list Ref) (i : nat) (n : option string) : bool :=
  bool_decide (name <$> (ps !! i ≫= fun r => h !! r) = Some n).

(** [array.splice(i, 1)] at the first index the test holds, if any. *)
Fixpoint spliceFirst {A} (f : A -> bool) (l : list A) : list A :=
  match l with
  | [] => []
  | a :: l' => if f a then l' else a :: spliceFirst f l'
  end.

(* ================================================================== *)
(** * The Paddle engine: [class PingPongGame]                          *)
(* ================================================================== *)

Module Pong.

Record Ball := mkBall { ball_x : Q; ball_z : Q; ball_vx : Q; ball_vz : Q }.
Record Paddle := mkPaddle { pad_x : Q; pad_z : Q }.

(** [GameState] together with the private fields of the class
    and the heap of the [Player] objects the room created. *)
Record PingPongGame := mkGame {
  ball : Ball;
  leftPaddle : Paddle;
  rightPaddle : Paddle;
  status : Status;
  loop : option Timer;
  players : list Ref;
  matches : list Match;
  mode : Mode;
  type : RoomType;
  round : nat;
  gameEndTime : Q;
  whenPaused : Q;
  player1ready : bool;
  player2ready : bool;
  leftPlayer : option string;
  rightPlayer : option string;
  hitter : nat;
  leftScore : Z;
  rightScore : Z;
  last : Q;
  id : string;
  heap : Heap
}.

Definition set_ball v g := mkGame v (leftPaddle g) (rightPaddle g) (status g) (loop g) (players g) (matches g) (mode g) (type g) (round g) (gameEndTime g) (whenPaused g) (player1ready g) (player2ready g) (leftPlayer g) (rightPlayer g) (hitter g) (leftScore g) (rightScore g) (last g) (id g) (heap g).
Definition set_leftPaddle v g := mkGame (ball g) v (rightPaddle g) (status g) (loop g) (players g) (matches g) (mode g) (type g) (round g) (gameEndTime g) (whenPaused g) (player1ready g) (player2ready g) (leftPlayer g) (rightPlayer g) (hitter g) (leftScore g) (rightScore g) (last g) (id g) (heap g).
Definition set_rightPaddle v g := mkGame (ball g) (leftPaddle g) v (status g) (loop g) (players g) (matches g) (mode g) (type g) (round g) (gameEndTime g) (whenPaused g) (player1ready g) (player2ready g) (leftPlayer g) (rightPlayer g) (hitter g) (leftScore g) (rightScore g) (last g) (id g) (heap g).
Definition set_status v g := mkGame (ball g) (leftPaddle g) (rightPaddle g) v (loop g) (players g) (matches g) (mode g) (type g) (round g) (gameEndTime g) (whenPaused g) (player1ready g) (player2ready g) (leftPlayer g) (rightPlayer g) (hitter g) (leftScore g) (rightScore g) (last g) (id g) (heap g).
Definition set_loop v g := mkGame (ball g) (leftPaddle g) (rightPaddle g) (status g) v (players g) (matches g) (mode g) (type g) (round g) (gameEndTime g) (whenPaused g) (player1ready g) (player2ready g) (leftPlayer g) (rightPlayer g) (hitter g) (leftScore g) (rightScore g) (last g) (id g) (heap g).
Definition set_players v g := mkGame (ball g) (leftPaddle g) (rightPaddle g) (status g) (loop g) v (matches g) (mode g) (type g) (round g) (gameEndTime g) (whenPaused g) (player1ready g) (player2ready g) (leftPlayer g) (rightPlayer g) (hitter g) (leftScore g) (rightScore g) (last g) (id g) (heap g).
Definition set_matches v g := mkGame (ball g) (leftPaddle g) (rightPaddle g) (status g) (loop g) (players g) v (mode g) (type g) (round g) (gameEndTime g) (whenPaused g) (player1ready g) (player2ready g) (leftPlayer g) (rightPlayer g) (hitter g) (leftScore g) (rightScore g) (last g) (id g) (heap g).
Definition set_round v g := mkGame (ball g) (leftPaddle g) (rightPaddle g) (status g) (loop g) (players g) (matches g) (mode g) (type g) v (gameEndTime g) (whenPaused g) (player1ready g) (player2ready g) (leftPlayer g) (rightPlayer g) (hitter g) (leftScore g) (rightScore g) (last g) (id g) (heap g).
Definition set_gameEndTime v g := mkGame (ball g) (leftPaddle g) (rightPaddle g) (status g) (loop g) (players g) (matches g) (mode g) (type g) (round g) v (whenPaused g) (player1ready g) (player2ready g) (leftPlayer g) (rightPlayer g) (hitter g) (leftScore g) (rightScore g) (last g) (id g) (heap g).
Definition set_whenPaused v g := mkGame (ball g) (leftPaddle g) (rightPaddle g) (status g) (loop g) (players g) (matches g) (mode g) (type g) (round g) (gameEndTime g) v (player1ready g) (player2ready g) (leftPlayer g) (rightPlayer g) (hitter g) (leftScore g) (rightScore g) (last g) (id g) (heap g).
Definition set_player1ready v g := mkGame (ball g) (leftPaddle g) (rightPaddle g) (status g) (loop g) (players g) (matches g) (mode g) (type g) (round g) (gameEndTime g) (whenPaused g) v (player2ready g) (leftPlayer g) (rightPlayer g) (hitter g) (leftScore g) (rightScore g) (last g) (id g) (heap g).
Definition set_player2ready v g := mkGame (ball g) (leftPaddle g) (rightPaddle g) (status g) (loop g) (players g) (matches g) (mode g) (type g) (round g) (gameEndTime g) (whenPaused g) (player1ready g) v (leftPlayer g) (rightPlayer g) (hitter g) (leftScore g) (rightScore g) (last g) (id g) (heap g).
Definition set_leftPlayer v g := mkGame (ball g) (leftPaddle g) (rightPaddle g) (status g) (loop g) (players g) (matches g) (mode g) (type g) (round g) (gameEndTime g) (whenPaused g) (player1ready g) (player2ready g) v (rightPlayer g) (hitter g) (leftScore g) (rightScore g) (last g) (id g) (heap g).
Definition set_rightPlayer v g := mkGame (ball g) (leftPaddle g) (rightPaddle g) (status g) (loop g) (players g) (matches g) (mode g) (type g) (round g) (gameEndTime g) (whenPaused g) (player1ready g) (player2ready g) (leftPlayer g) v (hitter g) (leftScore g) (rightScore g) (last g) (id g) (heap g).
Definition set_hitter v g := mkGame (ball g) (leftPaddle g) (rightPaddle g) (status g) (loop g) (players g) (matches g) (mode g) (type g) (round g) (gameEndTime g) (whenPaused g) (player1ready g) (player2ready g) (leftPlayer g) (rightPlayer g) v (leftScore g) (rightScore g) (last g) (id g) (heap g).
Definition set_leftScore v g := mkGame (ball g) (leftPaddle g) (rightPaddle g) (status g) (loop g) (players g) (matches g) (mode g) (type g) (round g) (gameEndTime g) (whenPaused g) (player1ready g) (player2ready g) (leftPlayer g) (rightPlayer g) (hitter g) v (rightScore g) (last g) (id g) (heap g).
Definition set_rightScore v g := mkGame (ball g) (leftPaddle g) (rightPaddle g) (status g) (loop g) (players g) (matches g) (mode g) (type g) (round g) (gameEndTime g) (whenPaused g) (player1ready g) (player2ready g) (leftPlayer g) (rightPlayer g) (hitter g) (leftScore g) v (last g) (id g) (heap g).
Definition set_last v g := mkGame (ball g) (leftPaddle g) (rightPaddle g) (status g) (loop g) (players g) (matches g) (mode g) (type g) (round g) (gameEndTime g) (whenPaused g) (player1ready g) (player2ready g) (leftPlayer g) (rightPlayer g) (hitter g) (leftScore g) (rightScore g) v (id g) (heap g).
Definition set_heap v g := mkGame (ball g) (leftPaddle g) (rightPaddle g) (status g) (loop g) (players g) (matches g) (mode g) (type g) (round g) (gameEndTime g) (whenPaused g) (player1ready g) (player2ready g) (leftPlayer g) (rightPlayer g) (hitter g) (leftScore g) (rightScore g) (last g) (id g) v.

(** The private constants of the class. *)
Definition maxScore : Z := 3.
Definition bounds_x : Q := 9.6.
Definition bounds_z : Q := 5.6.
Definition gameDuration : Q := 120000.

(** [constructor(id, mode, type)], run at time [now]. *)
Definition new (now : Q) (i : string) (m : Mode) (t : RoomType) : PingPongGame :=
  {| ball := mkBall 0 0 6.0 3.5;
     leftPaddle := mkPaddle (-8.2) 0;
     rightPaddle := mkPaddle 8.2 0;
     status := waiting;
     loop := None;
     players := [];
     matches := [];
     mode := m;
     type := t;
     round := 0;
     gameEndTime := now + gameDuration;
     whenPaused := now;
     player1ready := false;
     player2ready := false;
     leftPlayer := Some "Player1"%string;
     rightPlayer := Some "Player2"%string;
     hitter := 0;
     leftScore := 0;
     rightScore := 0;
     last := now;
     id := i;
     heap := [] |}.

(** [resetPlayerSides()]. *)
Definition resetPlayerSides (g : PingPongGame) : PingPongGame :=
  set_heap (resetSides (players g) (heap g)) g.

(** The body shared by the three branches of [matchmake] once the
    round's match sits at index [i]: read the two names (a [TypeError]
    when a slot is [undefined]), clear all sides, seat the two players. *)
Definition seatMatch (i : nat) (g : PingPongGame) : option PingPongGame :=
  m ← matches g !! i;
  n1 ← nameOf (heap g) (player1 m);
  n2 ← nameOf (heap g) (player2 m);
  let g := set_rightPlayer n2 (set_leftPlayer n1 g) in
  let g := resetPlayerSides g in
  r1 ← player1 m;
  r2 ← player2 m;
  Some (set_heap (heap_set_side r2 (Some side_right)
                   (heap_set_side r1 (Some side_left) (heap g))) g).

(** [matchmake()]; [rand] feeds [shufflePlayers]. *)
Definition matchmake (rand : nat -> Q) (g : PingPongGame) : option PingPongGame :=
  if decide (round g = 1%nat) then
    let ps := shufflePlayers rand (players g) in
    let g := set_players ps g in
    let g := set_matches (matches g ++ [newMatch (ps !! 0%nat) (ps !! 1%nat)]) g in
    let g := set_matches (matches g ++ [newMatch (ps !! 2%nat) (ps !! 3%nat)]) g in
    seatMatch 0 g
  else if decide (round g = 2%nat) then
    seatMatch 1 g
  else if decide (round g = 3%nat) then
    m0 ← matches g !! 0%nat;
    m1 ← matches g !! 1%nat;
    if bool_decide (is_Some (winner m0)) && bool_decide (is_Some (winner m1)) then
      seatMatch 2 (set_matches (matches g ++ [newMatch (winner m0) (winner m1)]) g)
    else Some g
  else Some g.

(** [setPlayer(side, name, socketId, playerId)]: a fresh [Player] object
    is pushed onto [players]. *)
Definition setPlayer (s : option Side) (n : option string)
    (sock : option string) (pid : option nat) (g : PingPongGame) : PingPongGame :=
  let g := match s with
           | Some side_left => set_leftPlayer n g
           | Some side_right => set_rightPlayer n g
           | None => g
           end in
  let r := length (heap g) in
  set_players (players g ++ [r]) (set_heap (heap g ++ [mkPlayer pid sock n s]) g).

(** The serve: [vx = (Math.random() > 0.5 ? 1 : -1) * 6] and
    [vz = (Math.random() - 0.5) * 4], from two draws. *)
Definition serve (r1 r2 : Q) : Ball :=
  mkBall 0 0 ((if Qltb 0.5 r1 then 1 else -1) * 6) ((r2 - 0.5) * 4).

(** [resetGame()], run at time [now]. *)
Definition resetGame (now r1 r2 : Q) (g : PingPongGame) : PingPongGame :=
  let g := set_hitter 0 (set_rightScore 0 (set_leftScore 0 g)) in
  let g := set_ball (serve r1 r2) g in
  let g := set_leftPaddle (mkPaddle (pad_x (leftPaddle g)) 0) g in
  let g := set_rightPaddle (mkPaddle (pad_x (rightPaddle g)) 0) g in
  let g := set_last now g in
  set_gameEndTime (last g + gameDuration) g.

(** [paddleHit(paddle)]. *)
Definition paddleHit (b : Ball) (p : Paddle) : bool :=
  let dx := Qabs (ball_x b - pad_x p) in
  let dz := Qabs (ball_z b - pad_z p) in
  Qltb dx 1.5 && Qltb dz 2.0.

(** ** [update()] *)

(** The branch [if (now >= this.state.gameEndTime)]: the round ends on
    the clock.  [matches[round - 1]] is [undefined] at round 0. *)
Definition finishOnTime (g : PingPongGame) : option PingPongGame :=
  let g := set_status finished g in
  match round g with
  | O => None
  | S i =>
      m ← matches g !! i;
      let m := set_result (leftScore g) (rightScore g) 120 m in
      let m :=
        if (rightScore g <? leftScore g)%Z then set_winner (player1 m) m
        else if (leftScore g <? rightScore g)%Z then set_winner (player2 m) m
        else if decide (type g = type_1v1) then m
        else set_winner (player2 m) m in
      Some (set_matches (<[i := m]> (matches g)) g)
  end.

(** The branch [if (leftScore >= maxScore || rightScore >= maxScore)].
    The message built there reads [winner.name] (for 1v1 and for rounds
    below 3) or [matches[2].winner?.name]; only whether that read throws
    is kept. *)
Definition finishOnScore (totalSecondsLeft : Z) (g : PingPongGame)
    : option PingPongGame :=
  match round g with
  | O => None
  | S i =>
      m ← matches g !! i;
      let m := set_result (leftScore g) (rightScore g) (120 - totalSecondsLeft) m in
      let m :=
        if (rightScore g <? leftScore g)%Z then set_winner (player1 m) m
        else set_winner (player2 m) m in
      let g := set_matches (<[i := m]> (matches g)) g in
      _ ← (if decide (type g = type_1v1) then defined (nameOf (heap g) (winner m))
           else if decide (round g < 3)%nat then defined (nameOf (heap g) (winner m))
           else defined (matches g !! 2%nat));
      Some (set_status finished g)
  end.

(** [ball.z += vz * dt; ball.x += vx * dt]. *)
Definition moveBall (dt : Q) (b : Ball) : Ball :=
  mkBall (ball_x b + ball_vx b * dt) (ball_z b + ball_vz b * dt)
         (ball_vx b) (ball_vz b).

(** Bounce on the table sides. *)
Definition bounceZ (b : Ball) : Ball :=
  if Qltb bounds_z (ball_z b) || Qltb (ball_z b) (- bounds_z) then
    let z' := if Qltb bounds_z (ball_z b) then bounds_z
              else if Qltb (ball_z b) (- bounds_z) then - bounds_z
              else ball_z b in
    mkBall (ball_x b) z' (ball_vx b) (ball_vz b * -1)
  else b.

(** The deflection of a paddle at [z = pz]:
    [vx *= -1.05; vz += (ball.z - paddle.z) * 2.0]. *)
Definition deflect (pz : Q) (b : Ball) : Ball :=
  mkBall (ball_x b) (ball_z b) (ball_vx b * -1.05)
         (ball_vz b + (ball_z b - pz) * 2.0).

Definition hitLeft (g : PingPongGame) : PingPongGame :=
  if paddleHit (ball g) (leftPaddle g) && Qltb (ball_vx (ball g)) 0 then
    set_hitter 1 (set_ball (deflect (pad_z (leftPaddle g)) (ball g)) g)
  else g.

Definition hitRight (g : PingPongGame) : PingPongGame :=
  if paddleHit (ball g) (rightPaddle g) && Qltb 0 (ball_vx (ball g)) then
    set_hitter 2 (set_ball (deflect (pad_z (rightPaddle g)) (ball g)) g)
  else g.

(** [ball.x < -bounds.x] and [ball.x > bounds.x]. *)
Definition pastLeft (b : Ball) : bool := Qltb (ball_x b) (- bounds_x).
Definition pastRight (b : Ball) : bool := Qltb bounds_x (ball_x b).

(** Score and reset. *)
Definition scoreAndReset (r1 r2 : Q) (g : PingPongGame) : PingPongGame :=
  if pastLeft (ball g) || pastRight (ball g) then
    let g :=
      if pastLeft (ball g) && negb (hitter g =? 0)%nat then
        set_rightScore (rightScore g + 1)%Z (set_hitter 0 g)
      else if pastRight (ball g) && negb (hitter g =? 0)%nat then
        set_leftScore (leftScore g + 1)%Z (set_hitter 0 g)
      else g in
    set_ball (serve r1 r2) g
  else g.

(** [dt = Math.min((now - this.last) / 1000, 0.033)]. *)
Definition dtOf (now : Q) (g : PingPongGame) : Q :=
  Qmin ((now - last g) / 1000) 0.033.

(** The part of [update] below the two round-end tests, first up to the
    comment [// Score and reset], then whole. *)
Definition strike (dt : Q) (g : PingPongGame) : PingPongGame :=
  hitRight (hitLeft (set_ball (bounceZ (moveBall dt (ball g))) g)).

Definition play (dt r1 r2 : Q) (g : PingPongGame) : PingPongGame :=
  scoreAndReset r1 r2 (strike dt g).

(** [update()], run at time [now]; [r1], [r2] are the draws of
    [Math.random()] a reset consumes. *)
Definition update (now r1 r2 : Q) (g : PingPongGame) : option PingPongGame :=
  if negb (bool_decide (status g = in_progress)) then Some g else
  let totalSecondsLeft := Z.max 0 (Qfloor ((gameEndTime g - now) / 1000)) in
  if Qleb (gameEndTime g) now then finishOnTime g else
  let dt := dtOf now g in
  let g := set_last now g in
  if (maxScore <=? leftScore g)%Z || (maxScore <=? rightScore g)%Z then
    finishOnScore totalSecondsLeft g
  else Some (play dt r1 r2 g).

(** ** The socket handlers of the [/pong] namespace ([setupPongNamespace]) *)

(** The three callbacks the handlers pass to [setInterval]: the one of
    the 1v1 [startGame], the one of the tournament [startGame] and the
    one [togglePause] installs on resume. *)
Inductive Callback := cb_start1v1 | cb_startTournament | cb_resume.

(** One room, the timers of the runtime and the two registries
    [pongRooms] and [pongTournaments] (by room id). *)
Record World := mkWorld {
  game : PingPongGame;
  timers : gmap Timer Callback;
  nextTimer : Timer;
  pongRooms : list string;
  pongTournaments : list string
}.

(** What a handler reads from outside: [performance.now()] and the
    draws of [Math.random()] (two for a serve, a sequence for a shuffle). *)
Record Env := mkEnv { now : Q; rnd1 : Q; rnd2 : Q; shuffle : nat -> Q }.

Definition with_game (f : PingPongGame -> PingPongGame) (w : World) : World :=
  mkWorld (f (game w)) (timers w) (nextTimer w) (pongRooms w) (pongTournaments w).

Definition put_game (g : PingPongGame) (w : World) : World := with_game (fun _ => g) w.

(** [gameRoom.state.loop = setInterval(cb, 1000 / 60)]. *)
Definition setInterval (cb : Callback) (w : World) : World :=
  let h := nextTimer w in
  mkWorld (set_loop (Some h) (game w)) (<[h := cb]> (timers w)) (S h)
          (pongRooms w) (pongTournaments w).

(** [clearInterval(t)]; [clearInterval(undefined)] does nothing. *)
Definition clearInterval (t : option Timer) (w : World) : World :=
  match t with
  | Some h => mkWorld (game w) (delete h (timers w)) (nextTimer w)
                      (pongRooms w) (pongTournaments w)
  | None => w
  end.

(** [clearInterval(gameRoom.state.loop); gameRoom.state.loop = undefined]. *)
Definition stopLoop (w : World) : World :=
  with_game (set_loop None) (clearInterval (loop (game w)) w).

(** [players.find(p => p.side === s)]. *)
Definition findSide (s : Side) (g : PingPongGame) : option Ref :=
  List.find (fun r => bool_decide (side <$> heap g !! r = Some (Some s))) (players g).

(** [createGameResult(..., matches[round - 1], [])] reads
    [match.player1.name] and [match.player2.name]. *)
Definition createGameResult_reads (h : Heap) (ms : list Match) (rnd : nat)
    : option unit :=
  match rnd with
  | O => None
  | S i => m ← ms !! i; _ ← nameOf h (player1 m); _ ← nameOf h (player2 m); Some tt
  end.

(** The interval callback of the 1v1 [startGame]. *)
Definition tick1v1 (e : Env) (w : World) : option World :=
  g ← update (now e) (rnd1 e) (rnd2 e) (game w);
  let w := put_game g w in
  if decide (status g = finished) then
    _ ← createGameResult_reads (heap g) (matches g) (round g);
    Some (stopLoop w)
  else Some w.

(** The tail shared by the tournament callbacks:
    [round++; matchmake(); if (round <= 3) status = "starting"]. *)
Definition nextRound (e : Env) (g : PingPongGame) : option PingPongGame :=
  g ← matchmake (shuffle e) (set_round (S (round g)) g);
  Some (if decide (round g <= 3)%nat then set_status starting g else g).

(** The interval callback of the tournament [startGame]. *)
Definition tickTournament (e : Env) (w : World) : option World :=
  g ← update (now e) (rnd1 e) (rnd2 e) (game w);
  let w := put_game g w in
  if decide (status g = finished) then
    let w := stopLoop w in
    _ ← createGameResult_reads (heap g) (matches g) (round g);
    g' ← nextRound e (game w);
    Some (put_game g' w)
  else Some w.

(** The interval callback [togglePause] installs on resume. *)
Definition tickResumed (e : Env) (w : World) : option World :=
  g ← update (now e) (rnd1 e) (rnd2 e) (game w);
  let w := put_game g w in
  if decide (status g = finished) then
    let w := stopLoop w in
    if decide (type g = type_tournament) then
      g' ← nextRound e (game w);
      Some (put_game g' w)
    else Some w
  else Some w.

Definition runCallback (cb : Callback) : Env -> World -> option World :=
  match cb with
  | cb_start1v1 => tick1v1
  | cb_startTournament => tickTournament
  | cb_resume => tickResumed
  end.

(** The runtime fires timer [h]: its callback runs if the timer is
    active, and nothing happens otherwise. *)
Definition fire (h : Timer) (e : Env) (w : World) : option World :=
  match timers w !! h with
  | Some cb => runCallback cb e w
  | None => Some w
  end.

(** [startGame()] of the [join_game_room] (1v1) handler. *)
Definition startGame1v1 (e : Env) (w : World) : World :=
  let w := with_game (set_status in_progress) w in
  match loop (game w) with
  | Some _ => w
  | None =>
      match findSide side_left (game w), findSide side_right (game w) with
      | Some p1, Some p2 =>
          let g := game w in
          let g := set_matches (matches g ++ [newMatch (Some p1) (Some p2)]) g in
          let g := set_round (S (round g)) g in
          let g := resetGame (now e) (rnd1 e) (rnd2 e) g in
          let g := set_player2ready false (set_player1ready false g) in
          setInterval cb_start1v1 (put_game g w)
      | _, _ => w
      end
  end.

(** [startGame()] of the [join_tournament_room] handler. *)
Definition startGameTournament (e : Env) (w : World) : World :=
  match loop (game w) with
  | Some _ => w
  | None =>
      let g := set_status in_progress (game w) in
      let g := resetGame (now e) (rnd1 e) (rnd2 e) g in
      let g := set_player2ready false (set_player1ready false g) in
      setInterval cb_startTournament (put_game g w)
  end.

(** [togglePause(gameRoom)]. *)
Definition togglePause (e : Env) (w : World) : World :=
  match loop (game w) with
  | Some _ =>
      let w := with_game (set_whenPaused (now e)) w in
      let w := stopLoop w in
      with_game (set_status paused) w
  | None =>
      if decide (status (game w) = paused) then
        let g := set_status in_progress (game w) in
        let g := set_gameEndTime (gameEndTime g + (now e - whenPaused g)) g in
        setInterval cb_resume (put_game g w)
      else w
  end.

(** The [pause] handler (the same in both join handlers). *)
Definition on_pause (e : Env) (w : World) : World :=
  if decide (mode (game w) = mode_local) then togglePause e w else w.

(** The [move] handler; [None] is a [side] that is neither string. *)
Definition on_move (s : option Side) (positionZ : Q) (w : World) : World :=
  match s with
  | Some side_left =>
      with_game (fun g => set_leftPaddle (mkPaddle (pad_x (leftPaddle g)) positionZ) g) w
  | Some side_right =>
      with_game (fun g => set_rightPaddle (mkPaddle (pad_x (rightPaddle g)) positionZ) g) w
  | None => w
  end.

(** The [setReady] handler of a 1v1 socket whose closure variable
    [playerSide] holds [ps]. *)
Definition on_setReady1v1 (ps : option Side) (e : Env) (w : World) : World :=
  let g := game w in
  if bool_decide (status g = in_progress) || bool_decide (status g = paused)
     || (length (players g) <? 2)%nat then w
  else if decide (mode g = mode_local) then startGame1v1 e w
  else if negb (bool_decide (status g = starting)) then w
  else
    match ps with
    | None => w
    | Some s =>
        let w := match s with
                 | side_left => with_game (set_player1ready true) w
                 | side_right => with_game (set_player2ready true) w
                 end in
        let g := game w in
        if (length (players g) =? 2)%nat && player1ready g && player2ready g
        then startGame1v1 e w else w
    end.

(** The [setReady] handler of a tournament socket whose closure
    variable [player] is [pl] ([None]: [find] returned [undefined]). *)
Definition on_setReadyTournament (pl : option Ref) (e : Env) (w : World) : World :=
  let g := game w in
  if negb (bool_decide (status g = starting)) || (length (players g) <? 4)%nat then w
  else if decide (mode g = mode_local) then startGameTournament e w
  else
    match pl ≫= fun r => heap g !! r ≫= side with
    | None => w
    | Some s =>
        let w := match s with
                 | side_left => with_game (set_player1ready true) w
                 | side_right => with_game (set_player2ready true) w
                 end in
        let g := game w in
        if (length (players g) =? 4)%nat && player1ready g && player2ready g
        then startGameTournament e w else w
    end.

(** The [restart] handler (1v1 sockets only). *)
Definition on_restart (e : Env) (w : World) : World :=
  if decide (mode (game w) = mode_local) then startGame1v1 e w
  else with_game (fun g => set_status starting (resetGame (now e) (rnd1 e) (rnd2 e) g)) w.

(** The [names] handler of [join_game_room]; [ps] is the closure
    variable [playerSide], whose new value is returned. *)
Definition on_names1v1 (sock : string) (pid : option nat) (ps : option Side)
    (names : Names) (e : Env) (w : World) : JoinError + (World * option Side) :=
  let g := game w in
  let p_num := validatePlayerNames names (type g) (mode g) in
  if (0 <? p_num)%nat then inl (InvalidName p_num)
  else if (length (players g) =? 1)%nat
          && seatedAt (heap g) (players g) 0 (n_player1 names)
  then inl (NameTaken (n_player1 names))
  else
    let ps := if (length (players g) =? 1)%nat
                 && bool_decide ((players g !! 0%nat ≫= fun r => heap g !! r ≫= side)
                                 = Some side_left)
              then Some side_right else ps in
    let g := setPlayer ps (n_player1 names) (Some sock) pid g in
    let '(g, ps) :=
      if decide (mode g = mode_local)
      then (setPlayer (Some side_right) (n_player2 names) (Some "p2"%string) None g, None)
      else (g, ps) in
    let g := if (length (players g) =? 2)%nat
             then set_status starting (resetGame (now e) (rnd1 e) (rnd2 e) g)
             else g in
    inr (put_game g w, ps).

(** The [names] handler of [join_tournament_room]; on success also the
    closure variable [player] ([players.find(p => p.socketId === socket.id)]). *)
Definition on_namesTournament (sock : string) (pid : option nat)
    (names : Names) (e : Env) (w : World) : option (JoinError + (World * option Ref)) :=
  let g := game w in
  let p_num := validatePlayerNames names (type g) (mode g) in
  if (0 <? p_num)%nat then Some (inl (InvalidName p_num))
  else if seatedAt (heap g) (players g) 0 (n_player1 names)
          || seatedAt (heap g) (players g) 1 (n_player1 names)
          || (length (players g) =? 3)%nat
             && seatedAt (heap g) (players g) 2 (n_player1 names)
  then Some (inl (NameTaken (n_player1 names)))
  else
    let g := setPlayer None (n_player1 names) (Some sock) pid g in
    let g := if decide (mode g = mode_local) then
               setPlayer None (n_player4 names) (Some "p4"%string) None
                 (setPlayer None (n_player3 names) (Some "p3"%string) None
                   (setPlayer None (n_player2 names) (Some "p2"%string) None g))
             else g in
    let player :=
      List.find (fun r => bool_decide (socketId <$> heap g !! r = Some (Some sock)))
                (players g) in
    if (length (players g) =? 4)%nat then
      g ← matchmake (shuffle e) (set_round (S (round g)) (set_status starting g));
      Some (inr (put_game g w, player))
    else Some (inr (put_game g w, player)).

(** The [disconnect] handler of the socket [sock], whose
    [socket.data.roomId] is [roomId]. *)
Definition on_disconnect (sock : string) (roomId : option string) (w : World) : World :=
  match roomId with
  | None => w
  | Some rid =>
      if negb (bool_decide (rid = id (game w)))
         || negb (bool_decide (rid ∈ pongRooms w) || bool_decide (rid ∈ pongTournaments w))
      then w
      else
        let isSock r := bool_decide (socketId <$> heap (game w) !! r = Some (Some sock)) in
        let w := with_game (fun g => set_players (spliceFirst isSock (players g)) g) w in
        let g := game w in
        if decide (type g = type_tournament) then
          if negb (bool_decide (status g = waiting)) || (length (players g) =? 0)%nat
             || bool_decide (mode g = mode_local)
          then mkWorld g (timers w) (nextTimer w) (pongRooms w)
                       (spliceFirst (String.eqb rid) (pongTournaments w))
          else w
        else
          let w := if (length (players g) <? 2)%nat
                   then with_game (set_status waiting) (stopLoop w) else w in
          let g := game w in
          if (length (players g) =? 0)%nat || bool_decide (mode g = mode_local) then
            if decide (type g = type_1v1)
            then mkWorld g (timers w) (nextTimer w)
                         (spliceFirst (String.eqb rid) (pongRooms w)) (pongTournaments w)
            else mkWorld g (timers w) (nextTimer w) (pongRooms w)
                         (spliceFirst (String.eqb rid) (pongTournaments w))
          else w
  end.

(** ** The runs of a room *)

(** One event of the event loop: a handler of some socket runs, or the
    runtime fires a timer. *)
Inductive step : World -> World -> Prop :=
  | step_names1v1 sock pid ps names e w w' ps' :
      on_names1v1 sock pid ps names e w = inr (w', ps') -> step w w'
  | step_namesTournament sock pid names e w w' pl :
      on_namesTournament sock pid names e w = Some (inr (w', pl)) -> step w w'
  | step_move s z w : step w (on_move s z w)
  | step_pause e w : step w (on_pause e w)
  | step_setReady1v1 ps e w : step w (on_setReady1v1 ps e w)
  | step_setReadyTournament pl e w : step w (on_setReadyTournament pl e w)
  | step_restart e w : step w (on_restart e w)
  | step_disconnect sock rid w : step w (on_disconnect sock rid w)
  | step_fire h e w w' : fire h e w = Some w' -> step w w'.

(** The worlds a room goes through, from the [create_game] that
    constructed it at time [t0]. *)
Inductive reachable : World -> Prop :=
  | reach_new t0 i m t rooms tournaments :
      reachable (mkWorld (new t0 i m t) ∅ 0%nat rooms tournaments)
  | reach_step w w' : reachable w -> step w w' -> reachable w'.

(** The table bounds. *)
Definition inBounds (b : Ball) : Prop :=
  Qabs (ball_x b) <= bounds_x /\ Qabs (ball_z b) <= bounds_z.

End Pong.

(* ================================================================== *)
(** * The Reaction engine: [KeyClashGame.ts]                           *)
(* ================================================================== *)

Module KeyClash.

(** [interface state], with the heap of the room's [Player] objects. *)
Record state := mkState {
  id : string;
  score1 : Z;
  score2 : Z;
  prompts : string * string;
  timeLeft : Z;
  players : list Ref;
  matches : list Match;
  interval : option Timer;
  player1ready : bool;
  player2ready : bool;
  p1 : option string;
  p2 : option string;
  status : Status;
  mode : Mode;
  type : RoomType;
  round : nat;
  heap : Heap
}.

Definition set_score1 v s := mkState (id s) v (score2 s) (prompts s) (timeLeft s) (players s) (matches s) (interval s) (player1ready s) (player2ready s) (p1 s) (p2 s) (status s) (mode s) (type s) (round s) (heap s).
Definition set_score2 v s := mkState (id s) (score1 s) v (prompts s) (timeLeft s) (players s) (matches s) (interval s) (player1ready s) (player2ready s) (p1 s) (p2 s) (status s) (mode s) (type s) (round s) (heap s).
Definition set_prompts v s := mkState (id s) (score1 s) (score2 s) v (timeLeft s) (players s) (matches s) (interval s) (player1ready s) (player2ready s) (p1 s) (p2 s) (status s) (mode s) (type s) (round s) (heap s).
Definition set_timeLeft v s := mkState (id s) (score1 s) (score2 s) (prompts s) v (players s) (matches s) (interval s) (player1ready s) (player2ready s) (p1 s) (p2 s) (status s) (mode s) (type s) (round s) (heap s).
Definition set_players v s := mkState (id s) (score1 s) (score2 s) (prompts s) (timeLeft s) v (matches s) (interval s) (player1ready s) (player2ready s) (p1 s) (p2 s) (status s) (mode s) (type s) (round s) (heap s).
Definition set_matches v s := mkState (id s) (score1 s) (score2 s) (prompts s) (timeLeft s) (players s) v (interval s) (player1ready s) (player2ready s) (p1 s) (p2 s) (status s) (mode s) (type s) (round s) (heap s).
Definition set_interval v s := mkState (id s) (score1 s) (score2 s) (prompts s) (timeLeft s) (players s) (matches s) v (player1ready s) (player2ready s) (p1 s) (p2 s) (status s) (mode s) (type s) (round s) (heap s).
Definition set_player1ready v s := mkState (id s) (score1 s) (score2 s) (prompts s) (timeLeft s) (players s) (matches s) (interval s) v (player2ready s) (p1 s) (p2 s) (status s) (mode s) (type s) (round s) (heap s).
Definition set_player2ready v s := mkState (id s) (score1 s) (score2 s) (prompts s) (timeLeft s) (players s) (matches s) (interval s) (player1ready s) v (p1 s) (p2 s) (status s) (mode s) (type s) (round s) (heap s).
Definition set_p1 v s := mkState (id s) (score1 s) (score2 s) (prompts s) (timeLeft s) (players s) (matches s) (interval s) (player1ready s) (player2ready s) v (p2 s) (status s) (mode s) (type s) (round s) (heap s).
Definition set_p2 v s := mkState (id s) (score1 s) (score2 s) (prompts s) (timeLeft s) (players s) (matches s) (interval s) (player1ready s) (player2ready s) (p1 s) v (status s) (mode s) (type s) (round s) (heap s).
Definition set_status v s := mkState (id s) (score1 s) (score2 s) (prompts s) (timeLeft s) (players s) (matches s) (interval s) (player1ready s) (player2ready s) (p1 s) (p2 s) v (mode s) (type s) (round s) (heap s).
Definition set_round v s := mkState (id s) (score1 s) (score2 s) (prompts s) (timeLeft s) (players s) (matches s) (interval s) (player1ready s) (player2ready s) (p1 s) (p2 s) (status s) (mode s) (type s) v (heap s).
Definition set_heap v s := mkState (id s) (score1 s) (score2 s) (prompts s) (timeLeft s) (players s) (matches s) (interval s) (player1ready s) (player2ready s) (p1 s) (p2 s) (status s) (mode s) (type s) (round s) v.

(** The room [create_game] pushes onto the registry. *)
Definition new (i : string) (m : Mode) (t : RoomType) : state :=
  {| id := i; score1 := 0; score2 := 0; prompts := ("-", "-")%string;
     timeLeft := 20; players := []; matches := []; interval := None;
     player1ready := false; player2ready := false; p1 := None; p2 := None;
     status := waiting; mode := m; type := t; round := 0; heap := [] |}.

Definition arrowKeys : list string :=
  ["ArrowUp"; "ArrowDown"; "ArrowLeft"; "ArrowRight"]%string.
Definition wasdKeys : list string := ["w"; "s"; "a"; "d"]%string.

(** [getRandomKey(keys)] for the draw [r]; a draw of [Math.random()]
    lies in [0, 1), so the index is in range. *)
Definition getRandomKey (r : Q) (keys : list string) : string :=
  nth (randomIndex r (length keys)) keys ""%string.

(** [keys.includes(key)] and [keys.indexOf(key)] ([None] is [-1]). *)
Definition includes (keys : list string) (key : string) : bool :=
  existsb (String.eqb key) keys.

Fixpoint indexOf (keys : list string) (key : string) : option nat :=
  match keys with
  | [] => None
  | k :: keys' => if String.eqb k key then Some 0%nat else S <$> indexOf keys' key
  end.

(** [key === other[keys.indexOf(prompt)]]: the key at the prompt's
    position in the other layout. *)
Definition twin (keys other : list string) (prompt key : string) : bool :=
  bool_decide ((indexOf keys prompt ≫= fun i => other !! i) = Some key).

(** The room, the timers of the runtime and the two registries. *)
Record World := mkWorld {
  room : state;
  timers : gset Timer;
  nextTimer : Timer;
  keyClashRooms : list string;
  keyClashTournaments : list string
}.

(** The draws of [Math.random()] a handler consumes. *)
Record Env := mkEnv { rnd1 : Q; rnd2 : Q; shuffle : nat -> Q }.

(** What the closure of one [join_game_room] call captures: the [mode]
    and [type] arguments of the event, the socket id and [playerId], and
    (once [names] ran) the socket's own [player] object. *)
Record Closure := mkClosure {
  c_mode : Mode;
  c_type : RoomType;
  c_socket : string;
  c_playerId : option nat;
  c_player : Ref
}.

Definition with_room (f : state -> state) (w : World) : World :=
  mkWorld (f (room w)) (timers w) (nextTimer w) (keyClashRooms w) (keyClashTournaments w).

Definition put_room (s : state) (w : World) : World := with_room (fun _ => s) w.

(** [state.interval = setInterval(cb, 1000)]. *)
Definition setInterval (w : World) : World :=
  let h := nextTimer w in
  mkWorld (set_interval (Some h) (room w)) ({[ h ]} ∪ timers w) (S h)
          (keyClashRooms w) (keyClashTournaments w).

(** [clearInterval(state.interval); state.interval = null]. *)
Definition stopInterval (w : World) : World :=
  match interval (room w) with
  | Some h => mkWorld (set_interval None (room w)) (timers w ∖ {[ h ]}) (nextTimer w)
                      (keyClashRooms w) (keyClashTournaments w)
  | None => w
  end.

(** ** [matchmake()] *)

(** The body shared by the three branches once the round's match sits
    at index [i]. *)
Definition seatMatch (i : nat) (s : state) : option state :=
  m ← matches s !! i;
  n1 ← nameOf (heap s) (player1 m);
  n2 ← nameOf (heap s) (player2 m);
  let s := set_p2 n2 (set_p1 n1 s) in
  let s := set_heap (resetSides (players s) (heap s)) s in
  r1 ← player1 m;
  r2 ← player2 m;
  Some (set_heap (heap_set_side r2 (Some side_right)
                   (heap_set_side r1 (Some side_left) (heap s))) s).

(** The three branches on [state.round]. *)
Definition pairUp (rand : nat -> Q) (s : state) : option state :=
  if decide (round s = 1%nat) then
    let ps := shufflePlayers rand (players s) in
    let s := set_players ps s in
    let s := set_matches (matches s ++ [newMatch (ps !! 0%nat) (ps !! 1%nat)]) s in
    let s := set_matches (matches s ++ [newMatch (ps !! 2%nat) (ps !! 3%nat)]) s in
    seatMatch 0 s
  else if decide (round s = 2%nat) then
    seatMatch 1 s
  else if decide (round s = 3%nat) then
    m0 ← matches s !! 0%nat;
    m1 ← matches s !! 1%nat;
    if bool_decide (is_Some (winner m0)) && bool_decide (is_Some (winner m1)) then
      seatMatch 2 (set_matches (matches s ++ [newMatch (winner m0) (winner m1)]) s)
    else Some s
  else Some s.

(** [matchmake()]: the branches, then
    [if (state.round <= 3) { status = "starting"; timeLeft = 20 }]. *)
Definition matchmake (rand : nat -> Q) (s : state) : option state :=
  s ← pairUp rand s;
  Some (if decide (round s <= 3)%nat then set_timeLeft 20 (set_status starting s) else s).

(** ** [startGame()] and its interval callback *)

(** [createGameResult(..., matches[round - 1], [])] reads the two names. *)
Definition createGameResult_reads (h : Heap) (m : Match) : option unit :=
  _ ← nameOf h (player1 m); _ ← nameOf h (player2 m); Some tt.

(** The round ends: the branch [if (state.timeLeft <= 0 && state.interval)]. *)
Definition finish (e : Env) (w : World) : option World :=
  let w := stopInterval w in
  let s := room w in
  let s := set_player2ready false (set_player1ready false (set_status finished s)) in
  match round s with
  | O => None
  | S i =>
      m ← matches s !! i;
      let m := if (score2 s <? score1 s)%Z then set_winner (player1 m) m
               else set_winner (player2 m) m in
      let m := set_result (score1 s) (score2 s) 20 m in
      let s := set_matches (<[i := m]> (matches s)) s in
      _ ← createGameResult_reads (heap s) m;
      if decide (type s = type_tournament) then
        s ← matchmake (shuffle e) (set_round (S (round s)) s);
        Some (put_room s w)
      else Some (put_room s w)
  end.

(** The callback [startGame] passes to [setInterval]. *)
Definition tick (e : Env) (w : World) : option World :=
  let w := with_room (fun s => set_timeLeft (timeLeft s - 1)%Z s) w in
  if (timeLeft (room w) <=? 0)%Z && bool_decide (is_Some (interval (room w)))
  then finish e w
  else Some w.

(** The runtime fires timer [h]. *)
Definition fire (h : Timer) (e : Env) (w : World) : option World :=
  if decide (h ∈ timers w) then tick e w else Some w.

(** [startGame()] in the closure [c]. *)
Definition startGame (c : Closure) (e : Env) (w : World) : World :=
  let s := room w in
  if decide (status s = in_progress) then w
  else
    let s := set_status in_progress s in
    let s := if decide (c_type c = type_1v1) then
               set_matches (matches s ++ [newMatch (players s !! 0%nat) (players s !! 1%nat)])
                           (set_round (S (round s)) s)
             else s in
    let s := set_timeLeft 20 (set_score2 0 (set_score1 0 s)) in
    let s := set_prompts (getRandomKey (rnd1 e) wasdKeys, getRandomKey (rnd2 e) arrowKeys) s in
    setInterval (put_room s w).

(** ** The socket handlers *)

(** The [keypress] handler in the closure [c]; [r] is the draw a new
    prompt consumes. *)
Definition on_keypress (c : Closure) (key : string) (r : Q) (s : state) : state :=
  if (timeLeft s <=? 0)%Z || negb (bool_decide (status s = in_progress)) then s
  else if decide (c_mode c = mode_remote) then
    let sd := heap s !! c_player c ≫= side in
    let s :=
      if decide (sd = Some side_left) then
        if String.eqb key (fst (prompts s)) || twin wasdKeys arrowKeys (fst (prompts s)) key
        then set_prompts (getRandomKey r wasdKeys, snd (prompts s))
                         (set_score1 (score1 s + 1)%Z s)
        else set_score1 (score1 s - 1)%Z s
      else s in
    if decide (sd = Some side_right) then
      if String.eqb key (snd (prompts s)) || twin arrowKeys wasdKeys (snd (prompts s)) key
      then set_prompts (fst (prompts s), getRandomKey r arrowKeys)
                       (set_score2 (score2 s + 1)%Z s)
      else set_score2 (score2 s - 1)%Z s
    else s
  else if includes wasdKeys key then
    if String.eqb key (fst (prompts s))
    then set_prompts (getRandomKey r wasdKeys, snd (prompts s))
                     (set_score1 (score1 s + 1)%Z s)
    else set_score1 (score1 s - 1)%Z s
  else if includes arrowKeys key then
    if String.eqb key (snd (prompts s))
    then set_prompts (fst (prompts s), getRandomKey r arrowKeys)
                     (set_score2 (score2 s + 1)%Z s)
    else set_score2 (score2 s - 1)%Z s
  else s.

(** [new Player] pushed onto [state.players]. *)
Definition pushPlayer (p : Player) (s : state) : state :=
  set_players (players s ++ [length (heap s)]) (set_heap (heap s ++ [p]) s).

(** [!x] for a nullable string. *)
Definition falsy (x : option string) : bool :=
  match x with None => true | Some v => String.eqb v "" end.

(** [players.length === 1 && players[0].side === sd]. *)
Definition soleSide (s : state) (sd : Side) : bool :=
  (length (players s) =? 1)%nat
  && bool_decide ((players s !! 0%nat ≫= fun r => heap s !! r ≫= side) = Some sd).

(** The three parts of the [names] handler below its two rejections:
    the socket's own player is seated; in local mode the other seats are
    filled, in remote mode missing display names get a default; then the
    room either keeps waiting or moves to [starting]. *)
Definition seatOwn (sock : string) (pid : option nat) (names : Names) (s : state) : state :=
  let mk sd := mkPlayer pid (Some sock) (n_player1 names) sd in
  if (length (players s) =? 0)%nat || soleSide s side_right then
    let s' := pushPlayer (mk (Some side_left)) s in
    if decide (type s = type_1v1) then set_p1 (n_player1 names) s' else s'
  else if soleSide s side_left then
    let s' := pushPlayer (mk (Some side_right)) s in
    if decide (type s = type_1v1) then set_p2 (n_player1 names) s' else s'
  else pushPlayer (mk None) s.

Definition seatOthers (mode : Mode) (type : RoomType) (names : Names) (s : state) : state :=
  if decide (mode = mode_local) then
    let s := pushPlayer (mkPlayer None (Some "p2"%string) (n_player2 names)
                                  (Some side_right)) s in
    let s := if decide (KeyClash.type s = type_1v1)
             then set_p2 (n_player2 names) s else s in
    if decide (type = type_tournament) then
      pushPlayer (mkPlayer None (Some "p4"%string) (n_player4 names) None)
        (pushPlayer (mkPlayer None (Some "p3"%string) (n_player3 names) None) s)
    else s
  else
    let s := if falsy (p1 s) then set_p1 (Some "player 1"%string) s else s in
    if falsy (p2 s) then set_p2 (Some "player 2"%string) s else s.

Definition settle (e : Env) (s : state) : option state :=
  if bool_decide (type s = type_1v1) && (length (players s) <? 2)%nat
     || bool_decide (type s = type_tournament) && (length (players s) <? 4)%nat
  then Some (set_status waiting s)
  else
    let s := set_status starting s in
    if decide (type s = type_tournament) then
      matchmake (shuffle e) (set_round (S (round s)) s)
    else
      Some (set_timeLeft 20 (set_score2 0 (set_score1 0 s))).

(** The [names] handler of the socket [sock] whose [join_game_room]
    event carried [mode], [type] and [pid]; on success the closure
    variable [player] is returned with the new world. *)
Definition on_names (mode : Mode) (type : RoomType) (sock : string) (pid : option nat)
    (names : Names) (e : Env) (w : World) : option (JoinError + (World * Ref)) :=
  let s := room w in
  let p_num := validatePlayerNames names type mode in
  if (0 <? p_num)%nat then Some (inl (InvalidName p_num))
  else if seatedAt (heap s) (players s) 0 (n_player1 names)
          || seatedAt (heap s) (players s) 1 (n_player1 names)
          || seatedAt (heap s) (players s) 2 (n_player1 names)
  then Some (inl (NameTaken (n_player1 names)))
  else
    let player := length (heap s) in
    s ← settle e (seatOthers mode type names (seatOwn sock pid names s));
    Some (inr (put_room s w, player)).

(** The [setReady] handler in the closure [c]. *)
Definition on_setReady (c : Closure) (e : Env) (w : World) : World :=
  let s := room w in
  if negb (bool_decide (status s = starting)) && negb (bool_decide (status s = finished))
     || bool_decide (type s = type_tournament) && bool_decide (status s = finished)
  then w
  else if decide (mode s = mode_local) then startGame c e w
  else
    let s := if decide (status s = finished) then set_status starting s else s in
    match heap s !! c_player c ≫= side with
    | None => put_room s w
    | Some sd =>
        let s := match sd with
                 | side_left => set_player1ready true s
                 | side_right => set_player2ready true s
                 end in
        let s := set_score2 0 (set_score1 0 s) in
        let w := put_room s w in
        if bool_decide (type s = type_1v1) && (length (players s) =? 2)%nat
           && player1ready s && player2ready s
           || bool_decide (type s = type_tournament) && (length (players s) =? 4)%nat
              && player1ready s && player2ready s
        then startGame c e w else w
    end.

(** The [disconnect] handler of the socket [sock], whose
    [socket.data.roomId] is [roomId]. *)
Definition on_disconnect (sock : string) (roomId : option string) (w : World) : World :=
  match roomId with
  | None => w
  | Some rid =>
      if negb (bool_decide (rid = id (room w)))
         || negb (bool_decide (rid ∈ keyClashRooms w) || bool_decide (rid ∈ keyClashTournaments w))
      then w
      else
        let s := room w in
        let isSock r := bool_decide (socketId <$> heap s !! r = Some (Some sock)) in
        let s :=
          match List.find isSock (players s) with
          | Some r =>
              let s := match heap s !! r ≫= side with
                       | Some side_left => set_p1 None s
                       | Some side_right => set_p2 None s
                       | None => s
                       end in
              set_players (spliceFirst isSock (players s)) s
          | None => s
          end in
        let w := put_room s w in
        if decide (type s = type_tournament) then
          if negb (bool_decide (status s = waiting)) || (length (players s) =? 0)%nat
             || bool_decide (mode s = mode_local)
          then mkWorld s (timers w) (nextTimer w) (keyClashRooms w)
                       (spliceFirst (String.eqb rid) (keyClashTournaments w))
          else w
        else
          let w := if (length (players s) <? 2)%nat then
                     with_room (fun s => set_player2ready false
                                           (set_player1ready false (set_status waiting s)))
                               (stopInterval w)
                   else w in
          if (length (players (room w)) =? 0)%nat || bool_decide (mode (room w) = mode_local)
          then mkWorld (room w) (timers w) (nextTimer w)
                       (spliceFirst (String.eqb rid) (keyClashRooms w)) (keyClashTournaments w)
          else w
  end.

(** ** The runs of a room *)

(** One event of the event loop.  These are all the handlers the
    [/keyclash] namespace registers: there is no [pause] event. *)
Inductive step : World -> World -> Prop :=
  | step_names mode type sock pid names e w w' pl :
      on_names mode type sock pid names e w = Some (inr (w', pl)) -> step w w'
  | step_keypress c key r w : step w (with_room (on_keypress c key r) w)
  | step_setReady c e w : step w (on_setReady c e w)
  | step_disconnect sock rid w : step w (on_disconnect sock rid w)
  | step_fire h e w w' : fire h e w = Some w' -> step w w'.

Inductive reachable : World -> Prop :=
  | reach_new i m t rooms tournaments :
      reachable (mkWorld (new i m t) ∅ 0%nat rooms tournaments)
  | reach_step w w' : reachable w -> step w w' -> reachable w'.

(** The runtime fires timer [h] [n] times in a row. *)
Fixpoint fires (n : nat) (h : Timer) (e : Env) (w : World) : option World :=
  match n with
  | O => Some w
  | S n' => w' ← fire h e w; fires n' h e w'
  end.

End KeyClash.

(* ================================================================== *)
(** * The lobbies: [quickmatch.ts] and [tournament.ts]                 *)
(* ================================================================== *)

(** The two files differ in the registries they name and in the [type]
    they give a new room; one model serves both. *)
Module Lobby.

Inductive Game := game_pong | game_keyclash.

(** What [join_game] reads of a room object. *)
Record RoomInfo := mkRoomInfo { r_id : string; r_status : Status }.

(** [playersOnline] and the two room registries of the lobby. *)
Record Lobby := mkLobby {
  playersOnline : list Player;
  pongRooms : list RoomInfo;
  keyClashRooms : list RoomInfo
}.

Inductive LobbyError := AlreadyInLobby | GameNotFound | GameAlreadyStarted.

(** Truthiness of a nullable number ([0] is falsy) and of a nullable
    string (the empty string is falsy). *)
Definition truthyId (o : option nat) : bool :=
  match o with Some (S _) => true | _ => false end.

Definition truthyName (o : option string) : bool :=
  match o with Some s => negb (String.eqb s "") | None => false end.

(** [`Guest-${socket.id.slice(0, 3)}`]. *)
Definition guestName (sock : string) : string :=
  ("Guest-" ++ String.substring 0 3 sock)%string.

(** The [name] handler of the socket [sock]. *)
Definition on_name (sock : string) (nm : option string) (pid : option nat)
    (l : Lobby) : LobbyError + Lobby :=
  if truthyId pid && existsb (fun p => bool_decide (playerId p = pid)) (playersOnline l)
  then inl AlreadyInLobby
  else
    let n := if truthyName nm then nm else Some (guestName sock) in
    inr (mkLobby (playersOnline l ++ [mkPlayer pid (Some sock) n None])
                 (pongRooms l) (keyClashRooms l)).

(** The [create_game] handler; [i] is the id it draws. *)
Definition on_create_game (i : string) (g : Game) (l : Lobby) : Lobby :=
  match g with
  | game_pong => mkLobby (playersOnline l) (pongRooms l ++ [mkRoomInfo i waiting])
                         (keyClashRooms l)
  | game_keyclash => mkLobby (playersOnline l) (pongRooms l)
                             (keyClashRooms l ++ [mkRoomInfo i waiting])
  end.

(** [playersOnline.findIndex(p => p.socketId === socket.id)] and
    [splice(i, 1)] when found. *)
Definition dropSocket (sock : string) (ps : list Player) : list Player :=
  spliceFirst (fun p => bool_decide (socketId p = Some sock)) ps.

(** The [join_game] handler of the socket [sock]. *)
Definition on_join_game (sock : string) (gameId : string) (g : Game) (l : Lobby)
    : LobbyError + Lobby :=
  let rooms := match g with game_pong => pongRooms l | game_keyclash => keyClashRooms l end in
  match List.find (fun r => String.eqb (r_id r) gameId) rooms with
  | None => inl GameNotFound
  | Some r =>
      if negb (bool_decide (r_status r = waiting)) then inl GameAlreadyStarted
      else inr (mkLobby (dropSocket sock (playersOnline l)) (pongRooms l) (keyClashRooms l))
  end.

(** The [disconnect] handler of the socket [sock]. *)
Definition on_disconnect (sock : string) (l : Lobby) : Lobby :=
  mkLobby (dropSocket sock (playersOnline l)) (pongRooms l) (keyClashRooms l).

(** One event of the lobby; the game namespaces change the rooms behind
    the lobby's back. *)
Inductive step : Lobby -> Lobby -> Prop :=
  | step_name sock nm pid l l' : on_name sock nm pid l = inr l' -> step l l'
  | step_create i g l : step l (on_create_game i g l)
  | step_join sock gid g l l' : on_join_game sock gid g l = inr l' -> step l l'
  | step_disconnect sock l : step l (on_disconnect sock l)
  | step_rooms l rs ks : step l (mkLobby (playersOnline l) rs ks).

Inductive reachable : Lobby -> Prop :=
  | reach_empty : reachable (mkLobby [] [] [])
  | reach_step l l' : reachable l -> step l l' -> reachable l'.

(** The durable ids present in the lobby. *)
Definition durableIds (l : Lobby) : list nat :=
  omap (fun p => if truthyId (playerId p) then playerId p else None) (playersOnline l).

End Lobby.

(* ================================================================== *)
(** * The result sink: [createGameResult] and [saveGameResult]          *)
(* ================================================================== *)

Module Results.

Inductive GameType := gt_pong | gt_keyclash.

(** One of the two player entries of a [GameResult]. *)
Record Entry := mkEntry {
  username : option string;
  e_playerId : option nat;
  score : Z;
  isWinner : bool
}.

(** [interface GameResult] without [avatar], [rounds] and [timestamp]. *)
Record GameResult := mkGameResult {
  gameId : string;
  gameType : GameType;
  r_mode : Mode;
  r_player1 : Entry;
  r_player2 : Entry;
  r_winner : option Ref;
  r_duration : Z
}.

(** [createGameResult(gameId, gameType, mode, match, [])]; [m] is
    [matches[round - 1]], and reading [match.player1.name] of an
    [undefined] match or player throws.  [isWinner] compares object
    identities. *)
Definition createGameResult (h : Heap) (i : string) (gt : GameType) (md : Mode)
    (m : option Match) : option GameResult :=
  m ← m;
  r1 ← player1 m; p1 ← h !! r1;
  r2 ← player2 m; p2 ← h !! r2;
  Some (mkGameResult i gt md
          (mkEntry (name p1) (playerId p1) (p1score m) (bool_decide (player1 m = winner m)))
          (mkEntry (name p2) (playerId p2) (p2score m) (bool_decide (player2 m = winner m)))
          (winner m) (duration m)).

(** The rows [saveGameResult] touches: [wins] and [losses] of each user,
    and the [Game] rows ([id_player1], [id_player2], [game_name]). *)
Record Db := mkDb {
  users : gmap nat (Z * Z);
  games : list (option nat * option nat * GameType)
}.

(** [prisma.user.update({ where: { id }, data: { wins | losses: { increment: 1 } } })];
    it throws when no user has that id. *)
Definition bump (won : bool) (uid : option nat) (db : Db) : option Db :=
  u ← uid;
  '(w, l) ← users db !! u;
  Some (mkDb (<[u := if won then ((w + 1)%Z, l) else (w, (l + 1)%Z)]> (users db)) (games db)).

(** [saveGameResult(gameResult, prisma)]: the body of the [try]; an
    exception ends it where it is raised, with the writes made so far.
    Each write is one atomic statement of the database, so the [await]s
    between them are not modelled. *)
Definition saveGameResult (r : GameResult) (db : Db) : Db :=
  if bool_decide (r_mode r = mode_local)
     && negb (Lobby.truthyId (e_playerId (r_player1 r)))
     && negb (Lobby.truthyId (e_playerId (r_player2 r)))
  then db
  else
    let db := mkDb (users db)
                   (games db ++ [(e_playerId (r_player1 r), e_playerId (r_player2 r),
                                  gameType r)]) in
    match (if Lobby.truthyId (e_playerId (r_player1 r))
           then bump (isWinner (r_player1 r)) (e_playerId (r_player1 r)) db
           else Some db) with
    | None => db
    | Some db1 =>
        match (if Lobby.truthyId (e_playerId (r_player2 r))
               then bump (isWinner (r_player2 r)) (e_playerId (r_player2 r)) db1
               else Some db1) with
        | None => db1
        | Some db2 => db2
        end
    end.

(** What the 1v1 pong callback hands to the sink when [update] has
    finished the round. *)
Definition pongResult (g : Pong.PingPongGame) : option GameResult :=
  createGameResult (Pong.heap g) (Pong.id g) gt_pong (Pong.mode g)
    (match Pong.round g with O => None | S i => Pong.matches g !! i end).

End Results.

(* ================================================================== *)
(** * Invariants of a pong room                                        *)
(* ================================================================== *)

Module PongInv.
Import Pong.

(** The scores stay between 0 and [maxScore], [hitter] is 0, 1 or 2, the
    paddles stay on their lines and the ball keeps at least its serve
    speed along x. *)
Definition physInv (g : PingPongGame) : Prop :=
  (0 <= leftScore g <= 3)%Z /\ (0 <= rightScore g <= 3)%Z /\ (hitter g <= 2)%nat /\
  pad_x (leftPaddle g) = -8.2 /\ pad_x (rightPaddle g) = 8.2 /\
  6 <= Qabs (ball_vx (ball g)).

(** The timers of the runtime are the room's [loop], if it has one. *)
Definition oneTimer (w : World) : Prop :=
  match loop (game w) with
  | None => timers w = ∅
  | Some h => exists cb, timers w = {[ h := cb ]}
  end.

(** The fields [physInv] and [oneTimer] read are the same in [g'] as in [g]. *)
Definition sameCore (g g' : PingPongGame) : Prop :=
  ball g' = ball g /\ leftPaddle g' = leftPaddle g /\ rightPaddle g' = rightPaddle g /\
  hitter g' = hitter g /\ leftScore g' = leftScore g /\ rightScore g' = rightScore g /\
  loop g' = loop g.

Definition inv (w : World) : Prop := physInv (game w) /\ oneTimer w.

End PongInv.

(* ================================================================== *)
(** * Invariants of a key-clash room                                   *)
(* ================================================================== *)

Module KeyClashInv.
Import KeyClash.

(** Handles are handed out in increasing order, and the handle the room
    stores is one of the active timers. *)
Definition timersInv (w : World) : Prop :=
  (forall h, h ∈ timers w -> (h < nextTimer w)%nat) /\
  (forall h, interval (room w) = Some h -> h ∈ timers w).


End KeyClashInv.

(* ================================================================== *)
(** * Sample runs                                                      *)
(* ================================================================== *)

Module Demo.

(** A local 1v1 pong room: Alice and Bob share one device. *)
Definition room0 : Pong.World :=
  Pong.mkWorld (Pong.new 0 "k3x9" mode_local type_1v1) ∅ 0%nat ["k3x9"%string] [].

Definition aliceBob : Names :=
  mkNames (Some "Alice"%string) (Some "Bob"%string) None None.

Definition env (t : Q) : Pong.Env := Pong.mkEnv t 0.7 0.75 (fun _ => 0).

(** The [names] event, then [setReady] at time 1000 (the match starts). *)
Definition seated : Pong.World :=
  match Pong.on_names1v1 "s1" None (Some side_left) aliceBob (env 500) room0 with
  | inr (w, _) => w
  | inl _ => room0
  end.

Definition started : Pong.World := Pong.on_setReady1v1 None (env 1000) seated.

(** A rally: the ball close to the right bound, last touched by the
    left paddle. *)
Definition rally : Pong.PingPongGame :=
  Pong.set_hitter 1 (Pong.set_ball (Pong.mkBall 9.5 3 6 1) (Pong.game started)).

(** A local 1v1 key-clash room with the same two players. *)
Definition kcRoom0 : KeyClash.World :=
  KeyClash.mkWorld (KeyClash.new "q7w1" mode_local type_1v1) ∅ 0%nat ["q7w1"%string] [].

Definition kcEnv : KeyClash.Env := KeyClash.mkEnv 0.1 0.6 (fun _ => 0).

Definition kcSeated : KeyClash.World :=
  match KeyClash.on_names mode_local type_1v1 "s1" None aliceBob kcEnv kcRoom0 with
  | Some (inr (w, _)) => w
  | _ => kcRoom0
  end.

Definition kcClosure : KeyClash.Closure :=
  KeyClash.mkClosure mode_local type_1v1 "s1" None 0%nat.

Definition kcStarted : KeyClash.World := KeyClash.on_setReady kcClosure kcEnv kcSeated.

(** A local pong tournament: four names from one device; the state at
    the call of [matchmake] in the [names] handler, and the draws of the
    shuffle. *)
Definition fourNames : Names :=
  mkNames (Some "Ann"%string) (Some "Ben"%string) (Some "Cy"%string) (Some "Dee"%string).

Definition draws (k : nat) : Q := nth k [0.9; 0.2; 0.6] 0.

Definition tourSeated : Pong.PingPongGame :=
  Pong.set_round 1
    (Pong.set_status starting
       (Pong.setPlayer None (Some "Dee"%string) (Some "p4"%string) None
          (Pong.setPlayer None (Some "Cy"%string) (Some "p3"%string) None
             (Pong.setPlayer None (Some "Ben"%string) (Some "p2"%string) None
                (Pong.setPlayer None (Some "Ann"%string) (Some "s1"%string) None
                   (Pong.new 0 "t4m2" mode_local type_tournament)))))).

(** The same four in a key-clash tournament. *)
Definition kcTourSeated : KeyClash.state :=
  KeyClash.set_round 1
    (KeyClash.set_status starting
       (KeyClash.seatOthers mode_local type_tournament fourNames
          (KeyClash.seatOwn "s1" None fourNames
             (KeyClash.new "t9c1" mode_local type_tournament)))).

(** The pong tournament after round 1 was paired, and at the call of
    [matchmake] for round 3, the two semifinals won by their seat B. *)
Definition tourRound1 : Pong.PingPongGame :=
  default tourSeated (Pong.matchmake draws tourSeated).

Definition tourRound3 : Pong.PingPongGame :=
  Pong.set_round 3
    (Pong.set_matches (map (fun m => set_winner (player2 m) m) (Pong.matches tourRound1))
                      tourRound1).

(** A local key-clash tournament of the four, started: the [names]
    event seats them and pairs round 1, [setReady] starts the round. *)
Definition kcTour0 : KeyClash.World :=
  KeyClash.mkWorld (KeyClash.new "t9c1" mode_local type_tournament) ∅ 0%nat
                   [] ["t9c1"%string].

Definition kcTourEnv : KeyClash.Env := KeyClash.mkEnv 0.1 0.6 draws.

Definition kcTourClosure : KeyClash.Closure :=
  KeyClash.mkClosure mode_local type_tournament "s1" None 0%nat.

Definition kcTourPaired : KeyClash.World :=
  match KeyClash.on_names mode_local type_tournament "s1" None fourNames kcTourEnv kcTour0 with
  | Some (inr (w, _)) => w
  | _ => kcTour0
  end.

Definition kcTourStarted : KeyClash.World :=
  KeyClash.on_setReady kcTourClosure kcTourEnv kcTourPaired.

(** The same for pong. *)
Definition tour0 : Pong.World :=
  Pong.mkWorld (Pong.new 0 "t4m2" mode_local type_tournament) ∅ 0%nat [] ["t4m2"%string].

Definition tourEnv (t : Q) : Pong.Env := Pong.mkEnv t 0.7 0.75 draws.

Definition tourPaired : Pong.World :=
  match Pong.on_namesTournament "s1" None fourNames (tourEnv 500) tour0 with
  | Some (inr (w, _)) => w
  | _ => tour0
  end.

Definition tourStarted : Pong.World :=
  Pong.on_setReadyTournament (Some 0%nat) (tourEnv 1000) tourPaired.

(** A local tournament submission whose first and third, and second and
    fourth, names coincide. *)
Definition twins : Names :=
  mkNames (Some "Ann"%string) (Some "Ben"%string) (Some "Ann"%string) (Some "Ben"%string).

End Demo.

(** A remote 1v1 pong room: two sockets send their names one after the
    other. *)
Module Demo2.

Definition remote0 : Pong.World :=
  Pong.mkWorld (Pong.new 0 "r5d2" mode_remote type_1v1) ∅ 0%nat ["r5d2"%string] [].

Definition ann : Names := mkNames (Some "Ann"%string) None None None.
Definition ben : Names := mkNames (Some "Ben"%string) None None None.

Definition remote1 : Pong.World :=
  match Pong.on_names1v1 "s1" (Some 1%nat) (Some side_left) ann (Demo.env 500) remote0 with
  | inr (w, _) => w
  | inl _ => remote0
  end.


(** The final of the local pong tournament of [Demo], in progress with
    its tick timer running. *)
Definition tourFinal : Pong.World :=
  let g := default Demo.tourRound3 (Pong.matchmake Demo.draws Demo.tourRound3) in
  let g := Pong.set_status in_progress (Pong.resetGame 0 0.7 0.75 g) in
  Pong.mkWorld (Pong.set_loop (Some 5%nat) g) {[ 5%nat := Pong.cb_startTournament ]} 6%nat
               [] ["t4m2"%string].

End Demo2.

(** A key-clash room created in local mode which two sockets join with
    [mode = "remote"] in their [join_game_room] event: [state.mode] is
    [local], the [mode] the handlers of the two sockets captured is
    [remote]. *)
Module Demo3.

Definition mixed0 : KeyClash.World :=
  KeyClash.mkWorld (KeyClash.new "m2x8" mode_local type_1v1) ∅ 0%nat ["m2x8"%string] [].

Definition mixed1 : KeyClash.World :=
  match KeyClash.on_names mode_remote type_1v1 "s1" None Demo2.ann Demo.kcEnv mixed0 with
  | Some (inr (w, _)) => w
  | _ => mixed0
  end.

Definition mixed2 : KeyClash.World :=
  match KeyClash.on_names mode_remote type_1v1 "s2" None Demo2.ben Demo.kcEnv mixed1 with
  | Some (inr (w, _)) => w
  | _ => mixed1
  end.

(** The closure of the first socket: its player object is the first of
    the heap, seated on the left. *)
Definition mixedClosure : KeyClash.Closure :=
  KeyClash.mkClosure mode_remote type_1v1 "s1" None 0%nat.

Definition mixedStarted : KeyClash.World :=
  KeyClash.on_setReady mixedClosure Demo.kcEnv mixed2.




End Demo3.

(* ================================================================== *)
(** * Properties                                                       *)
(* ================================================================== *)

(** ** Comparisons of numbers *)

Lemma Qltb_true (a b : Q) : Qltb a b = true <-> a < b.
Proof.
  unfold Qltb. rewrite negb_true_iff, <- not_true_iff_false, Qle_bool_iff.
  split; [apply Qnot_le_lt | apply Qlt_not_le].
Qed.

Lemma Qltb_false (a b : Q) : Qltb a b = false <-> b <= a.
Proof.
  unfold Qltb. rewrite negb_false_iff. apply Qle_bool_iff.
Qed.

Lemma Qleb_true (a b : Q) : Qleb a b = true <-> a <= b.
Proof. apply Qle_bool_iff. Qed.

Lemma Qleb_false (a b : Q) : Qleb a b = false <-> b < a.
Proof.
  unfold Qleb. rewrite <- not_true_iff_false, Qle_bool_iff.
  split; [apply Qnot_le_lt | apply Qlt_not_le].
Qed.

(** ** The ball stays on the table *)

Section BallBounds.
Import Pong.

Lemma bounceZ_x (b : Ball) : ball_x (bounceZ b) = ball_x b.
Proof. unfold bounceZ. destruct (_ || _); reflexivity. Qed.

Lemma bounceZ_z (b : Ball) : Qabs (ball_z (bounceZ b)) <= bounds_z.
Proof.
  unfold bounceZ.
  destruct (Qltb bounds_z (ball_z b)) eqn:Hhi; simpl.
  - vm_compute. discriminate.
  - destruct (Qltb (ball_z b) (- bounds_z)) eqn:Hlo; simpl.
    + vm_compute. discriminate.
    + apply Qltb_false in Hhi, Hlo. apply Qabs_Qle_condition. split; assumption.
Qed.

Lemma hitLeft_position (g : PingPongGame) :
  ball_x (ball (hitLeft g)) = ball_x (ball g) /\
  ball_z (ball (hitLeft g)) = ball_z (ball g).
Proof. unfold hitLeft. destruct (_ && _); split; reflexivity. Qed.

Lemma hitRight_position (g : PingPongGame) :
  ball_x (ball (hitRight g)) = ball_x (ball g) /\
  ball_z (ball (hitRight g)) = ball_z (ball g).
Proof. unfold hitRight. destruct (_ && _); split; reflexivity. Qed.

Lemma serve_inBounds (r1 r2 : Q) : inBounds (serve r1 r2).
Proof. split; vm_compute; discriminate. Qed.

Lemma scoreAndReset_inBounds (r1 r2 : Q) (g : PingPongGame) :
  Qabs (ball_z (ball g)) <= bounds_z -> inBounds (ball (scoreAndReset r1 r2 g)).
Proof.
  intros Hz. unfold scoreAndReset.
  destruct (pastLeft (ball g)) eqn:Hl; simpl.
  - repeat case_match; apply serve_inBounds.
  - destruct (pastRight (ball g)) eqn:Hr; simpl.
    + repeat case_match; apply serve_inBounds.
    + split; [|exact Hz].
      apply Qltb_false in Hl, Hr. apply Qabs_Qle_condition. split; assumption.
Qed.

Lemma play_inBounds (dt r1 r2 : Q) (g : PingPongGame) :
  inBounds (ball (play dt r1 r2 g)).
Proof.
  unfold play, strike. apply scoreAndReset_inBounds.
  destruct (hitRight_position (hitLeft (set_ball (bounceZ (moveBall dt (ball g))) g))) as [_ ->].
  destruct (hitLeft_position (set_ball (bounceZ (moveBall dt (ball g))) g)) as [_ ->].
  apply bounceZ_z.
Qed.

Lemma finishOnTime_ball (g g' : PingPongGame) :
  finishOnTime g = Some g' -> ball g' = ball g.
Proof.
  unfold finishOnTime. simpl. destruct (round g); [discriminate|].
  destruct (matches g !! n); simpl; [|discriminate].
  intros [= <-]. reflexivity.
Qed.

Lemma finishOnScore_ball (t : Z) (g g' : PingPongGame) :
  finishOnScore t g = Some g' -> ball g' = ball g.
Proof.
  unfold finishOnScore. destruct (round g); [discriminate|].
  destruct (matches g !! n); simpl; [|discriminate].
  match goal with |- context [mbind _ ?o] => destruct o end; simpl; [|discriminate].
  intros [= <-]. reflexivity.
Qed.

(** One [update] keeps the ball on the table. *)
Lemma update_inBounds (now r1 r2 : Q) (g g' : PingPongGame) :
  inBounds (ball g) -> update now r1 r2 g = Some g' -> inBounds (ball g').
Proof.
  intros Hb. unfold update.
  destruct (negb _); [intros [= <-]; exact Hb|].
  destruct (Qleb _ _).
  - intros H. rewrite (finishOnTime_ball _ _ H). exact Hb.
  - destruct (_ || _).
    + intros H. rewrite (finishOnScore_ball _ _ _ H). exact Hb.
    + intros [= <-]. apply play_inBounds.
Qed.

End BallBounds.

(** ** The handlers leave the ball where [update] and the serve put it *)

Section HandlersBall.
Import Pong.

Lemma seatMatch_ball (i : nat) (g g' : PingPongGame) :
  seatMatch i g = Some g' -> ball g' = ball g.
Proof.
  unfold seatMatch. intros H.
  repeat (simplify_option_eq || case_match). reflexivity.
Qed.

Lemma matchmake_ball (rand : nat -> Q) (g g' : PingPongGame) :
  matchmake rand g = Some g' -> ball g' = ball g.
Proof.
  unfold matchmake. intros H.
  repeat case_decide; simplify_option_eq;
    repeat case_match; simplify_eq;
    try (apply seatMatch_ball in H; exact H); reflexivity.
Qed.

Lemma nextRound_ball (e : Env) (g g' : PingPongGame) :
  nextRound e g = Some g' -> ball g' = ball g.
Proof.
  unfold nextRound. intros H. simplify_option_eq;
    match goal with H : matchmake _ _ = Some _ |- _ => apply matchmake_ball in H end;
    simpl in *; congruence.
Qed.

Lemma setPlayer_ball s n sock pid (g : PingPongGame) :
  ball (setPlayer s n sock pid g) = ball g.
Proof. destruct s as [[]|]; reflexivity. Qed.

Lemma resetGame_ball (now r1 r2 : Q) (g : PingPongGame) :
  ball (resetGame now r1 r2 g) = serve r1 r2.
Proof. reflexivity. Qed.

Lemma startGame1v1_inBounds (e : Env) (w : World) :
  inBounds (ball (game w)) -> inBounds (ball (game (startGame1v1 e w))).
Proof.
  intros Hb. unfold startGame1v1. simpl.
  repeat case_match; simpl; try exact Hb; apply serve_inBounds.
Qed.

Lemma startGameTournament_inBounds (e : Env) (w : World) :
  inBounds (ball (game w)) -> inBounds (ball (game (startGameTournament e w))).
Proof.
  intros Hb. unfold startGameTournament.
  case_match; simpl; try exact Hb; apply serve_inBounds.
Qed.

Lemma togglePause_ball (e : Env) (w : World) :
  ball (game (togglePause e w)) = ball (game w).
Proof.
  unfold togglePause, stopLoop, clearInterval.
  repeat case_match; reflexivity.
Qed.

Lemma clearInterval_game (t : option Timer) (w : World) :
  game (clearInterval t w) = game w.
Proof. destruct t; reflexivity. Qed.

Lemma stopLoop_game (w : World) : game (stopLoop w) = set_loop None (game w).
Proof. unfold stopLoop. simpl. rewrite clearInterval_game. reflexivity. Qed.

Lemma runCallback_inBounds (cb : Callback) (e : Env) (w w' : World) :
  inBounds (ball (game w)) -> runCallback cb e w = Some w' ->
  inBounds (ball (game w')).
Proof.
  intros Hb H.
  assert (Hu : forall g, update (now e) (rnd1 e) (rnd2 e) (game w) = Some g ->
                         inBounds (ball g))
    by (intros g; apply update_inBounds, Hb).
  destruct cb; simpl in H; unfold tick1v1, tickTournament, tickResumed in H;
    destruct (update _ _ _ _) as [g|] eqn:Hg; simpl in H; try discriminate;
    specialize (Hu g eq_refl);
    repeat case_decide; simplify_option_eq;
    rewrite ?stopLoop_game, ?clearInterval_game in *; simpl in *;
    repeat match goal with
           | H : nextRound _ _ = Some _ |- _ => apply nextRound_ball in H; simpl in H
           end;
    try congruence; try exact Hu.
Qed.

(** Every event keeps the ball on the table. *)
Lemma step_inBounds (w w' : World) :
  step w w' -> inBounds (ball (game w)) -> inBounds (ball (game w')).
Proof.
  intros Hs Hb. destruct Hs.
  - unfold on_names1v1 in H.
    repeat (case_match; simplify_eq); unfold put_game, with_game; cbn [game];
      rewrite ?setPlayer_ball; cbn [ball set_status resetGame set_gameEndTime set_last
        set_rightPaddle set_leftPaddle set_ball]; rewrite ?setPlayer_ball;
      try exact Hb; apply serve_inBounds.
  - unfold on_namesTournament in H.
    repeat (case_match; simplify_option_eq); simpl;
      try (match goal with H : matchmake _ _ = Some _ |- _ =>
             apply matchmake_ball in H; simpl in H; rewrite H end);
      rewrite ?setPlayer_ball; exact Hb.
  - unfold on_move. repeat case_match; exact Hb.
  - unfold on_pause. case_decide; [rewrite togglePause_ball|]; exact Hb.
  - unfold on_setReady1v1.
    repeat case_match; try exact Hb; apply startGame1v1_inBounds; exact Hb.
  - unfold on_setReadyTournament.
    repeat case_match; try exact Hb; apply startGameTournament_inBounds; exact Hb.
  - unfold on_restart. case_decide; [apply startGame1v1_inBounds; exact Hb|].
    apply serve_inBounds.
  - unfold on_disconnect, stopLoop, clearInterval.
    repeat case_match; simpl; exact Hb.
  - unfold fire in H. destruct (timers w !! h); [|congruence].
    eapply runCallback_inBounds; eassumption.
Qed.

Lemma new_inBounds (t0 : Q) (i : string) (m : Mode) (t : RoomType) :
  inBounds (ball (new t0 i m t)).
Proof. split; vm_compute; discriminate. Qed.

Lemma reachable_inBounds (w : World) : reachable w -> inBounds (ball (game w)).
Proof.
  induction 1 as [|w w' _ IH Hs].
  - apply new_inBounds.
  - exact (step_inBounds _ _ Hs IH).
Qed.

End HandlersBall.

(** ** C2 *)

(** C2.  From every reachable state of a Paddle room, a call of [update]
    that returns leaves the ball with [|x| <= 9.6] and [|z| <= 5.6]. *)
Theorem C2_ball_within_table (w : Pong.World) (now r1 r2 : Q)
    (g' : Pong.PingPongGame) :
  Pong.reachable w ->
  Pong.update now r1 r2 (Pong.game w) = Some g' ->
  Qabs (Pong.ball_x (Pong.ball g')) <= 9.6 /\
  Qabs (Pong.ball_z (Pong.ball g')) <= 5.6.
Proof.
  intros Hr Hu.
  exact (update_inBounds _ _ _ _ _ (reachable_inBounds _ Hr) Hu).
Qed.

Lemma demo_started_reachable : Pong.reachable Demo.started.
Proof.
  apply (Pong.reach_step Demo.seated Demo.started).
  - apply (Pong.reach_step Demo.room0 Demo.seated).
    + exact (Pong.reach_new 0 "k3x9" mode_local type_1v1 ["k3x9"%string] []).
    + apply (Pong.step_names1v1 "s1" None (Some side_left) Demo.aliceBob
               (Demo.env 500) Demo.room0 Demo.seated None).
      vm_compute. reflexivity.
  - exact (Pong.step_setReady1v1 None (Demo.env 1000) Demo.seated).
Defined.

Lemma C2_witness :
  Pong.reachable Demo.started /\
  exists g', Pong.update 1016 0.7 0.75 (Pong.game Demo.started) = Some g' /\
             Qabs (Pong.ball_x (Pong.ball g')) <= 9.6 /\
             Qabs (Pong.ball_z (Pong.ball g')) <= 5.6.
Proof.
  split; [exact demo_started_reachable|].
  eexists. split; [vm_compute; reflexivity|].
  apply (C2_ball_within_table Demo.started 1016 0.7 0.75).
  - exact demo_started_reachable.
  - vm_compute. reflexivity.
Defined.

(** ** C3 and C6: one tick of play *)

Section Play.
Import Pong.

Lemma strike_x (dt : Q) (g : PingPongGame) :
  ball_x (ball (strike dt g)) = ball_x (ball g) + ball_vx (ball g) * dt.
Proof.
  unfold strike.
  destruct (hitRight_position (hitLeft (set_ball (bounceZ (moveBall dt (ball g))) g))) as [-> _].
  destruct (hitLeft_position (set_ball (bounceZ (moveBall dt (ball g))) g)) as [-> _].
  simpl. apply bounceZ_x.
Qed.

Lemma strike_z (dt : Q) (g : PingPongGame) :
  ball_z (ball (strike dt g)) = ball_z (bounceZ (moveBall dt (ball g))).
Proof.
  unfold strike.
  destruct (hitRight_position (hitLeft (set_ball (bounceZ (moveBall dt (ball g))) g))) as [_ ->].
  destruct (hitLeft_position (set_ball (bounceZ (moveBall dt (ball g))) g)) as [_ ->].
  reflexivity.
Qed.

Lemma strike_scores (dt : Q) (g : PingPongGame) :
  leftScore (strike dt g) = leftScore g /\ rightScore (strike dt g) = rightScore g.
Proof.
  unfold strike, hitRight, hitLeft. repeat case_match; split; reflexivity.
Qed.

(** A tick with the match running, time left and no side at 3 points
    is a tick of [play]. *)
Lemma update_play (now r1 r2 : Q) (g : PingPongGame) :
  status g = in_progress -> now < gameEndTime g ->
  (leftScore g < 3)%Z -> (rightScore g < 3)%Z ->
  update now r1 r2 g = Some (play (dtOf now g) r1 r2 (set_last now g)).
Proof.
  intros Hs Ht Hl Hr. unfold update. rewrite Hs. simpl.
  apply Qleb_false in Ht. rewrite Ht.
  unfold maxScore.
  destruct (Z.leb_spec 3 (leftScore g)); [lia|].
  destruct (Z.leb_spec 3 (rightScore g)); [lia|]. reflexivity.
Qed.

Lemma serve_vz_range (r1 r2 : Q) :
  0 <= r2 -> r2 < 1 -> -2 <= ball_vz (serve r1 r2) <= 2.
Proof. intros H0 H1. simpl. split; lra. Qed.

(** The block [// Score and reset] on a state whose ball is past an
    x-bound. *)
Lemma scoreAndReset_crossing (r1 r2 : Q) (s : PingPongGame) :
  bounds_x < Qabs (ball_x (ball s)) ->
  let s' := scoreAndReset r1 r2 s in
  (hitter s = 0%nat -> leftScore s' = leftScore s /\ rightScore s' = rightScore s) /\
  (hitter s <> 0%nat -> bounds_x < ball_x (ball s) ->
     leftScore s' = (leftScore s + 1)%Z /\ rightScore s' = rightScore s) /\
  (hitter s <> 0%nat -> ball_x (ball s) < - bounds_x ->
     rightScore s' = (rightScore s + 1)%Z /\ leftScore s' = leftScore s) /\
  hitter s' = 0%nat /\ ball s' = serve r1 r2.
Proof.
  intros Hx s'. subst s'. unfold scoreAndReset, pastLeft, pastRight.
  destruct (Qltb (ball_x (ball s)) (- bounds_x)) eqn:Ha;
    [apply Qltb_true in Ha | apply Qltb_false in Ha];
    (destruct (Qltb bounds_x (ball_x (ball s))) eqn:Hb;
      [apply Qltb_true in Hb | apply Qltb_false in Hb]);
    unfold bounds_x in *; cbn [orb andb].
  - exfalso. lra.
  - destruct (Nat.eqb_spec (hitter s) 0) as [E|E]; cbn [negb];
      (repeat split; intros; try reflexivity; try assumption; try congruence;
       exfalso; lra).
  - destruct (Nat.eqb_spec (hitter s) 0) as [E|E]; cbn [negb];
      (repeat split; intros; try reflexivity; try assumption; try congruence;
       exfalso; lra).
  - exfalso. apply (Qlt_not_le _ _ Hx). apply Qabs_Qle_condition. split; assumption.
Qed.

End Play.

(** C3.  In a tick of play whose move takes the ball past an x-bound
    ([x1] below is the position after the move): with no touch since the
    last reset ([hitter] still 0 after this tick's paddle tests) no score
    changes; after a touch, past the right bound the left score, and past
    the left bound the right score, grows by exactly one and the other
    stays; either way the ball restarts at (0,0) with x-velocity 6 or -6
    by the first draw and z-velocity [(r2 - 0.5) * 4], which lies in
    [-2, 2] for a draw of [Math.random()]. *)
Theorem C3_score_on_x_crossing (now r1 r2 : Q) (g : Pong.PingPongGame) :
  Pong.status g = in_progress -> now < Pong.gameEndTime g ->
  (Pong.leftScore g < 3)%Z -> (Pong.rightScore g < 3)%Z ->
  0 <= r2 -> r2 < 1 ->
  let x1 := Pong.ball_x (Pong.ball g) + Pong.ball_vx (Pong.ball g) * Pong.dtOf now g in
  let touched := Pong.hitter (Pong.strike (Pong.dtOf now g) (Pong.set_last now g)) in
  9.6 < Qabs x1 ->
  exists g', Pong.update now r1 r2 g = Some g' /\
    (touched = 0%nat ->
       Pong.leftScore g' = Pong.leftScore g /\ Pong.rightScore g' = Pong.rightScore g) /\
    (touched <> 0%nat -> 9.6 < x1 ->
       Pong.leftScore g' = (Pong.leftScore g + 1)%Z /\
       Pong.rightScore g' = Pong.rightScore g) /\
    (touched <> 0%nat -> x1 < -9.6 ->
       Pong.rightScore g' = (Pong.rightScore g + 1)%Z /\
       Pong.leftScore g' = Pong.leftScore g) /\
    Pong.hitter g' = 0%nat /\
    Pong.ball_x (Pong.ball g') = 0 /\ Pong.ball_z (Pong.ball g') = 0 /\
    Pong.ball_vx (Pong.ball g') = (if Qltb 0.5 r1 then 6 else -6) /\
    Pong.ball_vz (Pong.ball g') = (r2 - 0.5) * 4 /\
    -2 <= Pong.ball_vz (Pong.ball g') <= 2.
Proof.
  intros Hs Ht Hl Hr H0 H1 x1 touched Hx.
  eexists. split; [apply update_play; assumption|].
  pose proof (strike_x (Pong.dtOf now g) (Pong.set_last now g)) as Ex.
  pose proof (strike_scores (Pong.dtOf now g) (Pong.set_last now g)) as [El Er].
  change (Pong.ball (Pong.set_last now g)) with (Pong.ball g) in Ex.
  change (Pong.leftScore (Pong.set_last now g)) with (Pong.leftScore g) in El.
  change (Pong.rightScore (Pong.set_last now g)) with (Pong.rightScore g) in Er.
  fold x1 in Ex.
  destruct (scoreAndReset_crossing r1 r2
              (Pong.strike (Pong.dtOf now g) (Pong.set_last now g)))
    as (N & R & L & Hh & Hb).
  { rewrite Ex. exact Hx. }
  fold touched in N, R, L. rewrite Ex, El, Er in *.
  unfold Pong.play. rewrite Hh, Hb.
  split; [exact N|]. split; [exact R|]. split; [exact L|].
  repeat split; try reflexivity.
  - simpl. destruct (Qltb 0.5 r1); reflexivity.
  - apply serve_vz_range; assumption.
  - apply serve_vz_range; assumption.
Qed.

Lemma C3_witness :
  exists g', Pong.update 1033 0.7 0.75 Demo.rally = Some g' /\
    Pong.leftScore g' = 1%Z /\ Pong.rightScore g' = 0%Z /\
    Pong.hitter g' = 0%nat /\
    Pong.ball_x (Pong.ball g') = 0 /\ Pong.ball_z (Pong.ball g') = 0 /\
    Pong.ball_vx (Pong.ball g') = 6 /\ Pong.ball_vz (Pong.ball g') = (0.75 - 0.5) * 4.
Proof.
  destruct (C3_score_on_x_crossing 1033 0.7 0.75 Demo.rally)
    as (g' & Hu & _ & R & _ & Hh & Hx & Hz & Hvx & Hvz & _).
  1-7: vm_compute; first [reflexivity | discriminate].
  exists g'.
  assert (Ht : Pong.hitter (Pong.strike (Pong.dtOf 1033 Demo.rally)
                              (Pong.set_last 1033 Demo.rally)) <> 0%nat)
    by (vm_compute; discriminate).
  assert (Hc : 9.6 < Pong.ball_x (Pong.ball Demo.rally)
                     + Pong.ball_vx (Pong.ball Demo.rally) * Pong.dtOf 1033 Demo.rally)
    by (vm_compute; reflexivity).
  destruct (R Ht Hc) as [Rl Rr].
  repeat split; assumption.
Defined.

(** ** C6 *)

(** C6 with the elapsed time itself as the factor fails: a tick 100 ms
    after the previous one moves the ball by 33 ms of travel, not by
    100 ms. *)
Lemma C6_counterexample :
  let g := Pong.game Demo.started in
  exists g', Pong.update 1100 0.7 0.75 g = Some g' /\
    Pong.status g' = in_progress /\
    ~ (Pong.ball_x (Pong.ball g')
       == Pong.ball_x (Pong.ball g)
          + Pong.ball_vx (Pong.ball g) * ((1100 - Pong.last g) / 1000)) /\
    ~ (Pong.ball_z (Pong.ball g')
       == Pong.ball_z (Pong.ball g)
          + Pong.ball_vz (Pong.ball g) * ((1100 - Pong.last g) / 1000)).
Proof.
  eexists. split; [vm_compute; reflexivity|].
  split; [reflexivity|]. split; vm_compute; discriminate.
Qed.

(** C6 (amended).  In a tick of play the ball is moved by velocity times
    [dt], where [dt] is the time since the previous tick in seconds capped
    at 0.033; then a position past a z-bound is set to that bound and the
    z-velocity changes sign ([b] below is the ball after that block); the
    paddle tests keep the position, and unless the move took the ball past
    an x-bound it is the position the tick returns. *)
Theorem C6_move_and_bounce (now r1 r2 : Q) (g : Pong.PingPongGame) :
  Pong.status g = in_progress -> now < Pong.gameEndTime g ->
  (Pong.leftScore g < 3)%Z -> (Pong.rightScore g < 3)%Z ->
  let dt := Qmin ((now - Pong.last g) / 1000) 0.033 in
  let x1 := Pong.ball_x (Pong.ball g) + Pong.ball_vx (Pong.ball g) * dt in
  let z1 := Pong.ball_z (Pong.ball g) + Pong.ball_vz (Pong.ball g) * dt in
  let b := Pong.bounceZ (Pong.moveBall dt (Pong.ball g)) in
  Pong.ball_x b = x1 /\
  (5.6 < z1 -> Pong.ball_z b = 5.6 /\ Pong.ball_vz b == - Pong.ball_vz (Pong.ball g)) /\
  (z1 < -5.6 -> Pong.ball_z b = -5.6 /\ Pong.ball_vz b == - Pong.ball_vz (Pong.ball g)) /\
  (-5.6 <= z1 <= 5.6 -> Pong.ball_z b = z1 /\ Pong.ball_vz b = Pong.ball_vz (Pong.ball g)) /\
  exists g', Pong.update now r1 r2 g = Some g' /\
    g' = Pong.scoreAndReset r1 r2
           (Pong.hitRight (Pong.hitLeft (Pong.set_ball b (Pong.set_last now g)))) /\
    (Qabs x1 <= 9.6 ->
       Pong.ball_x (Pong.ball g') = x1 /\ Pong.ball_z (Pong.ball g') = Pong.ball_z b).
Proof.
  intros Hs Ht Hl Hr dt x1 z1 b.
  assert (Hhi : 5.6 < z1 -> Qltb Pong.bounds_z (Pong.ball_z (Pong.moveBall dt (Pong.ball g))) = true)
    by (intros H; apply Qltb_true; exact H).
  assert (Hlo : z1 < -5.6 ->
                Qltb (Pong.ball_z (Pong.moveBall dt (Pong.ball g))) (- Pong.bounds_z) = true)
    by (intros H; apply Qltb_true; exact H).
  split; [apply bounceZ_x|].
  split; [|split; [|split]].
  - intros H. subst b. unfold Pong.bounceZ. rewrite (Hhi H). simpl.
    split; [reflexivity|]. ring.
  - intros H. subst b. unfold Pong.bounceZ. rewrite (Hlo H).
    assert (Hn : Qltb Pong.bounds_z (Pong.ball_z (Pong.moveBall dt (Pong.ball g))) = false).
    { apply Qltb_false. change (z1 <= 5.6). lra. }
    rewrite Hn. simpl. split; [reflexivity|]. ring.
  - intros [H1 H2]. subst b. unfold Pong.bounceZ.
    assert (Hn : Qltb Pong.bounds_z (Pong.ball_z (Pong.moveBall dt (Pong.ball g))) = false)
      by (apply Qltb_false; exact H2).
    assert (Hm : Qltb (Pong.ball_z (Pong.moveBall dt (Pong.ball g))) (- Pong.bounds_z) = false)
      by (apply Qltb_false; exact H1).
    rewrite Hn, Hm. split; reflexivity.
  - eexists. split; [apply update_play; assumption|].
    split; [reflexivity|].
    intros Hx.
    pose proof (strike_x (Pong.dtOf now g) (Pong.set_last now g)) as Ex.
    pose proof (strike_z (Pong.dtOf now g) (Pong.set_last now g)) as Ez.
    change (Pong.ball (Pong.set_last now g)) with (Pong.ball g) in Ex, Ez.
    change (Pong.dtOf now g) with dt in *. fold x1 in Ex. fold b in Ez.
    unfold Pong.play, Pong.scoreAndReset, Pong.pastLeft, Pong.pastRight.
    rewrite Ex.
    apply Qabs_Qle_condition in Hx. destruct Hx as [Hx1 Hx2].
    assert (Ha : Qltb x1 (- Pong.bounds_x) = false) by (apply Qltb_false; exact Hx1).
    assert (Hb : Qltb Pong.bounds_x x1 = false) by (apply Qltb_false; exact Hx2).
    rewrite Ha, Hb. cbn [orb]. split; assumption.
Qed.

Lemma C6_witness :
  let g := Pong.game Demo.started in
  exists g', Pong.update 1100 0.7 0.75 g = Some g' /\
    Pong.ball_x (Pong.ball g') = 0 + 6 * Qmin ((1100 - 1000) / 1000) 0.033.
Proof.
  destruct (C6_move_and_bounce 1100 0.7 0.75 (Pong.game Demo.started))
    as (_ & _ & _ & _ & g' & Hu & _ & Hp).
  1-4: vm_compute; first [reflexivity | discriminate].
  exists g'. split; [exact Hu|].
  apply Hp. vm_compute. discriminate.
Defined.

(** ** C10: keys of neither layout *)

Section Keypress.
Import KeyClash.

Lemma includes_false_iff (keys : list string) (key : string) :
  includes keys key = false <-> key ∉ keys.
Proof.
  unfold includes. induction keys as [|k keys IH]; simpl.
  - split; [intros _; apply not_elem_of_nil | reflexivity].
  - rewrite orb_false_iff, IH, not_elem_of_cons.
    destruct (String.eqb_spec key k); split; intros [? ?]; split;
      congruence || assumption.
Qed.

End Keypress.

(** The listener of a socket whose [join_game_room] event carried
    [mode = "local"], in a match that is in progress with time left: a key
    that is in neither [wasdKeys] nor [arrowKeys] leaves the whole room
    state, so both scores and both prompts, as it was; a key of
    [wasdKeys] other than the left prompt takes one point off [score1], a
    key of [arrowKeys] other than the right prompt one point off
    [score2], and neither changes a prompt or the other score.  The test
    is on the [mode] the closure captured, not on [state.mode]. *)
Lemma local_listener_foreign_key (c : KeyClash.Closure) (key : string) (r : Q)
    (s : KeyClash.state) :
  KeyClash.c_mode c = mode_local ->
  KeyClash.status s = in_progress -> (0 < KeyClash.timeLeft s)%Z ->
  let s' := KeyClash.on_keypress c key r s in
  (key ∉ KeyClash.wasdKeys -> key ∉ KeyClash.arrowKeys -> s' = s) /\
  (key ∈ KeyClash.wasdKeys -> key <> fst (KeyClash.prompts s) ->
     KeyClash.score1 s' = (KeyClash.score1 s - 1)%Z /\
     KeyClash.score2 s' = KeyClash.score2 s /\
     KeyClash.prompts s' = KeyClash.prompts s) /\
  (key ∈ KeyClash.arrowKeys -> key <> snd (KeyClash.prompts s) ->
     KeyClash.score2 s' = (KeyClash.score2 s - 1)%Z /\
     KeyClash.score1 s' = KeyClash.score1 s /\
     KeyClash.prompts s' = KeyClash.prompts s).
Proof.
  intros Hm Hs Ht s'. subst s'. unfold KeyClash.on_keypress.
  destruct (Z.leb_spec (KeyClash.timeLeft s) 0) as [?|_]; [lia|].
  rewrite Hs, Hm, (bool_decide_eq_true_2 _ eq_refl). cbn [negb orb].
  destruct (decide (mode_local = mode_remote)) as [?|_]; [discriminate|].
  split; [|split].
  - intros H1 H2. apply includes_false_iff in H1, H2. rewrite H1, H2. reflexivity.
  - intros H1 H2.
    destruct (KeyClash.includes KeyClash.wasdKeys key) eqn:E.
    + destruct (String.eqb_spec key (fst (KeyClash.prompts s))); [contradiction|].
      repeat split.
    + apply includes_false_iff in E. contradiction.
  - intros H1 H2.
    assert (E1 : KeyClash.includes KeyClash.wasdKeys key = false).
    { clear -H1. unfold KeyClash.arrowKeys in H1.
      repeat (apply elem_of_cons in H1 as [->|H1]; [reflexivity|]).
      apply elem_of_nil in H1. contradiction. }
    rewrite E1.
    destruct (KeyClash.includes KeyClash.arrowKeys key) eqn:E.
    + destruct (String.eqb_spec key (snd (KeyClash.prompts s))); [contradiction|].
      repeat split.
    + apply includes_false_iff in E. contradiction.
Qed.

(** The listener of a socket that joined with [mode = "remote"] and sits
    on the left never looks at the two layouts: every key that is neither
    the left prompt nor the arrow at the prompt's position takes one point
    off [score1], whatever [state.mode] is. *)
Lemma remote_listener_foreign_key (c : KeyClash.Closure) (key : string) (r : Q)
    (s : KeyClash.state) :
  KeyClash.c_mode c = mode_remote ->
  KeyClash.heap s !! KeyClash.c_player c ≫= side = Some side_left ->
  KeyClash.status s = in_progress -> (0 < KeyClash.timeLeft s)%Z ->
  fst (KeyClash.prompts s) ∈ KeyClash.wasdKeys ->
  key ∉ KeyClash.wasdKeys -> key ∉ KeyClash.arrowKeys ->
  KeyClash.on_keypress c key r s = KeyClash.set_score1 (KeyClash.score1 s - 1)%Z s.
Proof.
  intros Hm Hsd Hs Ht Hp H1 H2. unfold KeyClash.on_keypress.
  destruct (Z.leb_spec (KeyClash.timeLeft s) 0) as [?|_]; [lia|].
  rewrite Hs, Hm, Hsd, (bool_decide_eq_true_2 _ eq_refl). cbn [negb orb].
  destruct (decide (mode_remote = mode_remote)) as [_|?]; [|contradiction].
  destruct (decide (Some side_left = Some side_left)) as [_|?]; [|contradiction].
  assert (E1 : String.eqb key (fst (KeyClash.prompts s)) = false).
  { apply String.eqb_neq. intros ->. contradiction. }
  assert (E2 : KeyClash.twin KeyClash.wasdKeys KeyClash.arrowKeys
                 (fst (KeyClash.prompts s)) key = false).
  { unfold KeyClash.twin. apply bool_decide_eq_false_2. intros E. apply H2.
    unfold KeyClash.wasdKeys in Hp.
    repeat (apply elem_of_cons in Hp as [Hp|Hp];
            [rewrite Hp in E; vm_compute in E; injection E as <-;
             apply (bool_decide_unpack _); vm_compute; exact I|]).
    apply elem_of_nil in Hp. contradiction. }
  rewrite E1, E2. cbn [orb].
  destruct (decide (Some side_left = Some side_right)) as [?|_]; [discriminate|].
  reflexivity.
Qed.

Lemma demo_mixedStarted_reachable : KeyClash.reachable Demo3.mixedStarted.
Proof.
  apply (KeyClash.reach_step Demo3.mixed2 Demo3.mixedStarted).
  - apply (KeyClash.reach_step Demo3.mixed1 Demo3.mixed2).
    + apply (KeyClash.reach_step Demo3.mixed0 Demo3.mixed1).
      * exact (KeyClash.reach_new "m2x8" mode_local type_1v1 ["m2x8"%string] []).
      * apply (KeyClash.step_names mode_remote type_1v1 "s1" None Demo2.ann
                 Demo.kcEnv Demo3.mixed0 Demo3.mixed1 0%nat).
        vm_compute. reflexivity.
    + apply (KeyClash.step_names mode_remote type_1v1 "s2" None Demo2.ben
               Demo.kcEnv Demo3.mixed1 Demo3.mixed2 1%nat).
      vm_compute. reflexivity.
  - exact (KeyClash.step_setReady Demo3.mixedClosure Demo.kcEnv Demo3.mixed2).
Defined.

(** C10.  A local-mode Reaction match in which a key of neither layout
    costs a point.  The room was created in local mode and two sockets
    joined it with [mode = "remote"]; [setReady], which tests
    [state.mode], started the match at once.  The room's [state.mode] is
    [local], the match is in progress with 20 seconds left, and the key
    [x] is in neither [wasdKeys] nor [arrowKeys]; the [keypress] listener
    of the first socket tests the [mode] of its [join_game_room] event,
    runs the remote branch and takes one point off [score1].  A listener
    of a socket that joined with [mode = "local"] would leave the same
    room as it is. *)
Theorem C10_foreign_key_costs_a_point_in_a_local_room :
  let s := KeyClash.room Demo3.mixedStarted in
  KeyClash.reachable Demo3.mixedStarted /\
  KeyClash.mode s = mode_local /\
  KeyClash.status s = in_progress /\ KeyClash.timeLeft s = 20%Z /\
  ("x"%string ∉ KeyClash.wasdKeys) /\ ("x"%string ∉ KeyClash.arrowKeys) /\
  KeyClash.score1 s = 0%Z /\
  KeyClash.on_keypress Demo3.mixedClosure "x" 0.3 s = KeyClash.set_score1 (-1)%Z s /\
  KeyClash.on_keypress Demo.kcClosure "x" 0.3 s = s.
Proof.
  cbv zeta.
  assert (N1 : "x"%string ∉ KeyClash.wasdKeys).
  { intros H. unfold KeyClash.wasdKeys in H.
    repeat (apply elem_of_cons in H as [H|H]; [discriminate|]).
    apply elem_of_nil in H. exact H. }
  assert (N2 : "x"%string ∉ KeyClash.arrowKeys).
  { intros H. unfold KeyClash.arrowKeys in H.
    repeat (apply elem_of_cons in H as [H|H]; [discriminate|]).
    apply elem_of_nil in H. exact H. }
  split; [exact demo_mixedStarted_reachable|].
  split; [reflexivity|]. split; [reflexivity|]. split; [reflexivity|].
  split; [exact N1|]. split; [exact N2|]. split; [reflexivity|].
  split.
  - rewrite (remote_listener_foreign_key Demo3.mixedClosure "x" 0.3
               (KeyClash.room Demo3.mixedStarted)); try reflexivity;
      try assumption.
    apply (bool_decide_unpack _). vm_compute. exact I.
  - assert (Hs : KeyClash.status (KeyClash.room Demo3.mixedStarted) = in_progress)
      by (vm_compute; reflexivity).
    assert (Ht : (0 < KeyClash.timeLeft (KeyClash.room Demo3.mixedStarted))%Z)
      by (vm_compute; reflexivity).
    exact (proj1 (local_listener_foreign_key Demo.kcClosure "x" 0.3
                    (KeyClash.room Demo3.mixedStarted) eq_refl Hs Ht) N1 N2).
Qed.

(** ** C9: pause and resume *)

Section ReactionNeverPaused.
Import KeyClash.












End ReactionNeverPaused.

Section Pause.
Import Pong.




End Pause.





(** ** C8: a second start *)

Section StartTwice.
Import Pong.

Lemma findSide_frame (sd : Side) (g g' : PingPongGame) :
  heap g' = heap g -> players g' = players g -> findSide sd g' = findSide sd g.
Proof. unfold findSide. intros -> ->. reflexivity. Qed.

(** [startGame] changes nothing in a room that is in progress and
    either has its timer or lacks a seated side. *)
Lemma startGame1v1_noop (e : Env) (w : World) :
  status (game w) = in_progress ->
  is_Some (loop (game w)) \/ findSide side_left (game w) = None
  \/ findSide side_right (game w) = None ->
  startGame1v1 e w = w.
Proof.
  destruct w as [g tm nx rs ts]. destruct g. cbn [game status loop].
  intros -> H. unfold startGame1v1. cbn [game with_game loop set_status].
  destruct loop0 as [h|]; [reflexivity|].
  destruct H as [[? [=]]|[H|H]].
  - change (findSide side_left _) with (findSide side_left
      (mkGame ball0 leftPaddle0 rightPaddle0 in_progress None players0 matches0 mode0
              type0 round0 gameEndTime0 whenPaused0 player1ready0 player2ready0
              leftPlayer0 rightPlayer0 hitter0 leftScore0 rightScore0 last0 id0 heap0)).
    rewrite H. reflexivity.
  - change (findSide side_right _) with (findSide side_right
      (mkGame ball0 leftPaddle0 rightPaddle0 in_progress None players0 matches0 mode0
              type0 round0 gameEndTime0 whenPaused0 player1ready0 player2ready0
              leftPlayer0 rightPlayer0 hitter0 leftScore0 rightScore0 last0 id0 heap0)).
    rewrite H. destruct (findSide side_left _); reflexivity.
Qed.

Lemma startGame1v1_post (e : Env) (w : World) :
  status (game (startGame1v1 e w)) = in_progress /\
  (is_Some (loop (game (startGame1v1 e w)))
   \/ findSide side_left (game (startGame1v1 e w)) = None
   \/ findSide side_right (game (startGame1v1 e w)) = None).
Proof.
  unfold startGame1v1. cbn [game with_game].
  change (loop (set_status in_progress (game w))) with (loop (game w)).
  destruct (loop (game w)) as [h|] eqn:El.
  - split; [reflexivity|]. left. cbn [game with_game]. exists h. exact El.
  - destruct (findSide side_left (set_status in_progress (game w))) as [p1|] eqn:E1;
      [destruct (findSide side_right (set_status in_progress (game w))) as [p2|] eqn:E2|].
    + split; [reflexivity|]. left. eexists. reflexivity.
    + split; [reflexivity|]. right. right. exact E2.
    + split; [reflexivity|]. right. left. exact E1.
Qed.

Lemma startGame1v1_twice (e1 e2 : Env) (w : World) :
  startGame1v1 e2 (startGame1v1 e1 w) = startGame1v1 e1 w.
Proof.
  destruct (startGame1v1_post e1 w) as [Hs H].
  apply startGame1v1_noop; assumption.
Qed.

Lemma startGameTournament_noop (e : Env) (w : World) :
  is_Some (loop (game w)) -> startGameTournament e w = w.
Proof. intros [h Hl]. unfold startGameTournament. rewrite Hl. reflexivity. Qed.

Lemma startGameTournament_twice (e1 e2 : Env) (w : World) :
  startGameTournament e2 (startGameTournament e1 w) = startGameTournament e1 w.
Proof.
  apply startGameTournament_noop. unfold startGameTournament.
  destruct (loop (game w)) as [h|] eqn:El.
  - exists h. exact El.
  - eexists. reflexivity.
Qed.

Lemma keyclash_startGame_twice (c1 c2 : KeyClash.Closure) (e1 e2 : KeyClash.Env)
    (w : KeyClash.World) :
  KeyClash.startGame c2 e2 (KeyClash.startGame c1 e1 w) = KeyClash.startGame c1 e1 w.
Proof.
  unfold KeyClash.startGame at 2 3.
  destruct (decide (KeyClash.status (KeyClash.room w) = in_progress)) as [E|E].
  - unfold KeyClash.startGame. rewrite E.
    destruct (decide (in_progress = in_progress)); [reflexivity|contradiction].
  - unfold KeyClash.startGame.
    match goal with |- (if decide (?a = _) then _ else _) = _ =>
      assert (Ha : a = in_progress) by (simpl; case_decide; reflexivity);
      rewrite Ha end.
    destruct (decide (in_progress = in_progress)); [reflexivity|contradiction].
Qed.

End StartTwice.

(** C8.  A second start trigger right after the first changes nothing:
    [startGame] run twice gives the world [startGame] run once gives, in
    the 1v1 pong handler, the tournament pong handler and the key-clash
    handler; with the room in progress the [setReady] handlers return at
    their first test.  So a room that had no timer before the first
    trigger has exactly one active timer after the second. *)
Theorem C8_second_start_is_noop (e1 e2 : Pong.Env) (w : Pong.World)
    (ps : option Side) (pl : option Ref)
    (c1 c2 : KeyClash.Closure) (k1 k2 : KeyClash.Env) (kw : KeyClash.World) :
  (Pong.startGame1v1 e2 (Pong.startGame1v1 e1 w) = Pong.startGame1v1 e1 w /\
   Pong.startGameTournament e2 (Pong.startGameTournament e1 w)
     = Pong.startGameTournament e1 w /\
   KeyClash.startGame c2 k2 (KeyClash.startGame c1 k1 kw) = KeyClash.startGame c1 k1 kw) /\
  (Pong.status (Pong.game w) = in_progress ->
     Pong.on_setReady1v1 ps e2 w = w /\ Pong.on_setReadyTournament pl e2 w = w) /\
  (KeyClash.status (KeyClash.room kw) = in_progress ->
     KeyClash.on_setReady c2 k2 kw = kw) /\
  (Pong.timers w = ∅ -> Pong.loop (Pong.game w) = None ->
     is_Some (Pong.findSide side_left (Pong.game w)) ->
     is_Some (Pong.findSide side_right (Pong.game w)) ->
     size (Pong.timers (Pong.startGame1v1 e2 (Pong.startGame1v1 e1 w))) = 1%nat) /\
  (Pong.timers w = ∅ -> Pong.loop (Pong.game w) = None ->
     size (Pong.timers (Pong.startGameTournament e2 (Pong.startGameTournament e1 w)))
     = 1%nat) /\
  (KeyClash.timers kw = ∅ -> KeyClash.status (KeyClash.room kw) <> in_progress ->
     size (KeyClash.timers (KeyClash.startGame c2 k2 (KeyClash.startGame c1 k1 kw)))
     = 1%nat).
Proof.
  split; [split; [apply startGame1v1_twice|split;
            [apply startGameTournament_twice|apply keyclash_startGame_twice]]|].
  split.
  { intros Hs. unfold Pong.on_setReady1v1, Pong.on_setReadyTournament.
    rewrite Hs. split; reflexivity. }
  split.
  { intros Hs. unfold KeyClash.on_setReady. rewrite Hs. reflexivity. }
  split; [|split].
  - intros Ht Hl [p1 E1] [p2 E2]. rewrite startGame1v1_twice.
    unfold Pong.startGame1v1. cbn [Pong.game Pong.with_game].
    change (Pong.loop (Pong.set_status in_progress (Pong.game w))) with (Pong.loop (Pong.game w)).
    rewrite Hl.
    change (Pong.findSide side_left (Pong.set_status in_progress (Pong.game w)))
      with (Pong.findSide side_left (Pong.game w)).
    change (Pong.findSide side_right (Pong.set_status in_progress (Pong.game w)))
      with (Pong.findSide side_right (Pong.game w)).
    rewrite E1, E2. cbn [Pong.timers Pong.setInterval Pong.put_game Pong.with_game].
    rewrite Ht, insert_empty. apply map_size_singleton.
  - intros Ht Hl. rewrite startGameTournament_twice.
    unfold Pong.startGameTournament. rewrite Hl.
    cbn [Pong.timers Pong.setInterval Pong.put_game Pong.with_game].
    rewrite Ht, insert_empty. apply map_size_singleton.
  - intros Ht Hs. rewrite keyclash_startGame_twice.
    unfold KeyClash.startGame.
    destruct (decide (KeyClash.status (KeyClash.room kw) = in_progress)); [contradiction|].
    cbn [KeyClash.timers KeyClash.setInterval KeyClash.put_room KeyClash.with_room].
    rewrite Ht, (right_id_L ∅ (∪)). apply size_singleton.
Qed.

Lemma C8_witness :
  size (Pong.timers (Pong.startGame1v1 (Demo.env 1001)
                       (Pong.startGame1v1 (Demo.env 1000) Demo.seated))) = 1%nat /\
  size (KeyClash.timers (KeyClash.startGame Demo.kcClosure Demo.kcEnv
                           (KeyClash.startGame Demo.kcClosure Demo.kcEnv Demo.kcSeated)))
  = 1%nat /\
  Pong.on_setReady1v1 None (Demo.env 1001) Demo.started = Demo.started /\
  KeyClash.on_setReady Demo.kcClosure Demo.kcEnv Demo.kcStarted = Demo.kcStarted.
Proof.
  pose proof (C8_second_start_is_noop (Demo.env 1000) (Demo.env 1001) Demo.seated None None
                Demo.kcClosure Demo.kcClosure Demo.kcEnv Demo.kcEnv Demo.kcSeated)
    as (_ & _ & _ & H1 & _ & H2).
  pose proof (C8_second_start_is_noop (Demo.env 1000) (Demo.env 1001) Demo.started None None
                Demo.kcClosure Demo.kcClosure Demo.kcEnv Demo.kcEnv Demo.kcStarted)
    as (_ & H3 & H4 & _).
  split.
  { apply H1.
    - vm_compute. reflexivity.
    - vm_compute. reflexivity.
    - exists 0%nat. vm_compute. reflexivity.
    - exists 1%nat. vm_compute. reflexivity. }
  split.
  { apply H2.
    - vm_compute. reflexivity.
    - vm_compute. discriminate. }
  destruct H3 as [H3 _]; [vm_compute; reflexivity|].
  split; [exact H3|].
  refine (H4 _). vm_compute. reflexivity.
Defined.

(** ** C7: the bracket *)

Lemma swap_Permutation {A} (i j : nat) (l : list A) : swap i j l ≡ₚ l.
Proof.
  unfold swap.
  destruct (l !! i) as [a|] eqn:Ei; [|reflexivity].
  destruct (l !! j) as [b|] eqn:Ej; [|reflexivity].
  exact (Permutation_insert_swap l i j a b Ei Ej).
Qed.

Lemma shuffleLoop_Permutation {A} (rand : nat -> Q) (i k : nat) (l : list A) :
  shuffleLoop rand k i l ≡ₚ l.
Proof.
  revert k l. induction i as [|i IH]; intros k l; simpl; [reflexivity|].
  rewrite IH. apply swap_Permutation.
Qed.

(** [shufflePlayers] rearranges the array and nothing else. *)
Lemma shufflePlayers_Permutation {A} (rand : nat -> Q) (l : list A) :
  shufflePlayers rand l ≡ₚ l.
Proof. apply shuffleLoop_Permutation. Qed.

Lemma four_elements {A} (l : list A) :
  length l = 4%nat -> exists a b c d, l = [a; b; c; d].
Proof.
  destruct l as [|a [|b [|c [|d [|? ?]]]]]; try discriminate.
  intros _. exists a, b, c, d. reflexivity.
Qed.

Lemma nameOf_valid (h : Heap) (r : Ref) :
  (r < length h)%nat -> is_Some (nameOf h (Some r)).
Proof.
  intros Hr. apply lookup_lt_is_Some_2 in Hr as [p Hp].
  exists (name p). unfold nameOf. cbn [mbind option_bind].
  rewrite Hp. reflexivity.
Qed.

Lemma refsValid_elem (h : Heap) (rs : list Ref) (r : Ref) :
  refsValid h rs = true -> r ∈ rs -> (r < length h)%nat.
Proof.
  unfold refsValid. rewrite forallb_forall. intros H Hr.
  apply Nat.ltb_lt, H, list_elem_of_In, Hr.
Qed.

Section PongBracket.
Import Pong.

Lemma pong_seatMatch_frame (i : nat) (g g' : PingPongGame) :
  seatMatch i g = Some g' ->
  matches g' = matches g /\ players g' = players g /\ round g' = round g
  /\ status g' = status g.
Proof.
  unfold seatMatch. intros H.
  repeat (simplify_option_eq || case_match). repeat split.
Qed.

Lemma pong_seatMatch_total (i : nat) (g : PingPongGame) (m : Match) (a b : Ref) :
  matches g !! i = Some m -> player1 m = Some a -> player2 m = Some b ->
  (a < length (heap g))%nat -> (b < length (heap g))%nat ->
  is_Some (seatMatch i g).
Proof.
  intros Hm Ha Hb Va Vb. unfold seatMatch. rewrite Hm. simpl. rewrite Ha, Hb.
  destruct (nameOf_valid _ _ Va) as [n1 ->]. destruct (nameOf_valid _ _ Vb) as [n2 ->].
  simpl. eexists. reflexivity.
Qed.

Lemma pong_round1 (rand : nat -> Q) (g g' : PingPongGame) :
  round g = 1%nat -> matchmake rand g = Some g' ->
  players g' = shufflePlayers rand (players g) /\
  matches g' = matches g ++ [newMatch (players g' !! 0%nat) (players g' !! 1%nat);
                             newMatch (players g' !! 2%nat) (players g' !! 3%nat)].
Proof.
  intros Hr H. unfold matchmake in H. rewrite Hr in H. simpl in H.
  apply pong_seatMatch_frame in H as (Hm & Hp & _). simpl in Hm, Hp.
  rewrite Hp, Hm, <- app_assoc. split; reflexivity.
Qed.

Lemma pong_round1_total (rand : nat -> Q) (g : PingPongGame) :
  round g = 1%nat -> matches g = [] -> length (players g) = 4%nat ->
  refsValid (heap g) (players g) = true ->
  is_Some (matchmake rand g).
Proof.
  intros Hr Hm Hl Hv. unfold matchmake. rewrite Hr. simpl. rewrite Hm. simpl.
  pose proof (shufflePlayers_Permutation rand (players g)) as Hperm.
  destruct (four_elements (shufflePlayers rand (players g))) as (a & b & c & d & E).
  { rewrite Hperm. exact Hl. }
  rewrite E. simpl.
  eapply pong_seatMatch_total; simpl; try reflexivity;
    apply (refsValid_elem _ _ _ Hv); rewrite <- Hperm, E; set_solver.
Qed.

Lemma pong_round2 (rand : nat -> Q) (g g' : PingPongGame) :
  round g = 2%nat -> matchmake rand g = Some g' -> matches g' = matches g.
Proof.
  intros Hr H. unfold matchmake in H. rewrite Hr in H. simpl in H.
  apply pong_seatMatch_frame in H as (Hm & _). exact Hm.
Qed.

Lemma pong_round3 (rand : nat -> Q) (g g' : PingPongGame) :
  round g = 3%nat -> matchmake rand g = Some g' ->
  matches g' = matches g \/
  exists m0 m1, matches g !! 0%nat = Some m0 /\ matches g !! 1%nat = Some m1 /\
    is_Some (winner m0) /\ is_Some (winner m1) /\
    matches g' = matches g ++ [newMatch (winner m0) (winner m1)].
Proof.
  intros Hr H. unfold matchmake in H. rewrite Hr in H. simpl in H.
  destruct (matches g !! 0%nat) as [m0|] eqn:E0; simpl in H; [|discriminate].
  destruct (matches g !! 1%nat) as [m1|] eqn:E1; simpl in H; [|discriminate].
  destruct (bool_decide (is_Some (winner m0))) eqn:W0; simpl in H;
    [|simplify_eq; left; reflexivity].
  destruct (bool_decide (is_Some (winner m1))) eqn:W1; simpl in H;
    [|simplify_eq; left; reflexivity].
  apply bool_decide_eq_true_1 in W0, W1.
  apply pong_seatMatch_frame in H as (Hm & _). simpl in Hm.
  right. exists m0, m1. repeat split; assumption.
Qed.

Lemma pong_round3_total (rand : nat -> Q) (g : PingPongGame) (m0 m1 : Match) (a b : Ref) :
  round g = 3%nat -> matches g = [m0; m1] ->
  winner m0 = Some a -> winner m1 = Some b ->
  (a < length (heap g))%nat -> (b < length (heap g))%nat ->
  exists g', matchmake rand g = Some g' /\
             matches g' = [m0; m1; newMatch (Some a) (Some b)].
Proof.
  intros Hr Hm Ha Hb Va Vb.
  destruct (pong_seatMatch_total 2
              (set_matches (matches g ++ [newMatch (winner m0) (winner m1)]) g)
              (newMatch (Some a) (Some b)) a b) as [g' Hg']; try assumption;
    try reflexivity.
  { simpl. rewrite Hm, Ha, Hb. reflexivity. }
  exists g'. unfold matchmake. rewrite Hr, Hm. simpl. rewrite Ha, Hb.
  rewrite !bool_decide_eq_true_2 by (eexists; reflexivity). simpl.
  rewrite Hm, Ha, Hb in Hg'. simpl in Hg'. split; [exact Hg'|].
  apply pong_seatMatch_frame in Hg' as (E & _). exact E.
Qed.

Lemma pong_after_final (rand : nat -> Q) (g : PingPongGame) :
  (3 < round g)%nat -> matchmake rand g = Some g.
Proof.
  intros Hr. unfold matchmake.
  repeat (case_decide; [lia|]). reflexivity.
Qed.

End PongBracket.

Section KeyClashBracket.
Import KeyClash.

Lemma kc_seatMatch_frame (i : nat) (s s' : state) :
  seatMatch i s = Some s' ->
  matches s' = matches s /\ players s' = players s /\ round s' = round s.
Proof.
  unfold seatMatch. intros H.
  repeat (simplify_option_eq || case_match). repeat split.
Qed.

Lemma kc_seatMatch_total (i : nat) (s : state) (m : Match) (a b : Ref) :
  matches s !! i = Some m -> player1 m = Some a -> player2 m = Some b ->
  (a < length (heap s))%nat -> (b < length (heap s))%nat ->
  is_Some (seatMatch i s).
Proof.
  intros Hm Ha Hb Va Vb. unfold seatMatch. rewrite Hm. simpl. rewrite Ha, Hb.
  destruct (nameOf_valid _ _ Va) as [n1 ->]. destruct (nameOf_valid _ _ Vb) as [n2 ->].
  simpl. eexists. reflexivity.
Qed.

(** The tail of [matchmake] touches neither [matches] nor [players]. *)
Lemma kc_matchmake_pairUp (rand : nat -> Q) (s s' : state) :
  matchmake rand s = Some s' <->
  exists s1, pairUp rand s = Some s1 /\
    s' = (if decide (round s1 <= 3)%nat
          then set_timeLeft 20 (set_status starting s1) else s1).
Proof.
  unfold matchmake. destruct (pairUp rand s) as [s1|]; simpl; split.
  - intros [= <-]. exists s1. split; reflexivity.
  - intros (s2 & [= <-] & ->). reflexivity.
  - discriminate.
  - intros (s2 & [=] & _).
Qed.

Lemma kc_tail_frame (s1 : state) :
  let s' := if decide (round s1 <= 3)%nat
            then set_timeLeft 20 (set_status starting s1) else s1 in
  matches s' = matches s1 /\ players s' = players s1.
Proof. simpl. case_decide; split; reflexivity. Qed.

Lemma kc_pair_round1 (rand : nat -> Q) (s s' : state) :
  round s = 1%nat -> pairUp rand s = Some s' ->
  players s' = shufflePlayers rand (players s) /\
  matches s' = matches s ++ [newMatch (players s' !! 0%nat) (players s' !! 1%nat);
                             newMatch (players s' !! 2%nat) (players s' !! 3%nat)].
Proof.
  intros Hr H. unfold pairUp in H. rewrite Hr in H. simpl in H.
  apply kc_seatMatch_frame in H as (Hm & Hp & _). simpl in Hm, Hp.
  rewrite Hp, Hm, <- app_assoc. split; reflexivity.
Qed.

Lemma kc_pair_round1_total (rand : nat -> Q) (s : state) :
  round s = 1%nat -> matches s = [] -> length (players s) = 4%nat ->
  refsValid (heap s) (players s) = true ->
  is_Some (pairUp rand s).
Proof.
  intros Hr Hm Hl Hv. unfold pairUp. rewrite Hr. simpl. rewrite Hm. simpl.
  pose proof (shufflePlayers_Permutation rand (players s)) as Hperm.
  destruct (four_elements (shufflePlayers rand (players s))) as (a & b & c & d & E).
  { rewrite Hperm. exact Hl. }
  rewrite E. simpl.
  eapply kc_seatMatch_total; simpl; try reflexivity;
    apply (refsValid_elem _ _ _ Hv); rewrite <- Hperm, E; set_solver.
Qed.

Lemma kc_pair_round2 (rand : nat -> Q) (s s' : state) :
  round s = 2%nat -> pairUp rand s = Some s' -> matches s' = matches s.
Proof.
  intros Hr H. unfold pairUp in H. rewrite Hr in H. simpl in H.
  apply kc_seatMatch_frame in H as (Hm & _). exact Hm.
Qed.

Lemma kc_pair_round3 (rand : nat -> Q) (s s' : state) :
  round s = 3%nat -> pairUp rand s = Some s' ->
  matches s' = matches s \/
  exists m0 m1, matches s !! 0%nat = Some m0 /\ matches s !! 1%nat = Some m1 /\
    is_Some (winner m0) /\ is_Some (winner m1) /\
    matches s' = matches s ++ [newMatch (winner m0) (winner m1)].
Proof.
  intros Hr H. unfold pairUp in H. rewrite Hr in H. simpl in H.
  destruct (matches s !! 0%nat) as [m0|] eqn:E0; simpl in H; [|discriminate].
  destruct (matches s !! 1%nat) as [m1|] eqn:E1; simpl in H; [|discriminate].
  destruct (bool_decide (is_Some (winner m0))) eqn:W0; simpl in H;
    [|simplify_eq; left; reflexivity].
  destruct (bool_decide (is_Some (winner m1))) eqn:W1; simpl in H;
    [|simplify_eq; left; reflexivity].
  apply bool_decide_eq_true_1 in W0, W1.
  apply kc_seatMatch_frame in H as (Hm & _). simpl in Hm.
  right. exists m0, m1. repeat split; assumption.
Qed.

Lemma kc_pair_round3_total (rand : nat -> Q) (s : state) (m0 m1 : Match) (a b : Ref) :
  round s = 3%nat -> matches s = [m0; m1] ->
  winner m0 = Some a -> winner m1 = Some b ->
  (a < length (heap s))%nat -> (b < length (heap s))%nat ->
  exists s', pairUp rand s = Some s' /\
             matches s' = [m0; m1; newMatch (Some a) (Some b)].
Proof.
  intros Hr Hm Ha Hb Va Vb.
  destruct (kc_seatMatch_total 2
              (set_matches (matches s ++ [newMatch (winner m0) (winner m1)]) s)
              (newMatch (Some a) (Some b)) a b) as [s' Hs']; try assumption;
    try reflexivity.
  { simpl. rewrite Hm, Ha, Hb. reflexivity. }
  exists s'. unfold pairUp. rewrite Hr, Hm. simpl. rewrite Ha, Hb.
  rewrite !bool_decide_eq_true_2 by (eexists; reflexivity). simpl.
  rewrite Hm, Ha, Hb in Hs'. simpl in Hs'. split; [exact Hs'|].
  apply kc_seatMatch_frame in Hs' as (E & _). exact E.
Qed.

Lemma kc_after_final (rand : nat -> Q) (s : state) :
  (3 < round s)%nat -> matchmake rand s = Some s.
Proof.
  intros Hr. unfold matchmake, pairUp.
  repeat (case_decide; [lia|]). simpl. case_decide; [lia|reflexivity].
Qed.

End KeyClashBracket.

(** C7.  In both engines [matchmake] at round 1, on four seated
    participants and no match yet, shuffles the four and creates exactly
    the matches ([players[0]] vs [players[1]]) and ([players[2]] vs
    [players[3]]) of the shuffled array; at round 2 it creates no match;
    at round 3 it creates a match only if the winners of matches 0 and 1
    are both known, and then the match of exactly those two, which it does
    create when they are known; past round 3 it changes nothing. *)
Theorem C7_bracket (rand : nat -> Q) (g : Pong.PingPongGame) (s : KeyClash.state) :
  ((Pong.round g = 1%nat -> Pong.matches g = [] -> length (Pong.players g) = 4%nat ->
    refsValid (Pong.heap g) (Pong.players g) = true ->
    exists g' a b c d, Pong.matchmake rand g = Some g' /\
      Pong.players g' = shufflePlayers rand (Pong.players g) /\
      Pong.players g' ≡ₚ Pong.players g /\ Pong.players g' = [a; b; c; d] /\
      Pong.matches g' = [newMatch (Some a) (Some b); newMatch (Some c) (Some d)]) /\
   (Pong.round g = 2%nat -> forall g', Pong.matchmake rand g = Some g' ->
      Pong.matches g' = Pong.matches g) /\
   (Pong.round g = 3%nat -> forall g', Pong.matchmake rand g = Some g' ->
      Pong.matches g' = Pong.matches g \/
      exists m0 m1, Pong.matches g !! 0%nat = Some m0 /\ Pong.matches g !! 1%nat = Some m1 /\
        is_Some (winner m0) /\ is_Some (winner m1) /\
        Pong.matches g' = Pong.matches g ++ [newMatch (winner m0) (winner m1)]) /\
   (Pong.round g = 3%nat -> forall m0 m1 a b, Pong.matches g = [m0; m1] ->
      winner m0 = Some a -> winner m1 = Some b ->
      (a < length (Pong.heap g))%nat -> (b < length (Pong.heap g))%nat ->
      exists g', Pong.matchmake rand g = Some g' /\
                 Pong.matches g' = [m0; m1; newMatch (Some a) (Some b)]) /\
   ((3 < Pong.round g)%nat -> Pong.matchmake rand g = Some g)) /\
  ((KeyClash.round s = 1%nat -> KeyClash.matches s = [] ->
    length (KeyClash.players s) = 4%nat ->
    refsValid (KeyClash.heap s) (KeyClash.players s) = true ->
    exists s' a b c d, KeyClash.matchmake rand s = Some s' /\
      KeyClash.players s' = shufflePlayers rand (KeyClash.players s) /\
      KeyClash.players s' ≡ₚ KeyClash.players s /\ KeyClash.players s' = [a; b; c; d] /\
      KeyClash.matches s' = [newMatch (Some a) (Some b); newMatch (Some c) (Some d)]) /\
   (KeyClash.round s = 2%nat -> forall s', KeyClash.matchmake rand s = Some s' ->
      KeyClash.matches s' = KeyClash.matches s) /\
   (KeyClash.round s = 3%nat -> forall s', KeyClash.matchmake rand s = Some s' ->
      KeyClash.matches s' = KeyClash.matches s \/
      exists m0 m1, KeyClash.matches s !! 0%nat = Some m0 /\
        KeyClash.matches s !! 1%nat = Some m1 /\
        is_Some (winner m0) /\ is_Some (winner m1) /\
        KeyClash.matches s' = KeyClash.matches s ++ [newMatch (winner m0) (winner m1)]) /\
   (KeyClash.round s = 3%nat -> forall m0 m1 a b, KeyClash.matches s = [m0; m1] ->
      winner m0 = Some a -> winner m1 = Some b ->
      (a < length (KeyClash.heap s))%nat -> (b < length (KeyClash.heap s))%nat ->
      exists s', KeyClash.matchmake rand s = Some s' /\
                 KeyClash.matches s' = [m0; m1; newMatch (Some a) (Some b)]) /\
   ((3 < KeyClash.round s)%nat -> KeyClash.matchmake rand s = Some s)).
Proof.
  split.
  - split; [|split; [|split; [|split]]].
    + intros Hr Hm Hl Hv.
      destruct (pong_round1_total rand g Hr Hm Hl Hv) as [g' Hg'].
      destruct (pong_round1 rand g g' Hr Hg') as [Ep Em].
      destruct (four_elements (Pong.players g')) as (a & b & c & d & E).
      { rewrite Ep, shufflePlayers_Permutation. exact Hl. }
      exists g', a, b, c, d. split; [exact Hg'|]. split; [exact Ep|].
      split; [rewrite Ep; apply shufflePlayers_Permutation|]. split; [exact E|].
      rewrite Em, Hm, E. reflexivity.
    + intros Hr g'. apply pong_round2, Hr.
    + intros Hr g'. apply pong_round3, Hr.
    + intros Hr m0 m1 a b. apply pong_round3_total, Hr.
    + apply pong_after_final.
  - split; [|split; [|split; [|split]]].
    + intros Hr Hm Hl Hv.
      destruct (kc_pair_round1_total rand s Hr Hm Hl Hv) as [s1 Hs1].
      destruct (kc_pair_round1 rand s s1 Hr Hs1) as [Ep Em].
      destruct (kc_tail_frame s1) as [Tm Tp].
      destruct (four_elements (KeyClash.players s1)) as (a & b & c & d & E).
      { rewrite Ep, shufflePlayers_Permutation. exact Hl. }
      eexists _, a, b, c, d.
      split; [apply kc_matchmake_pairUp; exists s1; split; [exact Hs1|reflexivity]|].
      rewrite Tm, Tp. split; [exact Ep|].
      split; [rewrite Ep; apply shufflePlayers_Permutation|]. split; [exact E|].
      rewrite Em, Hm, E. reflexivity.
    + intros Hr s' H. apply kc_matchmake_pairUp in H as (s1 & H & ->).
      destruct (kc_tail_frame s1) as [-> _]. exact (kc_pair_round2 rand s s1 Hr H).
    + intros Hr s' H. apply kc_matchmake_pairUp in H as (s1 & H & ->).
      destruct (kc_tail_frame s1) as [-> _]. exact (kc_pair_round3 rand s s1 Hr H).
    + intros Hr m0 m1 a b Hm Ha Hb Va Vb.
      destruct (kc_pair_round3_total rand s m0 m1 a b Hr Hm Ha Hb Va Vb) as (s1 & H & E).
      destruct (kc_tail_frame s1) as [Tm _].
      eexists. split; [apply kc_matchmake_pairUp; exists s1; split; [exact H|reflexivity]|].
      rewrite Tm. exact E.
    + apply kc_after_final.
Qed.

Lemma C7_witness :
  (exists g' a b c d, Pong.matchmake Demo.draws Demo.tourSeated = Some g' /\
     Pong.players g' = [a; b; c; d] /\
     Pong.matches g' = [newMatch (Some a) (Some b); newMatch (Some c) (Some d)]) /\
  (exists s' a b c d, KeyClash.matchmake Demo.draws Demo.kcTourSeated = Some s' /\
     KeyClash.players s' = [a; b; c; d] /\
     KeyClash.matches s' = [newMatch (Some a) (Some b); newMatch (Some c) (Some d)]) /\
  (exists g' m0 m1, Pong.matchmake Demo.draws Demo.tourRound3 = Some g' /\
     Pong.matches g' = [m0; m1; newMatch (winner m0) (winner m1)]).
Proof.
  destruct (C7_bracket Demo.draws Demo.tourSeated Demo.kcTourSeated)
    as ((P1 & _) & (K1 & _)).
  destruct (C7_bracket Demo.draws Demo.tourRound3 Demo.kcTourSeated)
    as ((_ & _ & _ & P3 & _) & _).
  split; [|split].
  - destruct P1 as (g' & a & b & c & d & H & _ & _ & E & Em);
      [vm_compute; reflexivity ..|].
    exists g', a, b, c, d. repeat split; assumption.
  - destruct K1 as (s' & a & b & c & d & H & _ & _ & E & Em);
      [vm_compute; reflexivity ..|].
    exists s', a, b, c, d. repeat split; assumption.
  - destruct (P3 ltac:(vm_compute; reflexivity)
                 (mkMatch (Some 2%nat) (Some 1%nat) 0 0 (Some 1%nat) 0)
                 (mkMatch (Some 0%nat) (Some 3%nat) 0 0 (Some 3%nat) 0)
                 1%nat 3%nat) as (g' & H & Em);
      [vm_compute; first [reflexivity | lia] ..|].
    eexists g', _, _. split; [exact H|exact Em].
Defined.

(** ** C1: a round that ends level *)

(** The Paddle engine on the clock with the scores level: in a tournament
    seat B is recorded as winner; in a 1v1 room the [winner] field is not
    written, and [newMatch] created it as [null]. *)
Lemma paddle_level_on_time (g : Pong.PingPongGame) (i : nat) (m : Match) :
  Pong.round g = S i -> Pong.matches g !! i = Some m ->
  Pong.leftScore g = Pong.rightScore g ->
  exists g' m', Pong.finishOnTime g = Some g' /\
    Pong.status g' = finished /\ Pong.matches g' !! i = Some m' /\
    p1score m' = Pong.leftScore g /\ p2score m' = Pong.rightScore g /\
    player1 m' = player1 m /\ player2 m' = player2 m /\
    (Pong.type g = type_tournament -> winner m' = player2 m) /\
    (Pong.type g = type_1v1 -> winner m' = winner m).
Proof.
  intros Hr Hm Hs. unfold Pong.finishOnTime. simpl. rewrite Hr, Hm. simpl.
  rewrite Hs, Z.ltb_irrefl.
  eexists _, _. split; [reflexivity|]. split; [reflexivity|].
  split; [simpl; apply list_lookup_insert_eq, (lookup_lt_Some _ _ _ Hm)|].
  destruct (Pong.type g); simpl; repeat split; discriminate.
Qed.

(** With the match running, [update] at or past [gameEndTime] is that
    branch. *)
Lemma paddle_update_on_time (now r1 r2 : Q) (g : Pong.PingPongGame) :
  Pong.status g = in_progress -> Pong.gameEndTime g <= now ->
  Pong.update now r1 r2 g = Pong.finishOnTime g.
Proof.
  intros Hs Ht. unfold Pong.update. rewrite Hs. simpl.
  apply Qleb_true in Ht. rewrite Ht. reflexivity.
Qed.

(** The Reaction engine at the end of the countdown with the scores
    level: seat B is recorded as winner whatever the room type. *)
Lemma reaction_level_at_zero (e : KeyClash.Env) (w : KeyClash.World) (i : nat)
    (m : Match) (a b : Ref) :
  KeyClash.type (KeyClash.room w) = type_1v1 ->
  KeyClash.round (KeyClash.room w) = S i ->
  KeyClash.matches (KeyClash.room w) !! i = Some m ->
  player1 m = Some a -> player2 m = Some b ->
  (a < length (KeyClash.heap (KeyClash.room w)))%nat ->
  (b < length (KeyClash.heap (KeyClash.room w)))%nat ->
  KeyClash.score1 (KeyClash.room w) = KeyClash.score2 (KeyClash.room w) ->
  exists w' m', KeyClash.finish e w = Some w' /\
    KeyClash.status (KeyClash.room w') = finished /\
    KeyClash.matches (KeyClash.room w') !! i = Some m' /\
    p1score m' = p2score m' /\ winner m' = Some b.
Proof.
  intros Ht Hr Hm Ha Hb Va Vb Hs.
  assert (E : forall f, KeyClash.room (KeyClash.stopInterval w)
                        = f -> KeyClash.heap f = KeyClash.heap (KeyClash.room w) /\
                               KeyClash.round f = KeyClash.round (KeyClash.room w) /\
                               KeyClash.matches f = KeyClash.matches (KeyClash.room w) /\
                               KeyClash.type f = KeyClash.type (KeyClash.room w) /\
                               KeyClash.score1 f = KeyClash.score1 (KeyClash.room w) /\
                               KeyClash.score2 f = KeyClash.score2 (KeyClash.room w)).
  { intros f <-. unfold KeyClash.stopInterval.
    destruct (KeyClash.interval (KeyClash.room w)); repeat split. }
  destruct (E _ eq_refl) as (Eh & Er & Em & Et & E1 & E2).
  unfold KeyClash.finish. cbn [KeyClash.round KeyClash.set_status
    KeyClash.set_player1ready KeyClash.set_player2ready KeyClash.matches
    KeyClash.score1 KeyClash.score2 KeyClash.heap KeyClash.type KeyClash.set_matches].
  rewrite Er, Hr, Em, Hm, E1, E2, Eh, Et, Ht, Hs, Z.ltb_irrefl. cbn [mbind option_bind].
  unfold KeyClash.createGameResult_reads.
  cbn [player1 player2 set_result set_winner].
  rewrite Ha, Hb.
  destruct (nameOf_valid _ _ Va) as [n1 ->]. destruct (nameOf_valid _ _ Vb) as [n2 ->].
  cbn [mbind option_bind].
  destruct (decide (type_1v1 = type_tournament)); [discriminate|].
  eexists _, _. split; [reflexivity|]. split; [reflexivity|].
  split; [simpl; apply list_lookup_insert_eq, (lookup_lt_Some _ _ _ Hm)|].
  split; reflexivity.
Qed.

(** C1.  A local 1v1 Reaction match in which nobody presses a key ends
    0 : 0 after 20 ticks, and the match is recorded with seat B's
    participant as its winner. *)
Theorem C1_reaction_1v1_level_records_seat_B :
  exists w m,
    KeyClash.fires 20 0%nat Demo.kcEnv Demo.kcStarted = Some w /\
    KeyClash.status (KeyClash.room w) = finished /\
    KeyClash.type (KeyClash.room w) = type_1v1 /\
    KeyClash.matches (KeyClash.room w) = [m] /\
    p1score m = 0%Z /\ p2score m = 0%Z /\
    player2 m = Some 1%nat /\ winner m = Some 1%nat /\
    name <$> KeyClash.heap (KeyClash.room w) !! 1%nat = Some (Some "Bob"%string).
Proof.
  eexists _, _. split; [vm_compute; reflexivity|].
  repeat split.
Qed.

(** ** C4: who cancels the tick timer *)

Lemma kc_seatMatch_interval (i : nat) (s s' : KeyClash.state) :
  KeyClash.seatMatch i s = Some s' -> KeyClash.interval s' = KeyClash.interval s.
Proof.
  unfold KeyClash.seatMatch. intros H.
  repeat (simplify_option_eq || case_match). reflexivity.
Qed.

Lemma kc_matchmake_interval (rand : nat -> Q) (s s' : KeyClash.state) :
  KeyClash.matchmake rand s = Some s' -> KeyClash.interval s' = KeyClash.interval s.
Proof.
  intros H. apply kc_matchmake_pairUp in H as (s1 & H & ->).
  assert (KeyClash.interval s1 = KeyClash.interval s) as <-.
  { unfold KeyClash.pairUp in H.
    repeat case_decide; simplify_option_eq; repeat case_match; simplify_eq;
      try (apply kc_seatMatch_interval in H; exact H); reflexivity. }
  case_decide; reflexivity.
Qed.

(** The round ends: the Reaction callback cancels its own timer. *)
Lemma reaction_finish_cancels (e : KeyClash.Env) (w w' : KeyClash.World) (h : Timer) :
  KeyClash.interval (KeyClash.room w) = Some h ->
  KeyClash.finish e w = Some w' ->
  KeyClash.interval (KeyClash.room w') = None /\
  KeyClash.timers w' = KeyClash.timers w ∖ {[ h ]}.
Proof.
  intros Hi H.
  assert (E : KeyClash.stopInterval w
              = KeyClash.mkWorld (KeyClash.set_interval None (KeyClash.room w))
                  (KeyClash.timers w ∖ {[ h ]}) (KeyClash.nextTimer w)
                  (KeyClash.keyClashRooms w) (KeyClash.keyClashTournaments w))
    by (unfold KeyClash.stopInterval; rewrite Hi; reflexivity).
  unfold KeyClash.finish in H. rewrite E in H. clear E.
  cbn [KeyClash.room KeyClash.round KeyClash.set_status KeyClash.set_player1ready
       KeyClash.set_player2ready KeyClash.set_interval KeyClash.matches] in H.
  destruct (KeyClash.round (KeyClash.room w)); [discriminate|].
  destruct (KeyClash.matches (KeyClash.room w) !! n); simpl in H; [|discriminate].
  destruct (KeyClash.createGameResult_reads _ _); simpl in H; [|discriminate].
  case_decide.
  - destruct (KeyClash.matchmake _ _) as [s1|] eqn:E; simpl in H; [|discriminate].
    simplify_eq. simpl. split; [|reflexivity].
    apply kc_matchmake_interval in E. exact E.
  - simplify_eq. split; reflexivity.
Qed.

(** The round ends: each of the three Paddle callbacks cancels the
    room's timer. *)
Lemma paddle_finish_cancels (cb : Pong.Callback) (e : Pong.Env) (w w' : Pong.World)
    (g : Pong.PingPongGame) :
  Pong.update (Pong.now e) (Pong.rnd1 e) (Pong.rnd2 e) (Pong.game w) = Some g ->
  Pong.status g = finished ->
  Pong.runCallback cb e w = Some w' ->
  Pong.timers w' = Pong.timers (Pong.clearInterval (Pong.loop g) w).
Proof.
  intros Hu Hs H.
  destruct cb; simpl in H;
    unfold Pong.tick1v1, Pong.tickTournament, Pong.tickResumed in H;
    rewrite Hu in H; cbn [mbind option_bind] in H;
    destruct (decide (Pong.status g = finished)); try contradiction;
    repeat (case_decide || simplify_option_eq);
    unfold Pong.stopLoop, Pong.clearInterval; cbn;
    destruct (Pong.loop g); reflexivity.
Qed.

(** A 1v1 room that falls below two players: both [disconnect] handlers
    cancel the timer. *)
Lemma paddle_1v1_teardown_cancels (sock rid : string) (w : Pong.World) (h : Timer) :
  rid = Pong.id (Pong.game w) -> rid ∈ Pong.pongRooms w ->
  Pong.type (Pong.game w) = type_1v1 ->
  Pong.loop (Pong.game w) = Some h ->
  (length (spliceFirst
             (fun r => bool_decide (socketId <$> Pong.heap (Pong.game w) !! r
                                    = Some (Some sock)))
             (Pong.players (Pong.game w))) < 2)%nat ->
  let w' := Pong.on_disconnect sock (Some rid) w in
  Pong.loop (Pong.game w') = None /\ Pong.timers w' = delete h (Pong.timers w) /\
  Pong.status (Pong.game w') = waiting.
Proof.
  intros Hid Hin Ht Hl Hn w'. subst w'. unfold Pong.on_disconnect.
  rewrite (bool_decide_eq_true_2 _ Hid), (bool_decide_eq_true_2 _ Hin).
  cbn [negb orb]. cbv zeta. cbn [Pong.game Pong.with_game Pong.type Pong.set_players].
  rewrite Ht. destruct (decide (type_1v1 = type_tournament)); [discriminate|].
  cbn [Pong.players Pong.set_players].
  apply Nat.ltb_lt in Hn. rewrite Hn.
  unfold Pong.stopLoop, Pong.clearInterval.
  cbn [Pong.game Pong.with_game Pong.loop Pong.set_players]. rewrite Hl.
  repeat case_match; cbn; repeat split.
Qed.

(** A tournament room: the [disconnect] handlers of both namespaces leave
    the timer table and the room's timer handle as they were. *)
Lemma tournament_teardown_keeps_timers (sock : string) (rid : option string)
    (w : Pong.World) (kw : KeyClash.World) :
  (Pong.type (Pong.game w) = type_tournament ->
   Pong.timers (Pong.on_disconnect sock rid w) = Pong.timers w /\
   Pong.loop (Pong.game (Pong.on_disconnect sock rid w)) = Pong.loop (Pong.game w) /\
   Pong.status (Pong.game (Pong.on_disconnect sock rid w)) = Pong.status (Pong.game w)) /\
  (KeyClash.type (KeyClash.room kw) = type_tournament ->
   KeyClash.timers (KeyClash.on_disconnect sock rid kw) = KeyClash.timers kw /\
   KeyClash.interval (KeyClash.room (KeyClash.on_disconnect sock rid kw))
     = KeyClash.interval (KeyClash.room kw) /\
   KeyClash.status (KeyClash.room (KeyClash.on_disconnect sock rid kw))
     = KeyClash.status (KeyClash.room kw)).
Proof.
  split; intros Ht.
  - unfold Pong.on_disconnect. destruct rid as [rid|]; [|repeat split].
    destruct (_ || _); [repeat split|].
    cbv zeta. cbn [Pong.game Pong.with_game Pong.type Pong.set_players].
    rewrite Ht. destruct (decide (type_tournament = type_tournament)); [|contradiction].
    destruct (_ || _); repeat split.
  - unfold KeyClash.on_disconnect. destruct rid as [rid|]; [|repeat split].
    destruct (_ || _); [repeat split|].
    cbv zeta.
    match goal with |- context [KeyClash.put_room ?s0 kw] => remember s0 as s eqn:Es end.
    assert (Hs : KeyClash.type s = type_tournament /\
                 KeyClash.interval s = KeyClash.interval (KeyClash.room kw) /\
                 KeyClash.status s = KeyClash.status (KeyClash.room kw))
      by (subst s; repeat case_match; repeat split; exact Ht).
    destruct Hs as (Hs1 & Hs2 & Hs3). clear Es.
    rewrite Hs1. destruct (decide (type_tournament = type_tournament)); [|contradiction].
    destruct (_ || _); cbn; repeat split; assumption.
Qed.

(** The [restart] event of a remote 1v1 pong room puts a running match
    back to [starting] and does not touch the timer either. *)
Lemma remote_restart_keeps_timer (e : Pong.Env) (w : Pong.World) :
  Pong.mode (Pong.game w) = mode_remote ->
  Pong.status (Pong.game (Pong.on_restart e w)) = starting /\
  Pong.loop (Pong.game (Pong.on_restart e w)) = Pong.loop (Pong.game w) /\
  Pong.timers (Pong.on_restart e w) = Pong.timers w.
Proof.
  intros Hm. unfold Pong.on_restart. rewrite Hm.
  destruct (decide (mode_remote = mode_local)); [discriminate|].
  repeat split.
Qed.

(** C4.  A local tournament in progress whose connection drops, in either
    namespace: the [disconnect] handler takes the room off its registry
    and leaves the room's tick timer active, and the next firing of that
    timer runs the tick on the removed room (the key-clash countdown goes
    from 20 to 19, the pong ball moves). *)
Theorem C4_tournament_teardown_leaves_timer_running :
  (let w := KeyClash.on_disconnect "s1" (Some "t9c1"%string) Demo.kcTourStarted in
   KeyClash.status (KeyClash.room Demo.kcTourStarted) = in_progress /\
   KeyClash.keyClashTournaments Demo.kcTourStarted = ["t9c1"%string] /\
   KeyClash.keyClashTournaments w = [] /\
   KeyClash.interval (KeyClash.room w) = Some 0%nat /\
   0%nat ∈ KeyClash.timers w /\
   exists w', KeyClash.fire 0%nat Demo.kcTourEnv w = Some w' /\
              KeyClash.timeLeft (KeyClash.room w) = 20%Z /\
              KeyClash.timeLeft (KeyClash.room w') = 19%Z) /\
  (let w := Pong.on_disconnect "s1" (Some "t4m2"%string) Demo.tourStarted in
   Pong.status (Pong.game Demo.tourStarted) = in_progress /\
   Pong.pongTournaments Demo.tourStarted = ["t4m2"%string] /\
   Pong.pongTournaments w = [] /\
   Pong.loop (Pong.game w) = Some 0%nat /\
   Pong.timers w !! 0%nat = Some Pong.cb_startTournament /\
   exists w', Pong.fire 0%nat (Demo.tourEnv 1016) w = Some w' /\
              Pong.ball_x (Pong.ball (Pong.game w)) = 0 /\
              Pong.ball_x (Pong.ball (Pong.game w')) = 0.096).
Proof.
  split; cbv zeta.
  - do 4 (split; [vm_compute; reflexivity|]).
    split; [apply (bool_decide_unpack _); vm_compute; exact I|].
    eexists. split; [vm_compute; reflexivity|]. split; vm_compute; reflexivity.
  - do 5 (split; [vm_compute; reflexivity|]).
    eexists. split; [vm_compute; reflexivity|]. split; vm_compute; reflexivity.
Qed.

(** ** C5: names *)

(** The class [[A-Za-z0-9 _-]], character by character. *)
Lemma nameChar_spec (c : ascii) :
  nameChar c = true <->
  let n := nat_of_ascii c in
  (65 <= n <= 90 \/ 97 <= n <= 122 \/ 48 <= n <= 57 \/ n = 32 \/ n = 95 \/ n = 45)%nat.
Proof.
  unfold nameChar. cbv zeta.
  rewrite !orb_true_iff, !andb_true_iff, !Nat.leb_le, !Nat.eqb_eq. lia.
Qed.

(** A name passes the test of [validatePlayerNames] exactly if it is
    present, non-empty, at most 20 characters long and made of
    characters of the class. *)
Lemma badName_false (n : option string) :
  badName n = false <->
  exists s, n = Some s /\ s <> ""%string /\ (String.length s <= 20)%nat /\
            Forall (fun c => nameChar c = true) (list_ascii_of_string s).
Proof.
  unfold badName, validNameRegex. destruct n as [s|].
  - assert (Hf : forallb nameChar (list_ascii_of_string s) = true <->
                 Forall (fun c => nameChar c = true) (list_ascii_of_string s)).
    { rewrite forallb_forall, Forall_forall.
      split; intros H c Hc; apply H; apply list_elem_of_In; exact Hc. }
    destruct (String.eqb_spec s "") as [E|E]; cbn [orb negb andb].
    + split; [discriminate|]. intros (s' & [= <-] & Hne & _). contradiction.
    + rewrite orb_false_iff, negb_false_iff, Nat.ltb_ge, Hf.
      split.
      * intros [Hl Hc]. exists s. repeat split; assumption.
      * intros (s' & [= <-] & _ & Hl & Hc). split; assumption.
  - split; [discriminate|]. intros (s & [=] & _).
Qed.

(** What [validatePlayerNames] accepts: the names the mode and type call
    for are all well formed, and in a local submission each name differs
    from the one before it. *)
Lemma validatePlayerNames_accepts (names : Names) (type : RoomType) (mode : Mode) :
  validatePlayerNames names type mode = 0%nat <->
  badName (n_player1 names) = false /\
  (mode = mode_local ->
     badName (n_player2 names) = false /\ n_player2 names <> n_player1 names /\
     (type = type_tournament ->
        badName (n_player3 names) = false /\ n_player3 names <> n_player2 names /\
        badName (n_player4 names) = false /\ n_player4 names <> n_player3 names)).
Proof.
  unfold validatePlayerNames.
  destruct (badName (n_player1 names)), (badName (n_player2 names)),
    (badName (n_player3 names)), (badName (n_player4 names)),
    (bool_decide_reflect (n_player2 names = n_player1 names)),
    (bool_decide_reflect (n_player3 names = n_player2 names)),
    (bool_decide_reflect (n_player4 names = n_player3 names)),
    mode, type; repeat case_decide; cbn [orb];
    intuition (discriminate || congruence).
Qed.

(** The key-clash [names] handler: a refused name is answered with
    [Invalid name]; otherwise a first name that one of the first three
    seated players bears is answered with [already taken]. *)
Lemma keyclash_names_rejections (mode : Mode) (type : RoomType) (sock : string)
    (pid : option nat) (names : Names) (e : KeyClash.Env) (w : KeyClash.World) :
  let s := KeyClash.room w in
  let answer := KeyClash.on_names mode type sock pid names e w in
  ((0 < validatePlayerNames names type mode)%nat ->
     answer = Some (inl (InvalidName (validatePlayerNames names type mode)))) /\
  (validatePlayerNames names type mode = 0%nat ->
   (exists i, (i < 3)%nat /\
      name <$> (KeyClash.players s !! i ≫= fun r => KeyClash.heap s !! r)
      = Some (n_player1 names)) ->
   answer = Some (inl (NameTaken (n_player1 names)))).
Proof.
  cbv zeta. unfold KeyClash.on_names. split.
  - intros H. apply Nat.ltb_lt in H. rewrite H. reflexivity.
  - intros H (i & Hi & Hn). rewrite H. cbn [Nat.ltb Nat.leb].
    assert (seatedAt (KeyClash.heap (KeyClash.room w))
                     (KeyClash.players (KeyClash.room w)) i (n_player1 names) = true)
      by (apply bool_decide_eq_true_2; exact Hn).
    destruct i as [|[|[|i]]]; [| | |lia];
      rewrite H0, ?orb_true_r; reflexivity.
Qed.

(** C5.  A local tournament submission Ann, Ben, Ann, Ben passes
    [validatePlayerNames], and the [names] handlers of both namespaces
    accept it: the room ends up with two players named Ann and two named
    Ben. *)
Theorem C5_repeated_name_in_local_submission_is_accepted :
  validatePlayerNames Demo.twins type_tournament mode_local = 0%nat /\
  (exists w pl,
     KeyClash.on_names mode_local type_tournament "s1" None Demo.twins
                       Demo.kcTourEnv Demo.kcTour0 = Some (inr (w, pl)) /\
     (fun r => KeyClash.heap (KeyClash.room w) !! r ≫= name)
       <$> KeyClash.players (KeyClash.room w)
     = [Some "Ann"; Some "Ben"; Some "Ann"; Some "Ben"]%string) /\
  (exists w pl,
     Pong.on_namesTournament "s1" None Demo.twins (Demo.tourEnv 500) Demo.tour0
     = Some (inr (w, pl)) /\
     (fun r => Pong.heap (Pong.game w) !! r ≫= name) <$> Pong.players (Pong.game w)
     = [Some "Ann"; Some "Ben"; Some "Ann"; Some "Ben"]%string).
Proof.
  split; [reflexivity|].
  split; eexists _, _; (split; [vm_compute; reflexivity|]); vm_compute; reflexivity.
Qed.

(* ================================================================== *)
(** * Further properties of the code                                   *)
(* ================================================================== *)

(** ** Random draws *)

(** X1.  [shufflePlayers] only rearranges: whatever the draws, the result
    is a permutation of the array, of the same length and with the same
    elements. *)
Theorem X1_shuffle_rearranges {A} (rand : nat -> Q) (l : list A) :
  shufflePlayers rand l ≡ₚ l /\
  length (shufflePlayers rand l) = length l /\
  (forall x, x ∈ shufflePlayers rand l <-> x ∈ l).
Proof.
  pose proof (shufflePlayers_Permutation rand l) as H.
  split; [exact H|]. split; [rewrite H; reflexivity|].
  intros x. rewrite H. reflexivity.
Qed.

Lemma randomIndex_bucket (r : Q) (n k : nat) :
  0 <= r ->
  randomIndex r n = k <->
  inject_Z (Z.of_nat k) <= r * inject_Z (Z.of_nat n) < inject_Z (Z.of_nat k) + 1.
Proof.
  intros Hr. unfold randomIndex.
  set (x := r * inject_Z (Z.of_nat n)).
  assert (Hx : 0 <= x).
  { unfold x. apply Qmult_le_0_compat; [exact Hr|].
    change 0 with (inject_Z 0). rewrite <- Zle_Qle. lia. }
  assert (Hf : (0 <= Qfloor x)%Z).
  { change 0%Z with (Qfloor 0). apply Qfloor_resp_le, Hx. }
  pose proof (Qfloor_le x) as Hlo. pose proof (Qlt_floor x) as Hhi.
  rewrite inject_Z_plus in Hhi. change (inject_Z 1) with 1 in Hhi.
  split.
  - intros <-. rewrite Z2Nat.id by exact Hf. split; assumption.
  - intros [H1 H2].
    assert (E : Qfloor x = Z.of_nat k).
    { apply Z.le_antisymm.
      - apply Z.lt_succ_r. rewrite Zlt_Qlt. unfold Z.succ.
        rewrite inject_Z_plus. change (inject_Z 1) with 1.
        eapply Qle_lt_trans; [exact Hlo|exact H2].
      - change (Z.of_nat k) with (Z.of_nat k). rewrite <- (Qfloor_Z (Z.of_nat k)).
        apply Qfloor_resp_le, H1. }
    rewrite E. apply Nat2Z.id.
Qed.

(** X2.  [getRandomKey] on a non-empty list and a draw of
    [Math.random()] returns a key of the list, and it returns the key at
    index [k] exactly for the draws of the [k]-th of the [n] equal parts
    of [0, 1), here stated as [k <= r * n < k + 1]. *)
Theorem X2_getRandomKey_in_list (r : Q) (keys : list string) (k : nat) (key : string) :
  0 <= r -> r < 1 -> keys <> [] ->
  KeyClash.getRandomKey r keys ∈ keys /\
  (keys !! k = Some key ->
   inject_Z (Z.of_nat k) <= r * inject_Z (Z.of_nat (length keys))
                         < inject_Z (Z.of_nat k) + 1 ->
   KeyClash.getRandomKey r keys = key).
Proof.
  intros H0 H1 Hne. unfold KeyClash.getRandomKey.
  assert (Hlt : (randomIndex r (length keys) < length keys)%nat).
  { destruct (randomIndex_bucket r (length keys) (randomIndex r (length keys)) H0)
      as [Hb _].
    destruct (Hb eq_refl) as [Hlo _].
    apply Nat2Z.inj_lt. rewrite Zlt_Qlt.
    eapply Qle_lt_trans; [exact Hlo|].
    assert (Hn : 0 < inject_Z (Z.of_nat (length keys))).
    { change 0 with (inject_Z 0). rewrite <- Zlt_Qlt.
      destruct keys; [contradiction|simpl; lia]. }
    rewrite <- (Qmult_1_l (inject_Z (Z.of_nat (length keys)))) at 2.
    apply Qmult_lt_r; assumption. }
  split.
  - apply list_elem_of_In, nth_In, Hlt.
  - intros Hk Hb. apply randomIndex_bucket in Hb; [|exact H0]. rewrite Hb.
    apply nth_lookup_Some with (d := ""%string) in Hk.
    rewrite <- Hk. clear. revert k.
    induction keys as [|a keys IH]; intros [|k]; simpl; auto.
Qed.

Lemma X2_witness :
  KeyClash.getRandomKey 0.6 KeyClash.arrowKeys ∈ KeyClash.arrowKeys /\
  KeyClash.getRandomKey 0.6 KeyClash.arrowKeys = "ArrowLeft"%string.
Proof.
  destruct (X2_getRandomKey_in_list 0.6 KeyClash.arrowKeys 2 "ArrowLeft")
    as [Hin Heq].
  - vm_compute. discriminate.
  - vm_compute. reflexivity.
  - discriminate.
  - split; [exact Hin|]. apply Heq; [reflexivity|].
    split; vm_compute; first [reflexivity | discriminate].
Defined.

(** ** The Reaction engine: keys *)

(** X3.  The [keypress] handler changes nothing when the match is not in
    progress or the clock is at zero or below, and in remote mode it
    changes nothing for a participant whose [side] is [null] (in a
    tournament, the two who do not play the current match). *)
Theorem X3_keypress_ignored (c : KeyClash.Closure) (key : string) (r : Q)
    (s : KeyClash.state) :
  ((KeyClash.timeLeft s <= 0)%Z \/ KeyClash.status s <> in_progress ->
   KeyClash.on_keypress c key r s = s) /\
  (KeyClash.c_mode c = mode_remote ->
   KeyClash.heap s !! KeyClash.c_player c ≫= side = None ->
   KeyClash.on_keypress c key r s = s).
Proof.
  split.
  - intros H. unfold KeyClash.on_keypress.
    destruct (Z.leb_spec (KeyClash.timeLeft s) 0) as [?|Ht]; [reflexivity|].
    destruct H as [H|H]; [lia|].
    rewrite (bool_decide_eq_false_2 _ H). reflexivity.
  - intros Hm Hs. unfold KeyClash.on_keypress.
    destruct (_ || _); [reflexivity|].
    rewrite Hm. destruct (decide (mode_remote = mode_remote)); [|contradiction].
    rewrite Hs.
    destruct (decide (None = Some side_left)); [discriminate|].
    destruct (decide (None = Some side_right)); [discriminate|]. reflexivity.
Qed.

Lemma X3_witness :
  KeyClash.on_keypress Demo.kcTourClosure "w" 0.3
    (KeyClash.set_status finished (KeyClash.room Demo.kcTourStarted))
  = KeyClash.set_status finished (KeyClash.room Demo.kcTourStarted) /\
  KeyClash.on_keypress (KeyClash.mkClosure mode_remote type_tournament "s1" None 0%nat)
    "w" 0.3 (KeyClash.room Demo.kcTourStarted)
  = KeyClash.room Demo.kcTourStarted.
Proof.
  split.
  - refine (proj1 (X3_keypress_ignored Demo.kcTourClosure "w" 0.3
              (KeyClash.set_status finished (KeyClash.room Demo.kcTourStarted))) _).
    right. discriminate.
  - refine (proj2 (X3_keypress_ignored
              (KeyClash.mkClosure mode_remote type_tournament "s1" None 0%nat) "w" 0.3
              (KeyClash.room Demo.kcTourStarted)) _ _).
    + reflexivity.
    + vm_compute. reflexivity.
Defined.

Lemma indexOf_lookup (keys : list string) (prompt : string) (i : nat) :
  NoDup keys ->
  KeyClash.indexOf keys prompt = Some i <-> keys !! i = Some prompt.
Proof.
  intros Hnd. revert i. induction keys as [|k keys IH]; intros i; simpl.
  - split; [discriminate|]. rewrite lookup_nil. discriminate.
  - apply NoDup_cons in Hnd as [Hk Hnd].
    destruct (String.eqb_spec k prompt) as [->|Hne].
    + split.
      * intros [= <-]. reflexivity.
      * destruct i as [|i]; [reflexivity|]. simpl. intros Hi.
        exfalso. apply Hk. apply list_elem_of_lookup. exists i. exact Hi.
    + destruct i as [|i]; simpl.
      * destruct (KeyClash.indexOf keys prompt); simpl;
          split; try discriminate; intros [=]; contradiction.
      * rewrite <- (IH Hnd i).
        destruct (KeyClash.indexOf keys prompt); simpl;
          split; intros [=]; subst; reflexivity.
Qed.

(** [twin] holds exactly for the key at the prompt's position in the
    other layout. *)
Lemma twin_spec (keys other : list string) (prompt key : string) :
  NoDup keys ->
  KeyClash.twin keys other prompt key = true <->
  exists i, keys !! i = Some prompt /\ other !! i = Some key.
Proof.
  intros Hnd. unfold KeyClash.twin. rewrite bool_decide_eq_true.
  destruct (KeyClash.indexOf keys prompt) as [i|] eqn:E; simpl.
  - apply (indexOf_lookup _ _ _ Hnd) in E. split.
    + intros H. exists i. split; assumption.
    + intros (j & Hj & Hk).
      assert (j = i) as ->; [|exact Hk].
      apply (indexOf_lookup _ _ _ Hnd) in Hj, E. congruence.
  - split; [discriminate|]. intros (j & Hj & _).
    apply (indexOf_lookup _ _ _ Hnd) in Hj. congruence.
Qed.


Lemma wasdKeys_NoDup : NoDup KeyClash.wasdKeys.
Proof.
  unfold KeyClash.wasdKeys.
  repeat (apply NoDup_cons_2;
          [rewrite ?elem_of_cons, elem_of_nil; intuition discriminate|]).
  apply NoDup_nil_2.
Qed.

Lemma arrowKeys_NoDup : NoDup KeyClash.arrowKeys.
Proof.
  unfold KeyClash.arrowKeys.
  repeat (apply NoDup_cons_2;
          [rewrite ?elem_of_cons, elem_of_nil; intuition discriminate|]).
  apply NoDup_nil_2.
Qed.

(** X4.  In remote mode, with the match in progress and time left, a
    keypress of the left seat leaves [score2] and the right prompt alone:
    it adds one to [score1] and draws a new left prompt if the key is the
    left prompt or the arrow key at the prompt's position in the layout,
    and takes one off [score1] otherwise.  The right seat mirrors this
    with its own prompt and the letter at the prompt's position. *)
Theorem X4_remote_keypress_own_column (c : KeyClash.Closure) (key : string) (r : Q)
    (s : KeyClash.state) (sd : Side) :
  KeyClash.c_mode c = mode_remote ->
  KeyClash.status s = in_progress -> (0 < KeyClash.timeLeft s)%Z ->
  KeyClash.heap s !! KeyClash.c_player c ≫= side = Some sd ->
  let s' := KeyClash.on_keypress c key r s in
  let p := KeyClash.prompts s in
  match sd with
  | side_left =>
      KeyClash.score2 s' = KeyClash.score2 s /\ snd (KeyClash.prompts s') = snd p /\
      (key = fst p \/ (exists i, KeyClash.wasdKeys !! i = Some (fst p) /\
                                 KeyClash.arrowKeys !! i = Some key) ->
       KeyClash.score1 s' = (KeyClash.score1 s + 1)%Z /\
       fst (KeyClash.prompts s') = KeyClash.getRandomKey r KeyClash.wasdKeys) /\
      (key <> fst p -> (forall i, KeyClash.wasdKeys !! i = Some (fst p) ->
                                  KeyClash.arrowKeys !! i <> Some key) ->
       KeyClash.score1 s' = (KeyClash.score1 s - 1)%Z /\ KeyClash.prompts s' = p)
  | side_right =>
      KeyClash.score1 s' = KeyClash.score1 s /\ fst (KeyClash.prompts s') = fst p /\
      (key = snd p \/ (exists i, KeyClash.arrowKeys !! i = Some (snd p) /\
                                 KeyClash.wasdKeys !! i = Some key) ->
       KeyClash.score2 s' = (KeyClash.score2 s + 1)%Z /\
       snd (KeyClash.prompts s') = KeyClash.getRandomKey r KeyClash.arrowKeys) /\
      (key <> snd p -> (forall i, KeyClash.arrowKeys !! i = Some (snd p) ->
                                  KeyClash.wasdKeys !! i <> Some key) ->
       KeyClash.score2 s' = (KeyClash.score2 s - 1)%Z /\ KeyClash.prompts s' = p)
  end.
Proof.
  intros Hm Hs Ht Hsd s' p. subst s' p. unfold KeyClash.on_keypress.
  destruct (Z.leb_spec (KeyClash.timeLeft s) 0) as [?|_]; [lia|].
  rewrite Hs, (bool_decide_eq_true_2 _ eq_refl), Hm. cbn [negb orb].
  destruct (decide (mode_remote = mode_remote)); [|contradiction].
  rewrite Hsd.
  pose proof (fun keys other prompt => twin_spec keys other prompt key) as Htw.
  pose proof wasdKeys_NoDup as Nw. pose proof arrowKeys_NoDup as Na.
  destruct sd.
  - destruct (decide (Some side_left = Some side_left)); [|contradiction].
    destruct (decide (Some side_left = Some side_right)); [discriminate|].
    destruct (String.eqb_spec key (fst (KeyClash.prompts s))) as [E|E]; cbn [orb].
    + repeat split; intros; try reflexivity; contradiction.
    + destruct (KeyClash.twin KeyClash.wasdKeys KeyClash.arrowKeys
                  (fst (KeyClash.prompts s)) key) eqn:T.
      * apply Htw in T; [|exact Nw]. destruct T as (i & Hi & Hk).
        repeat split; intros; try reflexivity;
          exfalso; match goal with H : forall i, _ -> _ <> _ |- _ =>
                     eapply H; eassumption end.
      * repeat split; intros; try reflexivity;
          match goal with H : _ \/ _ |- _ =>
            destruct H as [?|Hex]; [contradiction|];
            apply Htw in Hex; [congruence|exact Nw] end.
  - destruct (decide (Some side_right = Some side_left)); [discriminate|].
    destruct (decide (Some side_right = Some side_right)); [|contradiction].
    destruct (String.eqb_spec key (snd (KeyClash.prompts s))) as [E|E]; cbn [orb].
    + repeat split; intros; try reflexivity; contradiction.
    + destruct (KeyClash.twin KeyClash.arrowKeys KeyClash.wasdKeys
                  (snd (KeyClash.prompts s)) key) eqn:T.
      * apply Htw in T; [|exact Na]. destruct T as (i & Hi & Hk).
        repeat split; intros; try reflexivity;
          exfalso; match goal with H : forall i, _ -> _ <> _ |- _ =>
                     eapply H; eassumption end.
      * repeat split; intros; try reflexivity;
          match goal with H : _ \/ _ |- _ =>
            destruct H as [?|Hex]; [contradiction|];
            apply Htw in Hex; [congruence|exact Na] end.
Qed.

Lemma X4_witness :
  let c := KeyClash.mkClosure mode_remote type_tournament "s3" None 2%nat in
  let s' := KeyClash.on_keypress c "ArrowUp" 0.3 (KeyClash.room Demo.kcTourStarted) in
  KeyClash.prompts (KeyClash.room Demo.kcTourStarted) = ("w", "ArrowLeft")%string /\
  KeyClash.score1 s' = 1%Z /\ KeyClash.score2 s' = 0%Z /\
  KeyClash.prompts s' = ("s", "ArrowLeft")%string.
Proof.
  intros c s'.
  pose proof (X4_remote_keypress_own_column c "ArrowUp" 0.3
                (KeyClash.room Demo.kcTourStarted) side_left) as H.
  destruct H as (H2 & Hp & Hok & _).
  - reflexivity.
  - reflexivity.
  - reflexivity.
  - vm_compute. reflexivity.
  - destruct Hok as [H1 Hp1].
    + right. exists 0%nat. split; vm_compute; reflexivity.
    + split; [vm_compute; reflexivity|]. split; [exact H1|]. split; [exact H2|].
      fold s' in Hp, Hp1. destruct (KeyClash.prompts s') as [a b].
      simpl in Hp, Hp1. rewrite Hp, Hp1. vm_compute. reflexivity.
Defined.

(** ** The Reaction engine: the round clock *)

Lemma kc_tick_running (e : KeyClash.Env) (w : KeyClash.World) :
  (1 < KeyClash.timeLeft (KeyClash.room w))%Z ->
  KeyClash.tick e w
  = Some (KeyClash.with_room
            (fun s => KeyClash.set_timeLeft (KeyClash.timeLeft s - 1)%Z s) w).
Proof.
  intros Ht. unfold KeyClash.tick. cbn [KeyClash.room KeyClash.with_room KeyClash.timeLeft
    KeyClash.set_timeLeft].
  destruct (Z.leb_spec (KeyClash.timeLeft (KeyClash.room w) - 1) 0); [lia|]. reflexivity.
Qed.

(** X5.  With [t] seconds on the clock and the timer [h] active, any
    [k < t] firings of [h] only take [k] off the clock: the status, the
    scores, the prompts, the matches and the timer stay as they are. *)
Theorem X5_countdown_runs (e : KeyClash.Env) (h : Timer) (k : nat) (w : KeyClash.World) :
  h ∈ KeyClash.timers w ->
  (Z.of_nat k < KeyClash.timeLeft (KeyClash.room w))%Z ->
  KeyClash.fires k h e w
  = Some (KeyClash.with_room
            (fun s => KeyClash.set_timeLeft (KeyClash.timeLeft s - Z.of_nat k)%Z s) w).
Proof.
  revert w. induction k as [|k IH]; intros w Hh Ht.
  - cbn [KeyClash.fires]. f_equal. destruct w as [s tm nx rs ts]. destruct s.
    unfold KeyClash.with_room, KeyClash.set_timeLeft. cbn -[Z.sub].
    rewrite Z.sub_0_r. reflexivity.
  - cbn [KeyClash.fires]. unfold KeyClash.fire.
    destruct (decide (h ∈ KeyClash.timers w)); [|contradiction].
    rewrite kc_tick_running by lia. cbn [mbind option_bind].
    rewrite IH.
    + f_equal. destruct w as [s tm nx rs ts]. destruct s.
      unfold KeyClash.with_room, KeyClash.set_timeLeft. cbn -[Z.sub Z.of_nat].
      f_equal. f_equal. lia.
    + exact Hh.
    + unfold KeyClash.with_room, KeyClash.set_timeLeft. cbn -[Z.sub Z.of_nat]. lia.
Qed.

Lemma X5_witness :
  KeyClash.fires 19 0%nat Demo.kcEnv Demo.kcStarted
  = Some (KeyClash.with_room
            (fun s => KeyClash.set_timeLeft (KeyClash.timeLeft s - 19)%Z s) Demo.kcStarted).
Proof.
  apply (X5_countdown_runs Demo.kcEnv 0%nat 19 Demo.kcStarted).
  - apply (bool_decide_unpack _). vm_compute. exact I.
  - vm_compute. reflexivity.
Defined.

(** X6.  The tick that takes the clock of a 1v1 round to zero ends the
    round: the timer is cancelled, the status is [finished], both ready
    flags are reset, and the round's match records the two scores, the
    duration 20 and as winner seat A if [score1 > score2] and seat B
    otherwise; the room's round counter and player list stay. *)
Theorem X6_round_ends_at_zero (e : KeyClash.Env) (w : KeyClash.World) (h : Timer)
    (i : nat) (m : Match) (a b : Ref) :
  KeyClash.timeLeft (KeyClash.room w) = 1%Z ->
  KeyClash.interval (KeyClash.room w) = Some h ->
  h ∈ KeyClash.timers w ->
  KeyClash.type (KeyClash.room w) = type_1v1 ->
  KeyClash.round (KeyClash.room w) = S i ->
  KeyClash.matches (KeyClash.room w) !! i = Some m ->
  player1 m = Some a -> player2 m = Some b ->
  (a < length (KeyClash.heap (KeyClash.room w)))%nat ->
  (b < length (KeyClash.heap (KeyClash.room w)))%nat ->
  exists w', KeyClash.fire h e w = Some w' /\
    KeyClash.status (KeyClash.room w') = finished /\
    KeyClash.timeLeft (KeyClash.room w') = 0%Z /\
    KeyClash.interval (KeyClash.room w') = None /\
    KeyClash.timers w' = KeyClash.timers w ∖ {[ h ]} /\
    KeyClash.player1ready (KeyClash.room w') = false /\
    KeyClash.player2ready (KeyClash.room w') = false /\
    KeyClash.round (KeyClash.room w') = S i /\
    KeyClash.players (KeyClash.room w') = KeyClash.players (KeyClash.room w) /\
    KeyClash.matches (KeyClash.room w')
    = <[i := mkMatch (Some a) (Some b) (KeyClash.score1 (KeyClash.room w))
                     (KeyClash.score2 (KeyClash.room w))
                     (if (KeyClash.score2 (KeyClash.room w)
                          <? KeyClash.score1 (KeyClash.room w))%Z
                      then Some a else Some b) 20]>
        (KeyClash.matches (KeyClash.room w)).
Proof.
  intros Ht Hi Hh Hty Hr Hm Ha Hb Va Vb.
  destruct w as [s tm nx rs ts]. destruct s. destruct m as [q1 q2 s1 s2 wn d].
  cbn [KeyClash.room KeyClash.timers KeyClash.timeLeft KeyClash.interval KeyClash.type
       KeyClash.round KeyClash.matches KeyClash.heap KeyClash.score1 KeyClash.score2
       KeyClash.players player1 player2] in *.
  subst.
  destruct (nameOf_valid _ _ Va) as [n1 N1]. destruct (nameOf_valid _ _ Vb) as [n2 N2].
  unfold KeyClash.fire. cbn [KeyClash.timers].
  destruct (decide (h ∈ tm)); [|contradiction].
  unfold KeyClash.tick, KeyClash.finish, KeyClash.stopInterval, KeyClash.with_room,
    KeyClash.put_room, KeyClash.createGameResult_reads.
  cbn -[nameOf]. rewrite Hm. cbn -[nameOf].
  destruct (score2 <? score1)%Z; cbn -[nameOf]; rewrite N1, N2; cbn -[nameOf];
    (destruct (decide (type_1v1 = type_tournament)); [discriminate|]);
    (eexists; split; [reflexivity|]); cbn; repeat split.
Qed.

Lemma X6_witness :
  let w1 := KeyClash.with_room
              (fun s => KeyClash.set_timeLeft (KeyClash.timeLeft s - 19)%Z s)
              Demo.kcStarted in
  exists w', KeyClash.fire 0%nat Demo.kcEnv w1 = Some w' /\
    KeyClash.status (KeyClash.room w') = finished /\
    KeyClash.timers w' = KeyClash.timers w1 ∖ {[ 0%nat ]}.
Proof.
  intros w1. subst w1.
  destruct (X6_round_ends_at_zero Demo.kcEnv
              (KeyClash.with_room
                 (fun s => KeyClash.set_timeLeft (KeyClash.timeLeft s - 19)%Z s)
                 Demo.kcStarted)
              0%nat 0%nat (newMatch (Some 0%nat) (Some 1%nat)) 0%nat 1%nat)
    as (w' & Hf & Hs & _ & _ & Htm & _).
  - vm_compute. reflexivity.
  - vm_compute. reflexivity.
  - apply (bool_decide_unpack _). vm_compute. exact I.
  - vm_compute. reflexivity.
  - vm_compute. reflexivity.
  - vm_compute. reflexivity.
  - reflexivity.
  - reflexivity.
  - vm_compute. lia.
  - vm_compute. lia.
  - exists w'. repeat split; assumption.
Defined.

(** ** The Paddle engine: how a round ends *)

(** X7.  A tick at or past [gameEndTime] ends the round without moving
    the ball: the status is [finished] and the round's match records the
    two scores, the duration 120 and the winner, seat A with the higher
    left score, seat B with the higher right score; on level scores the
    [winner] field keeps its value in a 1v1 room and is seat B in a
    tournament.  When the round has no match ([round] is 0 or
    [matches[round - 1]] is [undefined]) the tick throws. *)
Theorem X7_paddle_round_ends_on_time (now r1 r2 : Q) (g : Pong.PingPongGame) :
  Pong.status g = in_progress -> Pong.gameEndTime g <= now ->
  (forall i m, Pong.round g = S i -> Pong.matches g !! i = Some m ->
     exists g', Pong.update now r1 r2 g = Some g' /\
       Pong.status g' = finished /\ Pong.ball g' = Pong.ball g /\
       Pong.leftScore g' = Pong.leftScore g /\ Pong.rightScore g' = Pong.rightScore g /\
       Pong.loop g' = Pong.loop g /\
       Pong.matches g'
       = <[i := mkMatch (player1 m) (player2 m) (Pong.leftScore g) (Pong.rightScore g)
                 (if (Pong.rightScore g <? Pong.leftScore g)%Z then player1 m
                  else if (Pong.leftScore g <? Pong.rightScore g)%Z then player2 m
                  else if decide (Pong.type g = type_1v1) then winner m
                  else player2 m) 120]> (Pong.matches g)) /\
  ((Pong.round g = 0%nat \/ Pong.matches g !! (Pong.round g - 1)%nat = None) ->
   Pong.update now r1 r2 g = None).
Proof.
  intros Hs Ht. rewrite (paddle_update_on_time now r1 r2 g Hs Ht).
  unfold Pong.finishOnTime. cbn [Pong.round Pong.set_status Pong.matches Pong.leftScore
    Pong.rightScore Pong.type].
  split.
  - intros i m Hr Hm. rewrite Hr, Hm. cbn [mbind option_bind].
    eexists. split; [reflexivity|]. cbn. repeat split.
    destruct m as [q1 q2 s1 s2 wn d].
    destruct (_ <? _)%Z; [reflexivity|].
    destruct (_ <? _)%Z; [reflexivity|].
    destruct (decide _); reflexivity.
  - intros [H0|Hn].
    + rewrite H0. reflexivity.
    + destruct (Pong.round g) as [|i]; [reflexivity|].
      cbn [Nat.sub] in Hn. rewrite Nat.sub_0_r in Hn. rewrite Hn. reflexivity.
Qed.

Lemma X7_witness :
  exists g', Pong.update 121000 0.7 0.75 (Pong.game Demo.started) = Some g' /\
    Pong.status g' = finished /\
    Pong.matches g' = [mkMatch (Some 0%nat) (Some 1%nat) 0 0 None 120].
Proof.
  destruct (X7_paddle_round_ends_on_time 121000 0.7 0.75 (Pong.game Demo.started))
    as [H _].
  - reflexivity.
  - vm_compute. discriminate.
  - destruct (H 0%nat (newMatch (Some 0%nat) (Some 1%nat)))
      as (g' & Hu & Hs & _ & _ & _ & _ & Hm).
    + reflexivity.
    + reflexivity.
    + exists g'. split; [exact Hu|]. split; [exact Hs|].
      rewrite Hm. vm_compute. reflexivity.
Defined.

(** X8.  A tick before [gameEndTime] that finds a side at 3 points or
    more ends the round without moving the ball: the match records the
    scores, as winner seat A if the left score is the higher one and seat
    B otherwise, and as duration 120 minus the whole seconds left on the
    clock, which is at most 120. *)
Theorem X8_paddle_round_ends_on_score (now r1 r2 : Q) (g : Pong.PingPongGame)
    (i : nat) (m : Match) (a b : Ref) :
  Pong.status g = in_progress -> now < Pong.gameEndTime g ->
  (3 <= Pong.leftScore g \/ 3 <= Pong.rightScore g)%Z ->
  Pong.round g = S i -> Pong.matches g !! i = Some m ->
  player1 m = Some a -> player2 m = Some b ->
  (a < length (Pong.heap g))%nat -> (b < length (Pong.heap g))%nat ->
  Pong.type g = type_1v1 \/ (Pong.round g <= 3)%nat ->
  let secondsLeft := Z.max 0 (Qfloor ((Pong.gameEndTime g - now) / 1000)) in
  exists g', Pong.update now r1 r2 g = Some g' /\
    Pong.status g' = finished /\ Pong.ball g' = Pong.ball g /\
    Pong.last g' = now /\
    Pong.matches g'
    = <[i := mkMatch (Some a) (Some b) (Pong.leftScore g) (Pong.rightScore g)
              (if (Pong.rightScore g <? Pong.leftScore g)%Z then Some a else Some b)
              (120 - secondsLeft)]> (Pong.matches g) /\
    (120 - secondsLeft <= 120)%Z.
Proof.
  intros Hs Ht Hsc Hr Hm Ha Hb Va Vb Hty secondsLeft.
  unfold Pong.update. rewrite Hs. cbn [negb bool_decide decide_rel].
  rewrite (bool_decide_eq_true_2 _ eq_refl). cbn [negb].
  apply Qleb_false in Ht. rewrite Ht.
  cbn [Pong.leftScore Pong.rightScore Pong.set_last].
  assert (Hg : ((Pong.maxScore <=? Pong.leftScore g)%Z
                || (Pong.maxScore <=? Pong.rightScore g)%Z) = true).
  { unfold Pong.maxScore. apply orb_true_iff.
    destruct Hsc; [left|right]; apply Z.leb_le; assumption. }
  rewrite Hg. fold secondsLeft.
  destruct g. destruct m as [q1 q2 s1 s2 wn d].
  cbn [Pong.round Pong.matches Pong.heap Pong.type Pong.leftScore Pong.rightScore
       Pong.ball Pong.last player1 player2] in *.
  subst.
  destruct (nameOf_valid _ _ Va) as [n1 N1]. destruct (nameOf_valid _ _ Vb) as [n2 N2].
  assert (Hlen : (i < length matches)%nat) by (eapply lookup_lt_Some; exact Hm).
  unfold Pong.finishOnScore, defined. cbn -[nameOf Z.sub]. rewrite Hm. cbn -[nameOf Z.sub].
  destruct (rightScore <? leftScore)%Z; cbn -[nameOf Z.sub]; rewrite ?N1, ?N2;
    (destruct Hty as [->|Hle];
     [ destruct (decide (type_1v1 = type_1v1)); [|contradiction]
     | destruct type;
       [ destruct (decide (type_1v1 = type_1v1)); [|contradiction]
       | destruct (decide (type_tournament = type_1v1)); [discriminate|];
         destruct (decide (S i < 3)%nat) ]]);
    cbn -[nameOf Z.sub]; rewrite ?N1, ?N2; cbn -[nameOf Z.sub];
    try (assert (i = 2%nat) as -> by lia;
         rewrite list_lookup_insert_eq by exact Hlen; cbn -[nameOf Z.sub]);
    (eexists; split; [reflexivity|]); cbn -[Z.sub]; repeat split;
    unfold secondsLeft; lia.
Qed.

Lemma X8_witness :
  exists g', Pong.update 1500 0.7 0.75 (Pong.set_leftScore 3 (Pong.game Demo.started))
             = Some g' /\
    Pong.status g' = finished /\
    Pong.matches g' = [mkMatch (Some 0%nat) (Some 1%nat) 3 0 (Some 0%nat) 1].
Proof.
  destruct (X8_paddle_round_ends_on_score 1500 0.7 0.75
              (Pong.set_leftScore 3 (Pong.game Demo.started))
              0%nat (newMatch (Some 0%nat) (Some 1%nat)) 0%nat 1%nat)
    as (g' & Hu & Hs & _ & _ & Hm & _).
  - reflexivity.
  - vm_compute. reflexivity.
  - left. vm_compute. discriminate.
  - reflexivity.
  - reflexivity.
  - reflexivity.
  - reflexivity.
  - vm_compute. lia.
  - vm_compute. lia.
  - left. reflexivity.
  - exists g'. split; [exact Hu|]. split; [exact Hs|].
    rewrite Hm. vm_compute. reflexivity.
Defined.

(** ** The Paddle engine: what every reachable room satisfies *)

Section PongInvariants.
Import Pong PongInv.

Lemma sameCore_refl (g : PingPongGame) : sameCore g g.
Proof. repeat split. Qed.

Lemma sameCore_physInv (g g' : PingPongGame) :
  sameCore g g' -> physInv g -> physInv g'.
Proof.
  intros (Hb & Hl & Hr & Hh & Hls & Hrs & _). unfold physInv.
  rewrite Hb, Hl, Hr, Hh, Hls, Hrs. tauto.
Qed.

Lemma seatMatch_sameCore (i : nat) (g g' : PingPongGame) :
  seatMatch i g = Some g' -> sameCore g g'.
Proof.
  unfold seatMatch. intros H.
  repeat (simplify_option_eq || case_match). repeat split.
Qed.

Lemma matchmake_sameCore (rand : nat -> Q) (g g' : PingPongGame) :
  matchmake rand g = Some g' -> sameCore g g'.
Proof.
  unfold matchmake. intros H.
  repeat case_decide; simplify_option_eq;
    repeat case_match; simplify_eq;
    try (apply seatMatch_sameCore in H; exact H); repeat split.
Qed.

Lemma nextRound_sameCore (e : Env) (g g' : PingPongGame) :
  nextRound e g = Some g' -> sameCore g g'.
Proof.
  unfold nextRound. intros H.
  destruct (matchmake _ _) as [g1|] eqn:E; simpl in H; [|discriminate].
  apply matchmake_sameCore in E. destruct E as (E1 & E2 & E3 & E4 & E5 & E6 & E7).
  simplify_eq. case_decide; repeat split; assumption.
Qed.

Lemma setPlayer_sameCore s n sock pid (g : PingPongGame) :
  sameCore g (setPlayer s n sock pid g).
Proof. destruct s as [[]|]; repeat split. Qed.

Lemma serve_speed (r1 r2 : Q) : 6 <= Qabs (ball_vx (serve r1 r2)).
Proof. simpl. destruct (Qltb 0.5 r1); vm_compute; discriminate. Qed.

Lemma resetGame_physInv (now r1 r2 : Q) (g : PingPongGame) :
  physInv g -> physInv (resetGame now r1 r2 g).
Proof.
  intros (_ & _ & _ & Hl & Hr & _). unfold physInv.
  cbn [resetGame leftScore rightScore hitter leftPaddle rightPaddle ball pad_x
       set_hitter set_rightScore set_leftScore set_ball set_leftPaddle set_rightPaddle
       set_last set_gameEndTime].
  repeat split; try lia; try assumption. apply serve_speed.
Qed.

Lemma deflect_speed (pz : Q) (b : Ball) :
  6 <= Qabs (ball_vx b) -> 6 <= Qabs (ball_vx (deflect pz b)).
Proof.
  intros H. cbn [deflect ball_vx]. rewrite Qabs_Qmult.
  change (Qabs (-1.05)) with 1.05.
  pose proof (Qabs_nonneg (ball_vx b)). lra.
Qed.

Lemma bounceZ_moveBall_vx (dt : Q) (b : Ball) :
  ball_vx (bounceZ (moveBall dt b)) = ball_vx b.
Proof. unfold bounceZ. destruct (_ || _); reflexivity. Qed.

Lemma strike_physInv (dt : Q) (g : PingPongGame) :
  physInv g -> physInv (strike dt g).
Proof.
  intros (Hl & Hr & Hh & Hpl & Hpr & Hv). unfold strike, hitRight, hitLeft.
  repeat case_match; unfold physInv;
    cbn [leftScore rightScore hitter leftPaddle rightPaddle ball set_hitter set_ball];
    repeat split; try lia; try assumption;
    repeat apply deflect_speed;
    rewrite bounceZ_moveBall_vx; exact Hv.
Qed.

Lemma scoreAndReset_physInv (r1 r2 : Q) (s : PingPongGame) :
  (leftScore s < 3)%Z -> (rightScore s < 3)%Z ->
  physInv s -> physInv (scoreAndReset r1 r2 s).
Proof.
  intros Hl3 Hr3 (Hl & Hr & Hh & Hpl & Hpr & Hv). unfold scoreAndReset.
  destruct (_ || _); [|repeat split; assumption || lia].
  destruct (_ && _); [|destruct (_ && _)]; unfold physInv;
    cbn [leftScore rightScore hitter leftPaddle rightPaddle ball set_hitter set_ball
         set_leftScore set_rightScore];
    (split; [lia|]); (split; [lia|]); (split; [lia|]);
    (split; [exact Hpl|]); (split; [exact Hpr|]); apply serve_speed.
Qed.

Lemma play_physInv (dt r1 r2 : Q) (g : PingPongGame) :
  (leftScore g < 3)%Z -> (rightScore g < 3)%Z ->
  physInv g -> physInv (play dt r1 r2 g).
Proof.
  intros Hl3 Hr3 Hg. destruct (strike_scores dt g) as [El Er].
  unfold play. apply scoreAndReset_physInv.
  - rewrite El. exact Hl3.
  - rewrite Er. exact Hr3.
  - apply strike_physInv, Hg.
Qed.

Lemma finishOnTime_sameCore (g g' : PingPongGame) :
  finishOnTime g = Some g' -> sameCore g g'.
Proof.
  unfold finishOnTime. simpl. destruct (round g); [discriminate|].
  destruct (matches g !! n); simpl; [|discriminate].
  intros [= <-]. repeat split.
Qed.

Lemma finishOnScore_sameCore (t : Z) (g g' : PingPongGame) :
  finishOnScore t g = Some g' -> sameCore g g'.
Proof.
  unfold finishOnScore. destruct (round g); [discriminate|].
  destruct (matches g !! n); simpl; [|discriminate].
  match goal with |- context [mbind _ ?o] => destruct o end; simpl; [|discriminate].
  intros [= <-]. repeat split.
Qed.

Lemma update_physInv (now r1 r2 : Q) (g g' : PingPongGame) :
  physInv g -> update now r1 r2 g = Some g' -> physInv g'.
Proof.
  intros Hg. unfold update.
  destruct (negb _); [intros [= <-]; exact Hg|].
  destruct (Qleb _ _).
  - intros H. exact (sameCore_physInv _ _ (finishOnTime_sameCore _ _ H) Hg).
  - destruct (Z.leb_spec maxScore (leftScore (set_last now g))) as [_|Hl]; cbn [orb].
    + intros Hf. apply finishOnScore_sameCore in Hf.
      apply (sameCore_physInv (set_last now g)); [exact Hf|exact Hg].
    + destruct (Z.leb_spec maxScore (rightScore (set_last now g))) as [_|Hr].
      * intros Hf. apply finishOnScore_sameCore in Hf.
        apply (sameCore_physInv (set_last now g)); [exact Hf|exact Hg].
      * intros [= <-]. apply play_physInv; [exact Hl|exact Hr|exact Hg].
Qed.

Lemma update_loop (now r1 r2 : Q) (g g' : PingPongGame) :
  update now r1 r2 g = Some g' -> loop g' = loop g.
Proof.
  unfold update.
  destruct (negb _); [intros [= <-]; reflexivity|].
  destruct (Qleb _ _).
  - intros H. apply finishOnTime_sameCore in H. apply H.
  - destruct (_ || _).
    + intros H. apply finishOnScore_sameCore in H. apply H.
    + intros [= <-]. unfold play, scoreAndReset, strike, hitRight, hitLeft.
      repeat case_match; reflexivity.
Qed.


Lemma resetGame_loop (now r1 r2 : Q) (g : PingPongGame) :
  loop (resetGame now r1 r2 g) = loop g.
Proof. reflexivity. Qed.

Lemma inv_game (f : PingPongGame -> PingPongGame) (w : World) :
  physInv (f (game w)) -> loop (f (game w)) = loop (game w) ->
  oneTimer w -> inv (with_game f w).
Proof.
  intros Hp Hl Ht. split; [exact Hp|].
  unfold oneTimer, with_game; cbn [game timers]. rewrite Hl. exact Ht.
Qed.

Lemma inv_stopLoop (w : World) : inv w -> inv (stopLoop w).
Proof.
  intros [Hp Ht]. unfold stopLoop, clearInterval, oneTimer in *.
  destruct (loop (game w)) as [h|]; (split; [exact Hp|]);
    unfold oneTimer; cbn [with_game game timers loop set_loop].
  - destruct Ht as [cb ->]. apply delete_singleton_eq.
  - exact Ht.
Qed.

Lemma inv_setInterval (cb : Callback) (w : World) :
  loop (game w) = None -> inv w -> inv (setInterval cb w).
Proof.
  intros Hl [Hp Ht]. unfold oneTimer in Ht. rewrite Hl in Ht.
  split; [exact Hp|]. unfold oneTimer, setInterval; cbn [game timers loop set_loop].
  exists cb. rewrite Ht. apply insert_empty.
Qed.

End PongInvariants.

Section PongInvariantSteps.
Import Pong PongInv.

Ltac proj_red :=
  cbn [ball leftPaddle rightPaddle status loop players matches mode type round
       gameEndTime whenPaused player1ready player2ready leftPlayer rightPlayer
       hitter leftScore rightScore last id heap
       set_ball set_leftPaddle set_rightPaddle set_status set_loop set_players
       set_matches set_round set_gameEndTime set_whenPaused set_player1ready
       set_player2ready set_leftPlayer set_rightPlayer set_hitter set_leftScore
       set_rightScore set_last set_heap resetGame
       game timers nextTimer pongRooms pongTournaments with_game put_game].

Ltac by_frame Hp :=
  match goal with
  | |- physInv ?G =>
      refine (sameCore_physInv _ G _ Hp); unfold sameCore; proj_red; repeat split
  end.

Ltac by_reset Hp :=
  match goal with
  | |- physInv ?G =>
      match G with
      | context [resetGame ?a ?b ?c _] =>
          refine (sameCore_physInv (resetGame a b c _) G _ (resetGame_physInv a b c _ Hp));
          unfold sameCore; proj_red; repeat split
      end
  end.

Ltac by_loop := proj_red; first [reflexivity | assumption].

Lemma inv_put (g' : PingPongGame) (w : World) :
  physInv g' -> loop g' = loop (game w) -> oneTimer w -> inv (put_game g' w).
Proof. intros Hp Hl Ht. exact (inv_game (fun _ => g') w Hp Hl Ht). Qed.

Lemma startGame1v1_inv (e : Env) (w : World) : inv w -> inv (startGame1v1 e w).
Proof.
  intros [Hp Ht]. unfold startGame1v1.
  change (loop (game (with_game (set_status in_progress) w))) with (loop (game w)).
  destruct (loop (game w)) eqn:El.
  - apply (inv_game (set_status in_progress)); [by_frame Hp|by_loop|exact Ht].
  - destruct (findSide side_left _) as [p1|];
      [|apply (inv_game (set_status in_progress)); [by_frame Hp|by_loop|exact Ht]].
    destruct (findSide side_right _) as [p2|];
      [|apply (inv_game (set_status in_progress)); [by_frame Hp|by_loop|exact Ht]].
    apply inv_setInterval.
    + by_loop.
    + apply inv_put; [by_reset Hp|by_loop|exact Ht].
Qed.

Lemma startGameTournament_inv (e : Env) (w : World) :
  inv w -> inv (startGameTournament e w).
Proof.
  intros [Hp Ht]. unfold startGameTournament.
  destruct (loop (game w)) eqn:El; [split; assumption|].
  apply inv_setInterval; [by_loop|].
  apply inv_put; [by_reset Hp|by_loop|exact Ht].
Qed.

Lemma togglePause_inv (e : Env) (w : World) : inv w -> inv (togglePause e w).
Proof.
  intros [Hp Ht]. unfold togglePause.
  destruct (loop (game w)) eqn:El.
  - pose proof (inv_stopLoop (with_game (set_whenPaused (now e)) w)) as Hs.
    destruct Hs as [Hp' Ht']; [apply inv_game; [by_frame Hp|by_loop|exact Ht]|].
    apply inv_game; [by_frame Hp'|by_loop|exact Ht'].
  - case_decide; [|split; assumption].
    apply inv_setInterval; [by_loop|].
    apply inv_put; [by_frame Hp|by_loop|exact Ht].
Qed.

Lemma runCallback_inv (cb : Callback) (e : Env) (w w' : World) :
  inv w -> runCallback cb e w = Some w' -> inv w'.
Proof.
  intros [Hp Ht] H.
  assert (Hu : forall g, update (now e) (rnd1 e) (rnd2 e) (game w) = Some g ->
                         inv (put_game g w)).
  { intros g Hg. apply inv_game; [exact (update_physInv _ _ _ _ _ Hp Hg)| |exact Ht].
    exact (update_loop _ _ _ _ _ Hg). }
  assert (Hn : forall v g', inv v -> nextRound e (game v) = Some g' -> inv (put_game g' v)).
  { intros v g' [Hvp Hvt] Hg'. apply nextRound_sameCore in Hg'.
    apply inv_game; [exact (sameCore_physInv _ _ Hg' Hvp)|apply Hg'|exact Hvt]. }
  destruct cb; simpl in H; unfold tick1v1, tickTournament, tickResumed in H;
    destruct (update _ _ _ _) as [g|] eqn:Hg; simpl in H; try discriminate;
    specialize (Hu g eq_refl);
    repeat case_decide; simplify_option_eq;
    try exact Hu; try (apply inv_stopLoop; exact Hu);
    try (eapply Hn; [apply inv_stopLoop; exact Hu|eassumption]).
Qed.


Lemma sameCore_trans (g1 g2 g3 : PingPongGame) :
  sameCore g1 g2 -> sameCore g2 g3 -> sameCore g1 g3.
Proof.
  unfold sameCore. intros (?&?&?&?&?&?&?) (?&?&?&?&?&?&?).
  repeat split; congruence.
Qed.

Lemma inv_same (g' : PingPongGame) (w : World) :
  sameCore (game w) g' -> inv w -> inv (put_game g' w).
Proof.
  intros Hs [Hp Ht]. apply inv_put; [exact (sameCore_physInv _ _ Hs Hp)|apply Hs|exact Ht].
Qed.

Lemma inv_same_reset (a b c : Q) (g' : PingPongGame) (w : World) :
  sameCore (game w) g' -> inv w ->
  inv (put_game (set_status starting (resetGame a b c g')) w).
Proof.
  intros Hs [Hp Ht]. apply inv_put; [|proj_red; apply Hs|exact Ht].
  refine (sameCore_physInv (resetGame a b c g') _ _ (resetGame_physInv a b c g' _)).
  - unfold sameCore. proj_red. repeat split.
  - exact (sameCore_physInv _ _ Hs Hp).
Qed.

Lemma on_names1v1_inv sock pid ps names (e : Env) (w w' : World) ps' :
  on_names1v1 sock pid ps names e w = inr (w', ps') -> inv w -> inv w'.
Proof.
  unfold on_names1v1. intros H Hi.
  destruct (0 <? _)%nat; [discriminate|].
  destruct (_ && seatedAt _ _ _ _); [discriminate|].
  match type of H with context [setPlayer ?a ?b ?c ?d (game w)] =>
    pose proof (setPlayer_sameCore a b c d (game w)) as H1;
    set (g1 := setPlayer a b c d (game w)) in * end.
  destruct (decide (mode g1 = mode_local)).
  - match type of H with context [setPlayer ?a ?b ?c ?d g1] =>
      pose proof (sameCore_trans _ _ _ H1 (setPlayer_sameCore a b c d g1)) as H2;
      set (g2 := setPlayer a b c d g1) in * end.
    destruct (length (players g2) =? 2)%nat; injection H as <- _.
    + apply inv_same_reset; assumption.
    + apply inv_same; assumption.
  - destruct (length (players g1) =? 2)%nat; injection H as <- _.
    + apply inv_same_reset; assumption.
    + apply inv_same; assumption.
Qed.

Lemma on_namesTournament_inv sock pid names (e : Env) (w w' : World) pl :
  on_namesTournament sock pid names e w = Some (inr (w', pl)) -> inv w -> inv w'.
Proof.
  unfold on_namesTournament. intros H Hi.
  destruct (0 <? _)%nat; [discriminate|].
  destruct (_ || _); [discriminate|].
  match type of H with context [setPlayer ?a ?b ?c ?d (game w)] =>
    pose proof (setPlayer_sameCore a b c d (game w)) as H1;
    set (g1 := setPlayer a b c d (game w)) in * end.
  assert (exists g2, sameCore (game w) g2 /\
            (if decide (mode g1 = mode_local) then
               setPlayer None (n_player4 names) (Some "p4"%string) None
                 (setPlayer None (n_player3 names) (Some "p3"%string) None
                   (setPlayer None (n_player2 names) (Some "p2"%string) None g1))
             else g1) = g2) as (g2 & H2 & E).
  { eexists. split; [|reflexivity]. destruct (decide _); [|exact H1].
    repeat (eapply sameCore_trans; [|apply setPlayer_sameCore]). exact H1. }
  rewrite E in H. clear E.
  destruct (length (players g2) =? 4)%nat.
  - destruct (matchmake _ _) as [g3|] eqn:E3; simpl in H; [|discriminate].
    injection H as <- _. apply matchmake_sameCore in E3.
    apply inv_same; [|exact Hi].
    eapply sameCore_trans; [exact H2|].
    eapply sameCore_trans; [|exact E3]. unfold sameCore. proj_red. repeat split.
  - injection H as <- _. apply inv_same; assumption.
Qed.

Lemma on_disconnect_inv sock rid (w : World) : inv w -> inv (on_disconnect sock rid w).
Proof.
  intros Hi. unfold on_disconnect.
  destruct rid as [rid|]; [|exact Hi].
  destruct (_ || _); [exact Hi|].
  match goal with |- context [with_game ?f w] =>
    assert (Hj : inv (with_game f w)); [|set (w1 := with_game f w) in *] end.
  { destruct Hi as [Hp Ht]. apply inv_game; [by_frame Hp|by_loop|exact Ht]. }
  destruct (decide (type (game w1) = type_tournament)).
  - destruct (_ || _); exact Hj.
  - match goal with |- context [if ?c then with_game ?f (stopLoop w1) else w1] =>
      assert (Hk : inv (if c then with_game f (stopLoop w1) else w1));
      [|set (w2 := if c then with_game f (stopLoop w1) else w1) in *] end.
    { destruct (_ <? _)%nat; [|exact Hj].
      destruct (inv_stopLoop _ Hj) as [Hp Ht].
      apply inv_game; [by_frame Hp|by_loop|exact Ht]. }
    destruct (_ || _); [|exact Hk]. destruct (decide _); exact Hk.
Qed.

Lemma step_inv (w w' : World) : step w w' -> inv w -> inv w'.
Proof.
  intros Hs Hi. destruct Hs.
  - eapply on_names1v1_inv; eassumption.
  - eapply on_namesTournament_inv; eassumption.
  - destruct Hi as [Hp Ht]. unfold on_move.
    destruct s as [[]|]; [| |split; assumption];
      (apply inv_game; [|by_loop|exact Ht]);
      unfold physInv in *; proj_red; cbn [pad_x]; exact Hp.
  - unfold on_pause. case_decide; [apply togglePause_inv|]; exact Hi.
  - unfold on_setReady1v1.
    repeat case_match; try exact Hi; apply startGame1v1_inv; try exact Hi;
      destruct Hi as [Hp Ht]; (apply inv_game; [by_frame Hp|by_loop|exact Ht]).
  - unfold on_setReadyTournament.
    repeat case_match; try exact Hi; apply startGameTournament_inv; try exact Hi;
      destruct Hi as [Hp Ht]; (apply inv_game; [by_frame Hp|by_loop|exact Ht]).
  - unfold on_restart. case_decide; [apply startGame1v1_inv; exact Hi|].
    destruct Hi as [Hp Ht]. apply inv_game; [cbv beta; by_reset Hp|by_loop|exact Ht].
  - apply on_disconnect_inv, Hi.
  - unfold fire in H. destruct (timers w !! h); [|congruence].
    eapply runCallback_inv; eassumption.
Qed.

Lemma reachable_inv (w : World) : reachable w -> inv w.
Proof.
  induction 1 as [|w w' _ IH Hs].
  - split; [|reflexivity].
    repeat split; simpl; try reflexivity; try lia; vm_compute; discriminate.
  - exact (step_inv _ _ Hs IH).
Qed.

End PongInvariantSteps.

(** X9.  In every world a pong room reaches, both scores lie between 0
    and 3, [hitter] is 0, 1 or 2, the paddles stand at [x = -8.2] and
    [x = 8.2], and the ball's speed along x is at least the serve's 6. *)
Theorem X9_reachable_scores_paddles_speed (w : Pong.World) :
  Pong.reachable w ->
  let g := Pong.game w in
  (0 <= Pong.leftScore g <= 3)%Z /\ (0 <= Pong.rightScore g <= 3)%Z /\
  (Pong.hitter g <= 2)%nat /\
  Pong.pad_x (Pong.leftPaddle g) = -8.2 /\ Pong.pad_x (Pong.rightPaddle g) = 8.2 /\
  6 <= Qabs (Pong.ball_vx (Pong.ball g)).
Proof. intros Hr. exact (proj1 (reachable_inv w Hr)). Qed.

Lemma X9_witness :
  Pong.reachable Demo.started /\
  (0 <= Pong.leftScore (Pong.game Demo.started) <= 3)%Z /\
  6 <= Qabs (Pong.ball_vx (Pong.ball (Pong.game Demo.started))).
Proof.
  split; [exact demo_started_reachable|].
  pose proof (X9_reachable_scores_paddles_speed Demo.started demo_started_reachable)
    as (H1 & _ & _ & _ & _ & H6).
  split; [exact H1|exact H6].
Defined.

(** X10.  In every world a pong room reaches, the runtime holds at most
    one interval of the room, and it is the one [state.loop] names: a
    timer is active exactly if [state.loop] is its handle. *)
Theorem X10_one_interval_per_room (w : Pong.World) :
  Pong.reachable w ->
  (forall h, is_Some (Pong.timers w !! h) <-> Pong.loop (Pong.game w) = Some h) /\
  (size (Pong.timers w) <= 1)%nat.
Proof.
  intros Hr. destruct (reachable_inv w Hr) as [_ Ht]. unfold PongInv.oneTimer in Ht.
  destruct (Pong.loop (Pong.game w)) as [h0|].
  - destruct Ht as [cb ->]. split.
    + intros h. rewrite lookup_singleton_is_Some. split; congruence.
    + rewrite map_size_singleton. lia.
  - rewrite Ht. split.
    + intros h. rewrite lookup_empty. split; [intros []|]; discriminate.
    + rewrite map_size_empty. lia.
Qed.

Lemma X10_witness :
  Pong.reachable Demo.started /\
  (is_Some (Pong.timers Demo.started !! 0%nat) <->
   Pong.loop (Pong.game Demo.started) = Some 0%nat) /\
  (size (Pong.timers Demo.started) <= 1)%nat.
Proof.
  split; [exact demo_started_reachable|].
  destruct (X10_one_interval_per_room Demo.started demo_started_reachable) as [H1 H2].
  split; [exact (H1 0%nat)|exact H2].
Defined.

Lemma hit_once (s : Pong.PingPongGame) :
  Pong.pad_x (Pong.leftPaddle s) = -8.2 ->
  Pong.pad_x (Pong.rightPaddle s) = 8.2 ->
  Pong.hitRight (Pong.hitLeft s) = s \/
  (Pong.ball_vx (Pong.ball s) < 0 /\
   Pong.hitRight (Pong.hitLeft s) =
     Pong.set_hitter 1 (Pong.set_ball (Pong.deflect (Pong.pad_z (Pong.leftPaddle s))
                                                     (Pong.ball s)) s)) \/
  (0 < Pong.ball_vx (Pong.ball s) /\
   Pong.hitRight (Pong.hitLeft s) =
     Pong.set_hitter 2 (Pong.set_ball (Pong.deflect (Pong.pad_z (Pong.rightPaddle s))
                                                     (Pong.ball s)) s)).
Proof.
  intros Hl Hr. unfold Pong.hitLeft.
  destruct (Pong.paddleHit (Pong.ball s) (Pong.leftPaddle s)
            && Qltb (Pong.ball_vx (Pong.ball s)) 0) eqn:E1.
  - apply andb_true_iff in E1 as [Hh Hneg]. apply Qltb_true in Hneg.
    right; left. split; [exact Hneg|]. unfold Pong.hitRight.
    cbn [Pong.ball Pong.set_hitter Pong.set_ball Pong.rightPaddle].
    replace (Pong.paddleHit (Pong.deflect (Pong.pad_z (Pong.leftPaddle s)) (Pong.ball s))
               (Pong.rightPaddle s)) with false; [reflexivity|].
    symmetry. apply not_true_iff_false. intros Hh2.
    unfold Pong.paddleHit in Hh, Hh2.
    apply andb_true_iff in Hh as [Hh _]. apply andb_true_iff in Hh2 as [Hh2 _].
    apply Qltb_true in Hh, Hh2.
    cbn [Pong.deflect Pong.ball_x] in Hh2. rewrite Hl in Hh. rewrite Hr in Hh2.
    apply Qabs_Qlt_condition in Hh, Hh2. lra.
  - unfold Pong.hitRight.
    destruct (Pong.paddleHit (Pong.ball s) (Pong.rightPaddle s)
              && Qltb 0 (Pong.ball_vx (Pong.ball s))) eqn:E2.
    + apply andb_true_iff in E2 as [_ Hpos]. apply Qltb_true in Hpos.
      right; right. split; [exact Hpos|reflexivity].
    + left. reflexivity.
Qed.

(** X11.  One tick strikes the ball at most once.  With the paddles on
    their lines, the collision step of [update] either leaves the moved
    ball and [hitter] alone, or deflects it once off the left paddle (the
    ball was moving left, [hitter] becomes 1), or once off the right
    paddle (the ball was moving right, [hitter] becomes 2). *)
Theorem X11_one_hit_per_tick (dt : Q) (g : Pong.PingPongGame) :
  Pong.pad_x (Pong.leftPaddle g) = -8.2 ->
  Pong.pad_x (Pong.rightPaddle g) = 8.2 ->
  let b := Pong.bounceZ (Pong.moveBall dt (Pong.ball g)) in
  let g' := Pong.strike dt g in
  (Pong.ball g' = b /\ Pong.hitter g' = Pong.hitter g) \/
  (Pong.ball_vx (Pong.ball g) < 0 /\
   Pong.ball g' = Pong.deflect (Pong.pad_z (Pong.leftPaddle g)) b /\
   Pong.hitter g' = 1%nat) \/
  (0 < Pong.ball_vx (Pong.ball g) /\
   Pong.ball g' = Pong.deflect (Pong.pad_z (Pong.rightPaddle g)) b /\
   Pong.hitter g' = 2%nat).
Proof.
  intros Hl Hr. cbv zeta. unfold Pong.strike.
  pose proof (bounceZ_moveBall_vx dt (Pong.ball g)) as Hv.
  destruct (hit_once (Pong.set_ball (Pong.bounceZ (Pong.moveBall dt (Pong.ball g))) g)
              Hl Hr) as [->|[[Hneg ->]|[Hpos ->]]].
  - left. split; reflexivity.
  - right; left. cbn [Pong.ball Pong.set_ball] in Hneg. rewrite Hv in Hneg.
    split; [exact Hneg|]. split; reflexivity.
  - right; right. cbn [Pong.ball Pong.set_ball] in Hpos. rewrite Hv in Hpos.
    split; [exact Hpos|]. split; reflexivity.
Qed.

Lemma X11_witness :
  let g := Pong.game Demo.started in
  Pong.pad_x (Pong.leftPaddle g) = -8.2 /\
  Pong.pad_x (Pong.rightPaddle g) = 8.2 /\
  Pong.ball (Pong.strike 0.016 g) = Pong.bounceZ (Pong.moveBall 0.016 (Pong.ball g)) /\
  Pong.hitter (Pong.strike 0.016 g) = 0%nat.
Proof.
  split; [reflexivity|]. split; [reflexivity|].
  destruct (X11_one_hit_per_tick 0.016 (Pong.game Demo.started) eq_refl eq_refl)
    as [[H1 H2]|[(_ & _ & H)|(_ & _ & H)]].
  - split; [exact H1|exact H2].
  - exfalso. revert H. vm_compute. discriminate.
  - exfalso. revert H. vm_compute. discriminate.
Defined.

(** ** Which names [validatePlayerNames] examines *)

(** X12.  [validatePlayerNames] answers with a player number between 0
    and 4.  In remote mode it examines the first name only; in a local
    1v1 submission it examines the first two names only, so the answer
    does not depend on [player3] and [player4]; and the answer is [k + 1]
    only if the names before number [k + 1] all passed. *)
Theorem X12_names_examined (names : Names) (type : RoomType) (mode : Mode) :
  let r := validatePlayerNames names type mode in
  (r <= 4)%nat /\
  (mode = mode_remote -> r = if badName (n_player1 names) then 1%nat else 0%nat) /\
  (mode = mode_local -> type = type_1v1 ->
     (r <= 2)%nat /\
     forall p3 p4, validatePlayerNames
                     (mkNames (n_player1 names) (n_player2 names) p3 p4) type mode = r) /\
  ((2 <= r)%nat -> mode = mode_local /\ badName (n_player1 names) = false) /\
  ((3 <= r)%nat -> type = type_tournament /\ badName (n_player2 names) = false /\
                   n_player2 names <> n_player1 names) /\
  (r = 4%nat -> badName (n_player3 names) = false /\ n_player3 names <> n_player2 names).
Proof.
  cbv zeta. unfold validatePlayerNames. cbn [n_player1 n_player2 n_player3 n_player4].
  destruct (badName (n_player1 names)), (badName (n_player2 names)),
    (badName (n_player3 names)), (badName (n_player4 names)),
    (bool_decide_reflect (n_player2 names = n_player1 names)),
    (bool_decide_reflect (n_player3 names = n_player2 names)),
    (bool_decide_reflect (n_player4 names = n_player3 names)),
    mode, type; repeat case_decide; cbn [orb];
    repeat split; intros; try reflexivity; try discriminate; try congruence; try lia.
Qed.

(** ** What a key press can change *)





(** ** The timers of a key-clash room *)

Section KeyClashTimers.
Import KeyClash KeyClashInv.

Lemma timersInv_room (s' : state) (w : World) :
  interval s' = interval (room w) -> timersInv w -> timersInv (put_room s' w).
Proof.
  intros Hi [H1 H2]. split; cbn [put_room with_room timers nextTimer room].
  - exact H1.
  - rewrite Hi. exact H2.
Qed.

Lemma timersInv_stop (w : World) : timersInv w -> timersInv (stopInterval w).
Proof.
  intros Hi. pose proof Hi as [H1 _]. unfold stopInterval.
  destruct (interval (room w)) as [h|] eqn:E; [|exact Hi].
  split; cbn [timers nextTimer room interval set_interval].
  - intros h' Hh'. apply H1. apply elem_of_difference in Hh' as [Hh' _]. exact Hh'.
  - discriminate.
Qed.

Lemma timersInv_set (w : World) : timersInv w -> timersInv (setInterval w).
Proof.
  intros [H1 H2]. unfold setInterval.
  split; cbn [timers nextTimer room interval set_interval].
  - intros h Hh. apply elem_of_union in Hh as [Hh|Hh].
    + apply elem_of_singleton in Hh. lia.
    + apply H1 in Hh. lia.
  - intros h [= <-]. apply elem_of_union_l, elem_of_singleton. reflexivity.
Qed.

Lemma stopInterval_interval (w : World) : interval (room (stopInterval w)) = None.
Proof. unfold stopInterval. destruct (interval (room w)) eqn:E; [reflexivity|exact E]. Qed.

Lemma on_keypress_interval (c : Closure) (key : string) (r : Q) (s : state) :
  interval (on_keypress c key r s) = interval s.
Proof. unfold on_keypress. repeat case_match; reflexivity. Qed.

Lemma seatOwn_interval sock pid names (s : state) :
  interval (seatOwn sock pid names s) = interval s.
Proof. unfold seatOwn. repeat case_match; reflexivity. Qed.

Lemma seatOthers_interval mode type names (s : state) :
  interval (seatOthers mode type names s) = interval s.
Proof. unfold seatOthers. repeat case_match; reflexivity. Qed.

Lemma settle_interval (e : Env) (s s' : state) :
  settle e s = Some s' -> interval s' = interval s.
Proof.
  unfold settle. intros H.
  destruct (_ || _); [simplify_eq; reflexivity|].
  case_decide; [|simplify_eq; reflexivity].
  apply kc_matchmake_interval in H. exact H.
Qed.

Lemma startGame_timersInv (c : Closure) (e : Env) (w : World) :
  timersInv w -> timersInv (startGame c e w).
Proof.
  intros Hi. unfold startGame. case_decide; [exact Hi|].
  apply timersInv_set, timersInv_room; [|exact Hi].
  case_decide; reflexivity.
Qed.

Lemma finish_timersInv (e : Env) (w w' : World) :
  timersInv w -> finish e w = Some w' -> timersInv w'.
Proof.
  intros Hi H. unfold finish in H. apply timersInv_stop in Hi.
  pose proof (stopInterval_interval w) as Hn.
  destruct (round _); [discriminate|].
  destruct (matches _ !! _); simpl in H; [|discriminate].
  destruct (createGameResult_reads _ _); simpl in H; [|discriminate].
  case_decide.
  - destruct (matchmake _ _) as [s1|] eqn:E; simpl in H; [|discriminate].
    simplify_eq. apply kc_matchmake_interval in E.
    apply timersInv_room; [|exact Hi]. rewrite E. reflexivity.
  - simplify_eq. apply timersInv_room; [reflexivity|exact Hi].
Qed.

Lemma on_disconnect_timersInv sock rid (w : World) :
  timersInv w -> timersInv (on_disconnect sock rid w).
Proof.
  intros Hi. unfold on_disconnect.
  destruct rid as [rid|]; [|exact Hi].
  destruct (_ || _); [exact Hi|].
  cbv zeta.
  match goal with |- context [put_room ?s0 w] => remember s0 as s eqn:Es end.
  assert (Hs : interval s = interval (room w))
    by (subst s; repeat case_match; reflexivity).
  clear Es. pose proof (timersInv_room s w Hs Hi) as Hj.
  case_decide.
  - destruct (_ || _); exact Hj.
  - match goal with |- context [if ?c then with_room ?f (stopInterval ?v) else _] =>
      assert (Hk : timersInv (if c then with_room f (stopInterval v) else v));
      [|set (w2 := if c then with_room f (stopInterval v) else v) in *] end.
    { destruct (_ <? _)%nat; [|exact Hj].
      apply (timersInv_room _ (stopInterval (put_room s w))); [reflexivity|].
      apply timersInv_stop, Hj. }
    destruct (_ || _); exact Hk.
Qed.

Lemma step_timersInv (w w' : World) : step w w' -> timersInv w -> timersInv w'.
Proof.
  intros Hst Hi. destruct Hst.
  - unfold on_names in H.
    destruct (0 <? _)%nat; [discriminate|]. destruct (_ || _); [discriminate|].
    destruct (settle _ _) as [s1|] eqn:E; simpl in H; [|discriminate].
    simplify_eq. apply timersInv_room; [|exact Hi].
    apply settle_interval in E.
    rewrite E, seatOthers_interval, seatOwn_interval. reflexivity.
  - apply (timersInv_room _ w); [apply on_keypress_interval|exact Hi].
  - unfold on_setReady.
    repeat case_match; try exact Hi;
      try (apply startGame_timersInv); try exact Hi;
      (apply timersInv_room; [|exact Hi]); repeat case_match; reflexivity.
  - apply on_disconnect_timersInv, Hi.
  - unfold fire in H. case_decide; [|congruence].
    unfold tick in H. destruct (_ && _).
    + eapply finish_timersInv; [|exact H].
      apply (timersInv_room _ w); [reflexivity|exact Hi].
    + simplify_eq. apply (timersInv_room _ w); [reflexivity|exact Hi].
Qed.

Lemma reachable_timersInv (w : World) : reachable w -> timersInv w.
Proof.
  induction 1 as [|w w' _ IH Hs].
  - split; [intros h Hh; apply elem_of_empty in Hh; contradiction|discriminate].
  - exact (step_timersInv _ _ Hs IH).
Qed.

End KeyClashTimers.

(** X14.  In every world a key-clash room reaches, the handle in
    [state.interval] names an active timer and timer handles are never
    reused.  [startGame] tests the status, not the handle: run on a room
    that is not in progress it starts a fresh timer and cancels none, so
    the number of active timers grows by one. *)
Theorem X14_reaction_start_adds_a_timer (c : KeyClash.Closure) (e : KeyClash.Env)
    (w : KeyClash.World) :
  KeyClash.reachable w ->
  (forall h, KeyClash.interval (KeyClash.room w) = Some h -> h ∈ KeyClash.timers w) /\
  (forall h, h ∈ KeyClash.timers w -> (h < KeyClash.nextTimer w)%nat) /\
  (KeyClash.status (KeyClash.room w) <> in_progress ->
   let w' := KeyClash.startGame c e w in
   KeyClash.timers w' = {[ KeyClash.nextTimer w ]} ∪ KeyClash.timers w /\
   KeyClash.interval (KeyClash.room w') = Some (KeyClash.nextTimer w) /\
   size (KeyClash.timers w') = S (size (KeyClash.timers w))).
Proof.
  intros Hr. destruct (reachable_timersInv w Hr) as [H1 H2].
  split; [exact H2|]. split; [exact H1|].
  intros Hs. cbv zeta. unfold KeyClash.startGame.
  destruct (decide (KeyClash.status (KeyClash.room w) = in_progress)); [contradiction|].
  cbn [KeyClash.setInterval KeyClash.timers KeyClash.room KeyClash.put_room
       KeyClash.with_room KeyClash.nextTimer KeyClash.interval KeyClash.set_interval].
  split; [reflexivity|]. split; [reflexivity|].
  rewrite size_union, size_singleton; [reflexivity|].
  apply disjoint_singleton_l. intros Hin. apply H1 in Hin. lia.
Qed.

Lemma X14_witness :
  KeyClash.reachable Demo.kcSeated /\
  KeyClash.status (KeyClash.room Demo.kcSeated) <> in_progress /\
  size (KeyClash.timers (KeyClash.startGame Demo.kcClosure Demo.kcEnv Demo.kcSeated))
  = S (size (KeyClash.timers Demo.kcSeated)).
Proof.
  assert (Hr : KeyClash.reachable Demo.kcSeated).
  { apply (KeyClash.reach_step Demo.kcRoom0 Demo.kcSeated).
    - exact (KeyClash.reach_new "q7w1" mode_local type_1v1 ["q7w1"%string] []).
    - apply (KeyClash.step_names mode_local type_1v1 "s1" None Demo.aliceBob
               Demo.kcEnv Demo.kcRoom0 Demo.kcSeated 0%nat).
      vm_compute. reflexivity. }
  assert (Hs : KeyClash.status (KeyClash.room Demo.kcSeated) <> in_progress)
    by (vm_compute; discriminate).
  split; [exact Hr|]. split; [exact Hs|].
  destruct (X14_reaction_start_adds_a_timer Demo.kcClosure Demo.kcEnv Demo.kcSeated Hr)
    as (_ & _ & H).
  exact (proj2 (proj2 (H Hs))).
Defined.

(** ** The lobby *)

Section LobbyProps.
Import Lobby.

Lemma spliceFirst_sublist {A} (f : A -> bool) (l : list A) : sublist (spliceFirst f l) l.
Proof.
  induction l as [|a l IH]; cbn [spliceFirst]; [constructor|].
  destruct (f a); [apply sublist_cons, reflexivity|apply sublist_skip, IH].
Qed.

Lemma spliceFirst_length {A} (f : A -> bool) (l : list A) :
  length (spliceFirst f l) = (length l - if existsb f l then 1 else 0)%nat.
Proof.
  induction l as [|a l IH]; cbn [spliceFirst existsb]; [reflexivity|].
  destruct (f a); cbn [orb length]; [lia|].
  rewrite IH. destruct (existsb f l) eqn:E; [|lia].
  destruct l; [discriminate|cbn [length]; lia].
Qed.

Lemma spliceFirst_Forall {A} (P : A -> Prop) (f : A -> bool) (l : list A) :
  Forall P l -> Forall P (spliceFirst f l).
Proof.
  induction 1 as [|a l Ha Hl IH]; cbn [spliceFirst]; [constructor|].
  destruct (f a); [exact Hl|constructor; assumption].
Qed.

Lemma spliceFirst_absent {A} (f : A -> bool) (l : list A) :
  existsb f l = false -> spliceFirst f l = l.
Proof.
  induction l as [|a l IH]; cbn [spliceFirst existsb]; [reflexivity|].
  destruct (f a); cbn [orb]; [discriminate|]. intros H. rewrite IH; [reflexivity|exact H].
Qed.

Lemma omap_sublist {A B} (f : A -> option B) (l k : list A) :
  sublist l k -> sublist (omap f l) (omap f k).
Proof.
  induction 1 as [|a l k _ IH|a l k _ IH]; cbn [omap list_omap].
  - constructor.
  - destruct (f a); [apply sublist_skip, IH|exact IH].
  - destruct (f a); [apply sublist_cons, IH|exact IH].
Qed.

(** What the lobby keeps true of [playersOnline]. *)
Lemma step_lobby (l l' : Lobby) :
  step l l' ->
  NoDup (durableIds l) /\ Forall (fun p => truthyName (name p) = true) (playersOnline l) ->
  NoDup (durableIds l') /\ Forall (fun p => truthyName (name p) = true) (playersOnline l').
Proof.
  assert (Hdrop : forall sock ps,
            NoDup (omap (fun p => if truthyId (playerId p) then playerId p else None) ps) /\
            Forall (fun p => truthyName (name p) = true) ps ->
            NoDup (omap (fun p => if truthyId (playerId p) then playerId p else None)
                        (dropSocket sock ps)) /\
            Forall (fun p => truthyName (name p) = true) (dropSocket sock ps)).
  { intros sock ps [Hn Hf].
    pose proof (spliceFirst_sublist (fun p => bool_decide (socketId p = Some sock)) ps) as Hs.
    split.
    - exact (sublist_NoDup _ _ Hn (omap_sublist _ _ _ Hs)).
    - apply spliceFirst_Forall, Hf. }
  intros Hs [Hn Hf]. destruct Hs as [sock nm pid l l' H| i g l |sock gid g l l' H|sock l|l rs ks].
  - unfold on_name in H.
    destruct (truthyId pid && _) eqn:E; [discriminate|]. injection H as <-.
    unfold durableIds. cbn [playersOnline]. split.
    + rewrite omap_app. cbn [omap list_omap playerId].
      destruct (truthyId pid) eqn:Et; [|rewrite app_nil_r; exact Hn].
      cbn [andb] in E. destruct pid as [u|]; [|discriminate].
      apply NoDup_app. split; [exact Hn|]. split; [|apply NoDup_singleton].
      intros x Hx Hx'. apply list_elem_of_singleton in Hx'. subst x.
      apply list_elem_of_omap in Hx as (p & Hp & Hpid).
      destruct (truthyId (playerId p)); [|discriminate].
      apply not_true_iff_false in E. apply E, existsb_exists.
      exists p. split; [apply list_elem_of_In, Hp|apply bool_decide_eq_true_2, Hpid].
    + apply Forall_app. split; [exact Hf|]. apply Forall_singleton. cbn [name].
      destruct (truthyName nm) eqn:En; [exact En|reflexivity].
  - destruct g; split; assumption.
  - unfold on_join_game in H. destruct (List.find _ _); [|discriminate].
    destruct (negb _); [discriminate|]. injection H as <-.
    apply (Hdrop sock (playersOnline l)). split; assumption.
  - apply (Hdrop sock (playersOnline l)). split; assumption.
  - split; assumption.
Qed.

End LobbyProps.

(** X15.  In every state the lobby reaches, no two players online carry
    the same durable (non-zero) player id, and every player online has a
    non-empty display name: the one sent, or [Guest-] and the first three
    characters of the socket id. *)
Theorem X15_lobby_ids_unique (l : Lobby.Lobby) :
  Lobby.reachable l ->
  NoDup (Lobby.durableIds l) /\
  Forall (fun p => exists s, name p = Some s /\ s <> ""%string) (Lobby.playersOnline l).
Proof.
  intros Hr.
  assert (H : NoDup (Lobby.durableIds l) /\
              Forall (fun p => Lobby.truthyName (name p) = true) (Lobby.playersOnline l)).
  { induction Hr as [|l l' _ IH Hs].
    - split; [apply NoDup_nil_2|apply Forall_nil_2].
    - exact (step_lobby l l' Hs IH). }
  destruct H as [Hn Hf]. split; [exact Hn|].
  eapply Forall_impl; [exact Hf|]. intros p Hp. cbv beta in Hp.
  unfold Lobby.truthyName in Hp. destruct (name p) as [s|]; [|discriminate].
  exists s. split; [reflexivity|]. intros ->. discriminate.
Qed.

Lemma X15_witness :
  let l := Lobby.mkLobby [mkPlayer (Some 7%nat) (Some "abcdef"%string) (Some "Guest-abc"%string) None]
                         [] [] in
  Lobby.reachable l /\ NoDup (Lobby.durableIds l).
Proof.
  assert (Hr : Lobby.reachable
                 (Lobby.mkLobby [mkPlayer (Some 7%nat) (Some "abcdef"%string)
                                          (Some "Guest-abc"%string) None] [] [])).
  { apply (Lobby.reach_step (Lobby.mkLobby [] [] [])); [apply Lobby.reach_empty|].
    apply (Lobby.step_name "abcdef" None (Some 7%nat)). reflexivity. }
  split; [exact Hr|]. exact (proj1 (X15_lobby_ids_unique _ Hr)).
Defined.

Lemma spliceFirst_first {A} (f : A -> bool) (l : list A) :
  (exists before a after,
     l = before ++ a :: after /\ f a = true /\
     (forall x, x ∈ before -> f x = false) /\ spliceFirst f l = before ++ after) \/
  ((forall x, x ∈ l -> f x = false) /\ spliceFirst f l = l).
Proof.
  induction l as [|y l IH]; cbn [spliceFirst].
  - right. split; [|reflexivity]. intros x Hx. apply elem_of_nil in Hx. contradiction.
  - destruct (f y) eqn:Ey.
    + left. exists [], y, l. split; [reflexivity|]. split; [exact Ey|].
      split; [|reflexivity]. intros x Hx. apply elem_of_nil in Hx. contradiction.
    + destruct IH as [(before & a & after & -> & Ha & Hb & ->)|[Hn ->]].
      * left. exists (y :: before), a, after. split; [reflexivity|]. split; [exact Ha|].
        split; [|reflexivity].
        intros x Hx. apply elem_of_cons in Hx as [->|Hx]; [exact Ey|exact (Hb x Hx)].
      * right. split; [|reflexivity].
        intros x Hx. apply elem_of_cons in Hx as [->|Hx]; [exact Ey|exact (Hn x Hx)].
Qed.

(** X16.  Leaving the lobby removes one entry, not every entry: [join_game]
    and [disconnect] delete the first player online that bears the socket
    id and keep all others in order.  If the socket is listed, the list is
    [before ++ p :: after] with [p] bearing the socket id and nobody in
    [before] bearing it, and what remains is [before ++ after], so later
    entries of the same socket stay; if the socket is not listed the list
    is unchanged.  The list gets shorter by exactly one in the first case,
    and the room registries are not touched. *)
Theorem X16_lobby_leave_removes_one (sock : string) (l : Lobby.Lobby) :
  let ps := Lobby.playersOnline l in
  let ps' := Lobby.playersOnline (Lobby.on_disconnect sock l) in
  let listed := existsb (fun p => bool_decide (socketId p = Some sock)) ps in
  ((exists before p after,
      ps = before ++ p :: after /\ socketId p = Some sock /\
      (forall q, q ∈ before -> socketId q <> Some sock) /\
      ps' = before ++ after) \/
   ((forall q, q ∈ ps -> socketId q <> Some sock) /\ ps' = ps)) /\
  sublist ps' ps /\
  length ps' = (length ps - if listed then 1 else 0)%nat /\
  (listed = false -> ps' = ps) /\
  (forall gid g l', Lobby.on_join_game sock gid g l = inr l' ->
                    l' = Lobby.on_disconnect sock l) /\
  Lobby.pongRooms (Lobby.on_disconnect sock l) = Lobby.pongRooms l /\
  Lobby.keyClashRooms (Lobby.on_disconnect sock l) = Lobby.keyClashRooms l.
Proof.
  cbv zeta. unfold Lobby.on_disconnect, Lobby.dropSocket. cbn [Lobby.playersOnline].
  split.
  { destruct (spliceFirst_first (fun p => bool_decide (socketId p = Some sock))
                (Lobby.playersOnline l))
      as [(before & p & after & E & Hp & Hb & E')|[Hn E']].
    - left. exists before, p, after. split; [exact E|].
      split; [exact (bool_decide_eq_true_1 _ Hp)|]. split; [|exact E'].
      intros q Hq. exact (bool_decide_eq_false_1 _ (Hb q Hq)).
    - right. split; [|exact E'].
      intros q Hq. exact (bool_decide_eq_false_1 _ (Hn q Hq)). }
  split; [apply spliceFirst_sublist|]. split; [apply spliceFirst_length|].
  split; [apply spliceFirst_absent|].
  split; [|split; reflexivity].
  intros gid g l' H. unfold Lobby.on_join_game in H.
  destruct (List.find _ _); [|discriminate].
  destruct (negb _); [discriminate|]. injection H as <-. reflexivity.
Qed.

(** ** The result sink *)

(** X17.  [createGameResult] flags a seat as winner exactly if the match
    records that seat's player object as [winner]: with two different
    players at most one seat is flagged, and with [winner] still [null]
    neither is.  The scores, the winner and the duration are copied from
    the match, and the call throws exactly if the match or one of its two
    players is missing. *)
Theorem X17_result_flags (h : list Player) (i : string) (gt : Results.GameType)
    (md : Mode) (m : option Match) :
  (is_Some (Results.createGameResult h i gt md m) <->
   exists m0 a b, m = Some m0 /\ player1 m0 = Some a /\ player2 m0 = Some b /\
                  (a < length h)%nat /\ (b < length h)%nat) /\
  (forall r m0, Results.createGameResult h i gt md m = Some r -> m = Some m0 ->
     (Results.isWinner (Results.r_player1 r) = true <-> winner m0 = player1 m0) /\
     (Results.isWinner (Results.r_player2 r) = true <-> winner m0 = player2 m0) /\
     (player1 m0 <> player2 m0 ->
      Results.isWinner (Results.r_player1 r) && Results.isWinner (Results.r_player2 r)
      = false) /\
     (winner m0 = None ->
      Results.isWinner (Results.r_player1 r) = false /\
      Results.isWinner (Results.r_player2 r) = false) /\
     Results.score (Results.r_player1 r) = p1score m0 /\
     Results.score (Results.r_player2 r) = p2score m0 /\
     Results.r_winner r = winner m0 /\ Results.r_duration r = duration m0).
Proof.
  unfold Results.createGameResult. split.
  - split.
    + intros [r H]. destruct m as [m0|]; [|discriminate]. cbn [mbind option_bind] in H.
      destruct (player1 m0) as [a|] eqn:Ha; [|discriminate]. cbn [mbind option_bind] in H.
      destruct (h !! a) as [pa|] eqn:Ea; [|discriminate]. cbn [mbind option_bind] in H.
      destruct (player2 m0) as [b|] eqn:Hb; [|discriminate]. cbn [mbind option_bind] in H.
      destruct (h !! b) as [pb|] eqn:Eb; [|discriminate].
      exists m0, a, b. split; [reflexivity|]. split; [exact Ha|]. split; [exact Hb|].
      split; [exact (lookup_lt_Some _ _ _ Ea)|exact (lookup_lt_Some _ _ _ Eb)].
    + intros (m0 & a & b & -> & Ha & Hb & La & Lb).
      apply lookup_lt_is_Some in La as [pa Ea]. apply lookup_lt_is_Some in Lb as [pb Eb].
      cbn [mbind option_bind]. rewrite Ha. cbn [mbind option_bind]. rewrite Ea.
      cbn [mbind option_bind]. rewrite Hb. cbn [mbind option_bind]. rewrite Eb.
      cbn [mbind option_bind]. eexists. reflexivity.
  - intros r m0 H ->. cbn [mbind option_bind] in H.
    destruct (player1 m0) as [a|] eqn:Ha; [|discriminate]. cbn [mbind option_bind] in H.
    destruct (h !! a) as [pa|]; [|discriminate]. cbn [mbind option_bind] in H.
    destruct (player2 m0) as [b|] eqn:Hb; [|discriminate]. cbn [mbind option_bind] in H.
    destruct (h !! b) as [pb|]; [|discriminate]. cbn [mbind option_bind] in H.
    injection H as <-.
    cbn [Results.isWinner Results.r_player1 Results.r_player2 Results.score
         Results.r_winner Results.r_duration].
    rewrite !bool_decide_eq_true.
    split; [split; congruence|]. split; [split; congruence|].
    split.
    { intros Hne. apply andb_false_iff.
      destruct (bool_decide_reflect (Some a = winner m0)) as [E1|E1]; [|left; reflexivity].
      right. apply bool_decide_eq_false_2. congruence. }
    split.
    { intros ->. split; apply bool_decide_eq_false_2; discriminate. }
    repeat split.
Qed.

Lemma save_two_users (r : Results.GameResult) (db : Results.Db)
    (a b : nat) (w1 l1 w2 l2 : Z) :
  Results.e_playerId (Results.r_player1 r) = Some a ->
  Results.e_playerId (Results.r_player2 r) = Some b ->
  a <> 0%nat -> b <> 0%nat -> a <> b ->
  Results.users db !! a = Some (w1, l1) ->
  Results.users db !! b = Some (w2, l2) ->
  let db' := Results.saveGameResult r db in
  Results.games db' = Results.games db ++ [(Some a, Some b, Results.gameType r)] /\
  Results.users db' !! a
    = Some (if Results.isWinner (Results.r_player1 r) then ((w1 + 1)%Z, l1)
            else (w1, (l1 + 1)%Z)) /\
  Results.users db' !! b
    = Some (if Results.isWinner (Results.r_player2 r) then ((w2 + 1)%Z, l2)
            else (w2, (l2 + 1)%Z)) /\
  (forall u, u <> a -> u <> b -> Results.users db' !! u = Results.users db !! u).
Proof.
  intros Ha Hb Za Zb Hab Ua Ub. cbv zeta. unfold Results.saveGameResult.
  rewrite Ha, Hb.
  destruct a as [|a']; [contradiction|]. destruct b as [|b']; [contradiction|].
  cbn [Lobby.truthyId negb andb]. rewrite andb_false_r.
  unfold Results.bump. cbn [mbind option_bind Results.users Results.games].
  rewrite Ua. cbn [mbind option_bind Results.users Results.games].
  rewrite lookup_insert_ne by congruence. rewrite Ub.
  cbn [mbind option_bind Results.users Results.games].
  split; [reflexivity|]. split.
  - rewrite lookup_insert_ne by congruence. apply lookup_insert_eq.
  - split; [apply lookup_insert_eq|].
    intros u H1 H2. rewrite !lookup_insert_ne by congruence. reflexivity.
Qed.


(** X18.  [saveGameResult] for two different registered users: one [Game]
    row is added, the winner's [wins] and the other player's [losses] go up
    by one (both [losses] when no seat is flagged), and no other user row
    changes. *)
Theorem X18_save_updates_both_players (r : Results.GameResult) (db : Results.Db)
    (a b : nat) (w1 l1 w2 l2 : Z) :
  Results.e_playerId (Results.r_player1 r) = Some a ->
  Results.e_playerId (Results.r_player2 r) = Some b ->
  a <> 0%nat -> b <> 0%nat -> a <> b ->
  Results.users db !! a = Some (w1, l1) ->
  Results.users db !! b = Some (w2, l2) ->
  let db' := Results.saveGameResult r db in
  Results.games db' = Results.games db ++ [(Some a, Some b, Results.gameType r)] /\
  Results.users db' !! a
    = Some (if Results.isWinner (Results.r_player1 r) then ((w1 + 1)%Z, l1)
            else (w1, (l1 + 1)%Z)) /\
  Results.users db' !! b
    = Some (if Results.isWinner (Results.r_player2 r) then ((w2 + 1)%Z, l2)
            else (w2, (l2 + 1)%Z)) /\
  (forall u, u <> a -> u <> b -> Results.users db' !! u = Results.users db !! u).
Proof. exact (save_two_users r db a b w1 l1 w2 l2). Qed.

Lemma X18_witness :
  let r := Results.mkGameResult "k3x9" Results.gt_pong mode_remote
             (Results.mkEntry (Some "Ann"%string) (Some 1%nat) 3 true)
             (Results.mkEntry (Some "Ben"%string) (Some 2%nat) 1 false) (Some 0%nat) 57 in
  let db := Results.mkDb (<[1%nat := (4%Z, 2%Z)]> (<[2%nat := (0%Z, 0%Z)]> ∅)) [] in
  Results.users (Results.saveGameResult r db) !! 1%nat = Some (5%Z, 2%Z) /\
  Results.users (Results.saveGameResult r db) !! 2%nat = Some (0%Z, 1%Z).
Proof.
  cbv zeta.
  destruct (X18_save_updates_both_players
              (Results.mkGameResult "k3x9" Results.gt_pong mode_remote
                 (Results.mkEntry (Some "Ann"%string) (Some 1%nat) 3 true)
                 (Results.mkEntry (Some "Ben"%string) (Some 2%nat) 1 false) (Some 0%nat) 57)
              (Results.mkDb (<[1%nat := (4%Z, 2%Z)]> (<[2%nat := (0%Z, 0%Z)]> ∅)) [])
              1%nat 2%nat 4%Z 2%Z 0%Z 0%Z eq_refl eq_refl)
    as (_ & H1 & H2 & _); try lia; try (vm_compute; reflexivity).
  split; [exact H1|exact H2].
Defined.

(** X19.  What [saveGameResult] leaves undone.  A local result in which
    neither seat has a player id writes nothing.  Otherwise the [Game] row
    is written first; when seat A's id is no user's, the update throws, the
    row stays and seat B's statistics are never reached; and two guests in
    a remote game leave a row and no statistics. *)
Theorem X19_save_partial_writes (r : Results.GameResult) (db : Results.Db) :
  let id1 := Results.e_playerId (Results.r_player1 r) in
  let id2 := Results.e_playerId (Results.r_player2 r) in
  let db' := Results.saveGameResult r db in
  let row := (id1, id2, Results.gameType r) in
  (Results.r_mode r = mode_local -> Lobby.truthyId id1 = false ->
   Lobby.truthyId id2 = false -> db' = db) /\
  (Results.r_mode r = mode_remote -> Lobby.truthyId id1 = false ->
   Lobby.truthyId id2 = false ->
   db' = Results.mkDb (Results.users db) (Results.games db ++ [row])) /\
  (forall a, id1 = Some a -> a <> 0%nat -> Results.users db !! a = None ->
   db' = Results.mkDb (Results.users db) (Results.games db ++ [row])) /\
  (Results.games db' = Results.games db \/ Results.games db' = Results.games db ++ [row]) /\
  dom (Results.users db') = dom (Results.users db).
Proof.
  cbv zeta. unfold Results.saveGameResult.
  split; [intros -> -> ->; reflexivity|].
  split; [intros -> -> ->; reflexivity|].
  split.
  { intros a -> Za Ua. destruct a as [|a']; [contradiction|].
    cbn [Lobby.truthyId negb andb]. rewrite andb_false_r.
    unfold Results.bump. cbn [mbind option_bind Results.users]. rewrite Ua. reflexivity. }
  assert (Hb : forall won uid d, match Results.bump won uid d with
                                 | Some d' => Results.games d' = Results.games d /\
                                              dom (Results.users d') = dom (Results.users d)
                                 | None => True end).
  { intros won uid d. unfold Results.bump. destruct uid as [u|]; [|exact I].
    cbn [mbind option_bind]. destruct (Results.users d !! u) as [[w l]|] eqn:E; [|exact I].
    cbn [mbind option_bind Results.games Results.users]. split; [reflexivity|].
    rewrite dom_insert_L. apply elem_of_dom_2 in E.
    apply subseteq_union_1_L, singleton_subseteq_l, E. }
  destruct (_ && _); [split; [left; reflexivity|reflexivity]|].
  match goal with |- context [Results.mkDb ?u ?g] => set (d0 := Results.mkDb u g) end.
  destruct (Lobby.truthyId (Results.e_playerId (Results.r_player1 r))).
  - pose proof (Hb (Results.isWinner (Results.r_player1 r))
                   (Results.e_playerId (Results.r_player1 r)) d0) as H1.
    destruct (Results.bump _ _ d0) as [d1|]; [|split; [right; reflexivity|reflexivity]].
    destruct H1 as [G1 D1].
    destruct (Lobby.truthyId (Results.e_playerId (Results.r_player2 r))).
    + pose proof (Hb (Results.isWinner (Results.r_player2 r))
                     (Results.e_playerId (Results.r_player2 r)) d1) as H2.
      destruct (Results.bump _ _ d1) as [d2|].
      * destruct H2 as [G2 D2].
        split; [right; rewrite G2, G1; reflexivity|rewrite D2, D1; reflexivity].
      * split; [right; exact G1|exact D1].
    + split; [right; exact G1|exact D1].
  - destruct (Lobby.truthyId (Results.e_playerId (Results.r_player2 r))).
    + pose proof (Hb (Results.isWinner (Results.r_player2 r))
                     (Results.e_playerId (Results.r_player2 r)) d0) as H2.
      destruct (Results.bump _ _ d0) as [d2|]; [|split; [right; reflexivity|reflexivity]].
      destruct H2 as [G2 D2]. split; [right; exact G2|exact D2].
    + split; [right; reflexivity|reflexivity].
Qed.

(** X20.  A Paddle 1v1 match that reaches the end of the clock with the
    scores level is booked as lost by both players: [update] leaves
    [winner] as [startGame] created it ([null]), so the result flags
    neither seat, and [saveGameResult] adds one to the [losses] of each of
    two registered users and to nobody's [wins]. *)
Theorem X20_paddle_draw_counts_as_two_losses (now r1 r2 : Q) (g : Pong.PingPongGame)
    (i : nat) (m : Match) (a b : Ref) (pa pb : Player) :
  Pong.type g = type_1v1 -> Pong.status g = in_progress -> Pong.gameEndTime g <= now ->
  Pong.round g = S i -> Pong.matches g !! i = Some m -> winner m = None ->
  player1 m = Some a -> player2 m = Some b ->
  Pong.heap g !! a = Some pa -> Pong.heap g !! b = Some pb ->
  Pong.leftScore g = Pong.rightScore g ->
  exists g' r,
    Pong.update now r1 r2 g = Some g' /\ Results.pongResult g' = Some r /\
    Results.isWinner (Results.r_player1 r) = false /\
    Results.isWinner (Results.r_player2 r) = false /\
    Results.r_winner r = None /\ Results.r_duration r = 120%Z /\
    Results.score (Results.r_player1 r) = Results.score (Results.r_player2 r) /\
    (forall db ua ub w1 l1 w2 l2,
       playerId pa = Some ua -> playerId pb = Some ub ->
       ua <> 0%nat -> ub <> 0%nat -> ua <> ub ->
       Results.users db !! ua = Some (w1, l1) -> Results.users db !! ub = Some (w2, l2) ->
       Results.users (Results.saveGameResult r db) !! ua = Some (w1, (l1 + 1)%Z) /\
       Results.users (Results.saveGameResult r db) !! ub = Some (w2, (l2 + 1)%Z)).
Proof.
  intros Hty Hs Ht Hr Hm Hw Ha Hb Ea Eb Hsc.
  rewrite (paddle_update_on_time now r1 r2 g Hs Ht).
  unfold Pong.finishOnTime.
  cbn [Pong.round Pong.set_status Pong.matches Pong.leftScore Pong.rightScore Pong.type].
  rewrite Hr, Hm. cbn [mbind option_bind].
  rewrite Hsc, Z.ltb_irrefl, Hty.
  destruct (decide (type_1v1 = type_1v1)); [|contradiction].
  eexists. eexists. split; [reflexivity|].
  unfold Results.pongResult, Results.createGameResult.
  cbn [Pong.round Pong.set_status Pong.set_matches Pong.matches Pong.heap Pong.id Pong.mode].
  rewrite Hr, list_lookup_insert_eq by exact (lookup_lt_Some _ _ _ Hm).
  cbn [mbind option_bind set_result player1 player2]. rewrite Ha.
  cbn [mbind option_bind]. rewrite Ea. cbn [mbind option_bind]. rewrite Hb.
  cbn [mbind option_bind]. rewrite Eb. cbn [mbind option_bind].
  cbn [set_result winner p1score p2score duration]. rewrite Hw.
  split; [reflexivity|].
  cbn [Results.isWinner Results.r_player1 Results.r_player2 Results.r_winner
       Results.r_duration Results.score].
  split; [reflexivity|]. split; [reflexivity|]. split; [reflexivity|].
  split; [reflexivity|]. split; [reflexivity|].
  intros db ua ub w1 l1 w2 l2 Ia Ib Za Zb Hab Ua Ub.
  match goal with |- context [Results.saveGameResult ?r db] =>
    destruct (save_two_users r db ua ub w1 l1 w2 l2 Ia Ib Za Zb Hab Ua Ub)
      as (_ & H1 & H2 & _) end.
  split; [exact H1|exact H2].
Qed.

Lemma X20_witness :
  exists g' r,
    Pong.update 121000 0.7 0.75 (Pong.game Demo.started) = Some g' /\
    Results.pongResult g' = Some r /\
    Results.isWinner (Results.r_player1 r) = false /\
    Results.isWinner (Results.r_player2 r) = false.
Proof.
  destruct (X20_paddle_draw_counts_as_two_losses 121000 0.7 0.75 (Pong.game Demo.started)
              0%nat (newMatch (Some 0%nat) (Some 1%nat)) 0%nat 1%nat
              (mkPlayer None (Some "s1"%string) (Some "Alice"%string) (Some side_left))
              (mkPlayer None (Some "p2"%string) (Some "Bob"%string) (Some side_right)))
    as (g' & r & H1 & H2 & H3 & H4 & _); try reflexivity.
  - vm_compute. discriminate.
  - exists g', r. repeat split; assumption.
Defined.

(** ** Seats and the ready handshake of a remote 1v1 pong room *)

(** X21.  The [names] event of a fresh socket in a remote 1v1 pong room.
    In an empty room the newcomer is seated on the left and the room keeps
    its status.  With one player seated, a newcomer of another name gets
    the side that player does not have, whichever of the two left earlier;
    the room then holds both sides, is reset to 0 : 0 and moves to
    [starting], and no timer is started. *)
Theorem X21_remote_1v1_seats (sock : string) (pid : option nat) (names : Names)
    (e : Pong.Env) (w : Pong.World) :
  Pong.mode (Pong.game w) = mode_remote ->
  badName (n_player1 names) = false ->
  let g := Pong.game w in
  let new := length (Pong.heap g) in
  (Pong.players g = [] ->
   exists w', Pong.on_names1v1 sock pid (Some side_left) names e w
              = inr (w', Some side_left) /\
     Pong.players (Pong.game w') = [new] /\
     Pong.heap (Pong.game w')
       = Pong.heap g ++ [mkPlayer pid (Some sock) (n_player1 names) (Some side_left)] /\
     Pong.status (Pong.game w') = Pong.status g /\ Pong.timers w' = Pong.timers w) /\
  (forall r p s0, Pong.players g = [r] -> Pong.heap g !! r = Some p ->
     side p = Some s0 -> name p <> n_player1 names ->
     let s1 := match s0 with side_left => side_right | side_right => side_left end in
     exists w', Pong.on_names1v1 sock pid (Some side_left) names e w = inr (w', Some s1) /\
       Pong.players (Pong.game w') = [r; new] /\
       Pong.heap (Pong.game w')
         = Pong.heap g ++ [mkPlayer pid (Some sock) (n_player1 names) (Some s1)] /\
       Pong.findSide s0 (Pong.game w') = Some r /\
       Pong.findSide s1 (Pong.game w') = Some new /\
       Pong.status (Pong.game w') = starting /\
       Pong.leftScore (Pong.game w') = 0%Z /\ Pong.rightScore (Pong.game w') = 0%Z /\
       Pong.timers w' = Pong.timers w) /\
  (forall r p, Pong.players g = [r] -> Pong.heap g !! r = Some p ->
     name p = n_player1 names ->
     Pong.on_names1v1 sock pid (Some side_left) names e w
     = inl (NameTaken (n_player1 names))).
Proof.
  intros Hm Hbad. cbv zeta.
  assert (Hv : validatePlayerNames names (Pong.type (Pong.game w)) (Pong.mode (Pong.game w))
               = 0%nat).
  { unfold validatePlayerNames. rewrite Hbad, Hm.
    destruct (decide (mode_remote = mode_local)); [discriminate|reflexivity]. }
  split; [|split].
  - intros Hp. unfold Pong.on_names1v1. rewrite Hv, Hp.
    cbn [Nat.ltb Nat.leb length Nat.eqb andb].
    unfold Pong.setPlayer.
    cbn [Pong.mode Pong.set_players Pong.set_heap Pong.set_leftPlayer Pong.players
         Pong.heap].
    rewrite Hm. destruct (decide (mode_remote = mode_local)); [discriminate|].
    rewrite Hp. cbn [app length Nat.eqb].
    eexists. split; [reflexivity|]. repeat split.
  - intros r p s0 Hp Hr Hs Hn. cbv zeta. unfold Pong.on_names1v1. rewrite Hv, Hp.
    cbn [Nat.ltb Nat.leb length Nat.eqb andb].
    assert (Hseat : seatedAt (Pong.heap (Pong.game w)) [r] 0 (n_player1 names) = false).
    { unfold seatedAt. apply bool_decide_eq_false_2.
      cbn [lookup list_lookup mbind option_bind]. rewrite Hr. cbn [fmap option_fmap option_map].
      congruence. }
    rewrite Hseat. cbn [lookup list_lookup mbind option_bind]. rewrite Hr.
    cbn [mbind option_bind]. rewrite Hs.
    assert (Hps : (if bool_decide (Some s0 = Some side_left)
                   then Some side_right else Some side_left)
                  = Some (match s0 with side_left => side_right
                                      | side_right => side_left end))
      by (destruct s0; reflexivity).
    rewrite Hps. clear Hps.
    set (s1 := match s0 with side_left => side_right | side_right => side_left end).
    assert (Hne : s0 <> s1) by (subst s1; destruct s0; discriminate).
    assert (Hmode : forall g', Pong.mode (Pong.setPlayer (Some s1) (n_player1 names)
                                            (Some sock) pid g') = Pong.mode g')
      by (intros g'; destruct s1; reflexivity).
    rewrite Hmode, Hm. destruct (decide (mode_remote = mode_local)); [discriminate|].
    assert (Hpl : Pong.players (Pong.setPlayer (Some s1) (n_player1 names) (Some sock) pid
                                  (Pong.game w))
                  = [r; length (Pong.heap (Pong.game w))])
      by (destruct s1; cbn; rewrite Hp; reflexivity).
    assert (Hhp : Pong.heap (Pong.setPlayer (Some s1) (n_player1 names) (Some sock) pid
                               (Pong.game w))
                  = Pong.heap (Pong.game w)
                    ++ [mkPlayer pid (Some sock) (n_player1 names) (Some s1)])
      by (destruct s1; reflexivity).
    rewrite Hpl. cbn [length Nat.eqb].
    eexists. split; [reflexivity|].
    cbn [Pong.game Pong.put_game Pong.with_game Pong.timers Pong.players Pong.heap
         Pong.status Pong.leftScore Pong.rightScore
         Pong.set_status Pong.resetGame Pong.set_gameEndTime Pong.set_last
         Pong.set_rightPaddle Pong.set_leftPaddle Pong.set_ball Pong.set_hitter
         Pong.set_rightScore Pong.set_leftScore].
    rewrite Hpl, Hhp.
    assert (L1 : (Pong.heap (Pong.game w)
                  ++ [mkPlayer pid (Some sock) (n_player1 names) (Some s1)]) !! r = Some p)
      by (rewrite lookup_app_l by exact (lookup_lt_Some _ _ _ Hr); exact Hr).
    assert (L2 : (Pong.heap (Pong.game w)
                  ++ [mkPlayer pid (Some sock) (n_player1 names) (Some s1)])
                 !! length (Pong.heap (Pong.game w))
                 = Some (mkPlayer pid (Some sock) (n_player1 names) (Some s1)))
      by (rewrite lookup_app_r by lia; rewrite Nat.sub_diag; reflexivity).
    split; [reflexivity|]. split; [reflexivity|].
    unfold Pong.findSide.
    cbn [Pong.game Pong.players Pong.heap
         Pong.set_status Pong.resetGame Pong.set_gameEndTime Pong.set_last
         Pong.set_rightPaddle Pong.set_leftPaddle Pong.set_ball Pong.set_hitter
         Pong.set_rightScore Pong.set_leftScore].
    rewrite Hpl, Hhp. cbn [List.find]. rewrite L1, L2.
    cbn [fmap option_fmap option_map side]. rewrite Hs.
    rewrite (bool_decide_eq_true_2 (Some (Some s0) = Some (Some s0)) eq_refl).
    rewrite (bool_decide_eq_false_2 (Some (Some s0) = Some (Some s1))) by congruence.
    rewrite (bool_decide_eq_true_2 (Some (Some s1) = Some (Some s1)) eq_refl).
    repeat split.
  - intros r p Hp Hr Hn. unfold Pong.on_names1v1. rewrite Hv, Hp.
    cbn [Nat.ltb Nat.leb length Nat.eqb andb].
    assert (Hseat : seatedAt (Pong.heap (Pong.game w)) [r] 0 (n_player1 names) = true).
    { unfold seatedAt. apply bool_decide_eq_true_2.
      cbn [lookup list_lookup mbind option_bind]. rewrite Hr. cbn [fmap option_fmap option_map].
      congruence. }
    rewrite Hseat. reflexivity.
Qed.

Lemma X21_witness :
  exists w', Pong.on_names1v1 "s2" (Some 2%nat) (Some side_left) Demo2.ben (Demo.env 600)
               Demo2.remote1 = inr (w', Some side_right) /\
             Pong.players (Pong.game w') = [0%nat; 1%nat] /\
             Pong.findSide side_left (Pong.game w') = Some 0%nat /\
             Pong.findSide side_right (Pong.game w') = Some 1%nat.
Proof.
  destruct (X21_remote_1v1_seats "s2" (Some 2%nat) Demo2.ben (Demo.env 600) Demo2.remote1
              eq_refl eq_refl) as (_ & H & _).
  destruct (H 0%nat (mkPlayer (Some 1%nat) (Some "s1"%string) (Some "Ann"%string)
                              (Some side_left)) side_left)
    as (w' & H1 & H2 & _ & H3 & H4 & _).
  - reflexivity.
  - reflexivity.
  - reflexivity.
  - vm_compute. discriminate.
  - exists w'. split; [exact H1|]. split; [exact H2|]. split; [exact H3|exact H4].
Defined.



(** ** Sides on the shared player objects *)

Section Sides.

Lemma set_side_idem (s : option Side) (p : Player) :
  set_side s (set_side None p) = set_side s p.
Proof. reflexivity. Qed.

Lemma heap_set_side_lookup (x : Ref) (s : option Side) (h : list Player) (r : Ref)
    (p : Player) :
  h !! r = Some p ->
  heap_set_side x s h !! r = Some (if decide (r = x) then set_side s p else p).
Proof.
  intros Hr. unfold heap_set_side. destruct (decide (r = x)) as [->|Hne].
  - rewrite list_lookup_alter_eq, Hr. reflexivity.
  - rewrite list_lookup_alter_ne by congruence. exact Hr.
Qed.

Lemma resetSides_lookup (ps : list Ref) (h : list Player) (r : Ref) (p : Player) :
  h !! r = Some p ->
  resetSides ps h !! r = Some (if decide (r ∈ ps) then set_side None p else p).
Proof.
  unfold resetSides. revert h p. induction ps as [|x ps IH]; intros h p Hr.
  - cbn [foldl]. destruct (decide (r ∈ [])) as [Hin|_]; [|exact Hr].
    apply elem_of_nil in Hin. contradiction.
  - cbn [foldl]. rewrite (IH _ _ (heap_set_side_lookup x None h r p Hr)).
    f_equal. destruct (decide (r = x)) as [->|Hne].
    + destruct (decide (x ∈ x :: ps)) as [_|Hn]; [|exfalso; apply Hn; left].
      destruct (decide (x ∈ ps)); reflexivity.
    + destruct (decide (r ∈ ps)) as [Hin|Hnin].
      * destruct (decide (r ∈ x :: ps)) as [_|Hn]; [reflexivity|].
        exfalso. apply Hn. right. exact Hin.
      * destruct (decide (r ∈ x :: ps)) as [Hin'|_]; [|reflexivity].
        apply elem_of_cons in Hin' as [?|?]; contradiction.
Qed.

(** The heap after [forEach(p => p.side = null)] and the two assignments
    [player1.side = "left"; player2.side = "right"]. *)
Lemma seated_lookup (ps : list Ref) (h : list Player) (a b r : Ref) (p : Player) :
  h !! r = Some p ->
  heap_set_side b (Some side_right) (heap_set_side a (Some side_left) (resetSides ps h)) !! r
  = Some (mkPlayer (playerId p) (socketId p) (name p)
            (if decide (r = b) then Some side_right
             else if decide (r = a) then Some side_left
             else if decide (r ∈ ps) then None else side p)).
Proof.
  intros Hr.
  rewrite (heap_set_side_lookup b _ _ r _
             (heap_set_side_lookup a _ _ r _ (resetSides_lookup ps h r p Hr))).
  f_equal. destruct p as [pi so nm sd].
  destruct (decide (r = b)), (decide (r = a)), (decide (r ∈ ps)); reflexivity.
Qed.

Lemma resetSides_length (ps : list Ref) (h : list Player) :
  length (resetSides ps h) = length h.
Proof.
  unfold resetSides, heap_set_side. revert h.
  induction ps as [|x ps IH]; intros h; cbn [foldl]; [reflexivity|].
  rewrite IH. apply length_alter.
Qed.

Lemma seated_length (ps : list Ref) (h : list Player) (a b : Ref) :
  length (heap_set_side b (Some side_right)
            (heap_set_side a (Some side_left) (resetSides ps h))) = length h.
Proof. unfold heap_set_side. rewrite !length_alter. apply resetSides_length. Qed.

Lemma find_unique {A} (f : A -> bool) (l : list A) (a : A) :
  a ∈ l -> f a = true -> (forall x, x ∈ l -> f x = true -> x = a) ->
  List.find f l = Some a.
Proof.
  induction l as [|y l IH]; intros Hin Ha Hu.
  - apply elem_of_nil in Hin. contradiction.
  - cbn [List.find]. destruct (f y) eqn:Ey.
    + f_equal. apply Hu; [left|exact Ey].
    + apply IH; [|exact Ha|].
      * apply elem_of_cons in Hin as [->|Hin]; [congruence|exact Hin].
      * intros x Hx. apply Hu. right. exact Hx.
Qed.

End Sides.

(** X23.  [matchmake] seats a round on the shared player objects.  When
    the round's match is ([a], [b]), afterwards the object [b] has side
    [right], the object [a] side [left], every other player of the room
    side [null], and no object changed its name, socket id or player id;
    the two display names are those of [a] and [b].  So with two
    different players of the room, the left seat is found to be [a] and
    the right seat [b]. *)
Theorem X23_matchmake_seats_the_pair (i : nat) (g g' : Pong.PingPongGame) (m : Match)
    (a b : Ref) :
  Pong.seatMatch i g = Some g' ->
  Pong.matches g !! i = Some m -> player1 m = Some a -> player2 m = Some b ->
  length (Pong.heap g') = length (Pong.heap g) /\
  (forall r p, Pong.heap g !! r = Some p ->
     Pong.heap g' !! r
     = Some (mkPlayer (playerId p) (socketId p) (name p)
               (if decide (r = b) then Some side_right
                else if decide (r = a) then Some side_left
                else if decide (r ∈ Pong.players g) then None else side p))) /\
  Some (Pong.leftPlayer g') = nameOf (Pong.heap g) (Some a) /\
  Some (Pong.rightPlayer g') = nameOf (Pong.heap g) (Some b) /\
  (a <> b -> a ∈ Pong.players g -> b ∈ Pong.players g ->
   Pong.findSide side_left g' = Some a /\ Pong.findSide side_right g' = Some b).
Proof.
  intros H Hm Ha Hb. unfold Pong.seatMatch in H. rewrite Hm in H.
  cbn [mbind option_bind] in H. rewrite Ha, Hb in H.
  destruct (nameOf (Pong.heap g) (Some a)) as [n1|] eqn:N1; [|discriminate].
  cbn [mbind option_bind] in H.
  destruct (nameOf (Pong.heap g) (Some b)) as [n2|] eqn:N2; [|discriminate].
  cbn [mbind option_bind] in H. injection H as <-.
  unfold Pong.resetPlayerSides.
  cbn [Pong.heap Pong.players Pong.set_heap Pong.set_leftPlayer Pong.set_rightPlayer
       Pong.leftPlayer Pong.rightPlayer].
  assert (Hlook : forall r p, Pong.heap g !! r = Some p ->
            heap_set_side b (Some side_right)
              (heap_set_side a (Some side_left)
                 (resetSides (Pong.players g) (Pong.heap g))) !! r
            = Some (mkPlayer (playerId p) (socketId p) (name p)
                      (if decide (r = b) then Some side_right
                       else if decide (r = a) then Some side_left
                       else if decide (r ∈ Pong.players g) then None else side p)))
    by (intros r p; apply seated_lookup).
  split.
  { apply seated_length. }
  split; [exact Hlook|]. split; [reflexivity|]. split; [reflexivity|].
  intros Hab Pa Pb.
  unfold nameOf in N1, N2. cbn [mbind option_bind] in N1, N2.
  destruct (Pong.heap g !! a) as [pa|] eqn:Ea; [|discriminate].
  destruct (Pong.heap g !! b) as [pb|] eqn:Eb; [|discriminate].
  unfold Pong.findSide. cbn [Pong.heap Pong.players Pong.set_heap].
  split; apply find_unique; try assumption.
  - apply bool_decide_eq_true_2. rewrite (Hlook a pa Ea). cbn [fmap option_fmap option_map side].
    destruct (decide (a = b)); [contradiction|].
    destruct (decide (a = a)); [reflexivity|contradiction].
  - intros x Hx Hf. apply bool_decide_eq_true_1 in Hf.
    destruct (Pong.heap g !! x) as [px|] eqn:Ex.
    + rewrite (Hlook x px Ex) in Hf. cbn [fmap option_fmap option_map side] in Hf.
      destruct (decide (x = b)); [discriminate|].
      destruct (decide (x = a)); [assumption|].
      destruct (decide (x ∈ Pong.players g)); [discriminate|contradiction].
    + exfalso. apply lookup_ge_None in Ex.
      rewrite (proj2 (lookup_ge_None _ x)) in Hf; [discriminate|].
      rewrite seated_length. exact Ex.
  - apply bool_decide_eq_true_2. rewrite (Hlook b pb Eb). cbn [fmap option_fmap option_map side].
    destruct (decide (b = b)); [reflexivity|contradiction].
  - intros x Hx Hf. apply bool_decide_eq_true_1 in Hf.
    destruct (Pong.heap g !! x) as [px|] eqn:Ex.
    + rewrite (Hlook x px Ex) in Hf. cbn [fmap option_fmap option_map side] in Hf.
      destruct (decide (x = b)); [assumption|].
      destruct (decide (x = a)); [discriminate|].
      destruct (decide (x ∈ Pong.players g)); [discriminate|contradiction].
    + exfalso. apply lookup_ge_None in Ex.
      rewrite (proj2 (lookup_ge_None _ x)) in Hf; [discriminate|].
      rewrite seated_length. exact Ex.
Qed.

Lemma X23_witness :
  exists g', Pong.seatMatch 1 (Pong.game Demo.tourPaired) = Some g' /\
             Pong.findSide side_left g' = Some 0%nat /\
             Pong.findSide side_right g' = Some 3%nat.
Proof.
  destruct (Pong.seatMatch 1 (Pong.game Demo.tourPaired)) as [g'|] eqn:E;
    [|vm_compute in E; discriminate].
  exists g'. split; [reflexivity|].
  destruct (X23_matchmake_seats_the_pair 1 (Pong.game Demo.tourPaired) g'
              (newMatch (Some 0%nat) (Some 3%nat)) 0%nat 3%nat E)
    as (_ & _ & _ & _ & H); try reflexivity.
  apply H.
  - lia.
  - apply (bool_decide_unpack _). vm_compute. exact I.
  - apply (bool_decide_unpack _). vm_compute. exact I.
Defined.

(** ** The end of a pong tournament *)

Lemma update_round (now r1 r2 : Q) (g g' : Pong.PingPongGame) :
  Pong.update now r1 r2 g = Some g' -> Pong.round g' = Pong.round g.
Proof.
  unfold Pong.update.
  destruct (negb _); [intros [= <-]; reflexivity|].
  destruct (Qleb _ _).
  - unfold Pong.finishOnTime. cbn [Pong.round Pong.set_status].
    destruct (Pong.round g) as [|i] eqn:Er; [discriminate|].
    destruct (_ !! _); cbn [mbind option_bind]; [|discriminate].
    intros [= <-]. exact Er.
  - destruct (_ || _).
    + unfold Pong.finishOnScore. cbn [Pong.round Pong.set_last].
      destruct (Pong.round g) as [|i] eqn:Er; [discriminate|].
      destruct (_ !! _); cbn [mbind option_bind]; [|discriminate].
      match goal with |- context [mbind _ ?o] => destruct o end;
        cbn [mbind option_bind]; [|discriminate].
      intros [= <-]. exact Er.
    + intros [= <-]. unfold Pong.play, Pong.scoreAndReset, Pong.strike, Pong.hitRight,
        Pong.hitLeft. repeat case_match; reflexivity.
Qed.

(** X24.  The tick that ends round 3 of a pong tournament ends the
    tournament: the callback cancels the room's timer, counts the round to
    4, and [matchmake] finds nothing to pair, so the room stays [finished]
    with the matches [update] left.  From then on [setReady] and [pause]
    change nothing, and the cancelled timer does not fire. *)
Theorem X24_tournament_ends_after_round_3 (e : Pong.Env) (w : Pong.World) (h : Timer)
    (g1 : Pong.PingPongGame) :
  Pong.timers w !! h = Some Pong.cb_startTournament ->
  Pong.loop (Pong.game w) = Some h ->
  Pong.round (Pong.game w) = 3%nat ->
  Pong.update (Pong.now e) (Pong.rnd1 e) (Pong.rnd2 e) (Pong.game w) = Some g1 ->
  Pong.status g1 = finished ->
  Pong.createGameResult_reads (Pong.heap g1) (Pong.matches g1) (Pong.round g1) = Some tt ->
  exists w', Pong.fire h e w = Some w' /\
    Pong.round (Pong.game w') = 4%nat /\ Pong.status (Pong.game w') = finished /\
    Pong.matches (Pong.game w') = Pong.matches g1 /\
    Pong.loop (Pong.game w') = None /\ Pong.timers w' = delete h (Pong.timers w) /\
    (forall pl e', Pong.on_setReadyTournament pl e' w' = w') /\
    (forall e', Pong.on_pause e' w' = w') /\
    (forall e', Pong.fire h e' w' = Some w').
Proof.
  intros Ht Hl Hr Hu Hs Hc.
  assert (Hl1 : Pong.loop g1 = Some h) by (rewrite (update_loop _ _ _ _ _ Hu); exact Hl).
  assert (Hr1 : Pong.round g1 = 3%nat) by (rewrite (update_round _ _ _ _ _ Hu); exact Hr).
  unfold Pong.fire. rewrite Ht. cbn [Pong.runCallback]. unfold Pong.tickTournament.
  rewrite Hu. cbn [mbind option_bind].
  destruct (decide (Pong.status g1 = finished)); [|contradiction].
  rewrite Hc. cbn [mbind option_bind].
  unfold Pong.stopLoop, Pong.clearInterval.
  cbn [Pong.put_game Pong.with_game Pong.game Pong.loop]. rewrite Hl1.
  cbn [Pong.game Pong.with_game Pong.timers Pong.nextTimer Pong.pongRooms
       Pong.pongTournaments].
  unfold Pong.nextRound. cbn [Pong.round Pong.set_loop]. rewrite Hr1.
  rewrite pong_after_final by (cbn [Pong.round Pong.set_round]; lia).
  cbn [mbind option_bind Pong.round Pong.set_round].
  destruct (decide (4 <= 3)%nat); [lia|].
  eexists. split; [reflexivity|].
  cbn [Pong.game Pong.put_game Pong.with_game Pong.timers Pong.round Pong.status
       Pong.matches Pong.loop Pong.set_round Pong.set_loop].
  split; [reflexivity|]. split; [exact Hs|]. split; [reflexivity|].
  split; [reflexivity|]. split; [reflexivity|].
  split; [|split].
  - intros pl e'. unfold Pong.on_setReadyTournament.
    cbn [Pong.game Pong.put_game Pong.with_game Pong.status Pong.set_round Pong.set_loop].
    rewrite Hs.
    rewrite (bool_decide_eq_false_2 (finished = starting)) by discriminate. reflexivity.
  - intros e'. unfold Pong.on_pause, Pong.togglePause.
    cbn [Pong.game Pong.put_game Pong.with_game Pong.status Pong.mode Pong.loop
         Pong.set_round Pong.set_loop].
    rewrite ?Hs. destruct (decide (Pong.mode g1 = mode_local)); [|reflexivity].
    destruct (decide (finished = paused)); [discriminate|reflexivity].
  - intros e'. unfold Pong.fire. cbn [Pong.timers Pong.put_game Pong.with_game].
    rewrite lookup_delete_eq. reflexivity.
Qed.

Lemma X24_witness :
  exists w', Pong.fire 5 (Demo.tourEnv 121000) Demo2.tourFinal = Some w' /\
    Pong.round (Pong.game w') = 4%nat /\ Pong.status (Pong.game w') = finished /\
    Pong.timers w' = delete 5%nat (Pong.timers Demo2.tourFinal).
Proof.
  pose (g1 := default (Pong.game Demo2.tourFinal)
                (Pong.update 121000 0.7 0.75 (Pong.game Demo2.tourFinal))).
  destruct (X24_tournament_ends_after_round_3 (Demo.tourEnv 121000) Demo2.tourFinal
              5%nat g1) as (w' & H1 & H2 & H3 & _ & _ & H4 & _).
  - reflexivity.
  - reflexivity.
  - reflexivity.
  - vm_compute. reflexivity.
  - vm_compute. reflexivity.
  - vm_compute. reflexivity.
  - exists w'. split; [exact H1|]. split; [exact H2|]. split; [exact H3|exact H4].
Defined.

(** ** A player leaves a key-clash 1v1 room *)

(** X25.  The [disconnect] of a seated socket in a registered key-clash
    1v1 room of at most two players: the socket's player leaves the list
    and its seat's display name is cleared, the countdown timer is
    cancelled, both ready flags are lowered and the room goes back to
    [waiting] with the scores as they stood.  The room leaves the
    registry only if it is local or now empty. *)
Theorem X25_reaction_1v1_dropout (sock rid : string) (w : KeyClash.World) (r : Ref)
    (p : Player) :
  let s := KeyClash.room w in
  let isSock := fun r => bool_decide (socketId <$> KeyClash.heap s !! r = Some (Some sock)) in
  rid = KeyClash.id s -> rid ∈ KeyClash.keyClashRooms w ->
  KeyClash.type s = type_1v1 -> (length (KeyClash.players s) <= 2)%nat ->
  List.find isSock (KeyClash.players s) = Some r -> KeyClash.heap s !! r = Some p ->
  let w' := KeyClash.on_disconnect sock (Some rid) w in
  let s' := KeyClash.room w' in
  KeyClash.players s' = spliceFirst isSock (KeyClash.players s) /\
  S (length (KeyClash.players s')) = length (KeyClash.players s) /\
  KeyClash.p1 s' = (if decide (side p = Some side_left) then None else KeyClash.p1 s) /\
  KeyClash.p2 s' = (if decide (side p = Some side_right) then None else KeyClash.p2 s) /\
  KeyClash.status s' = waiting /\
  KeyClash.player1ready s' = false /\ KeyClash.player2ready s' = false /\
  KeyClash.interval s' = None /\
  KeyClash.timers w' = match KeyClash.interval s with
                       | Some h => KeyClash.timers w ∖ {[ h ]}
                       | None => KeyClash.timers w
                       end /\
  KeyClash.score1 s' = KeyClash.score1 s /\ KeyClash.score2 s' = KeyClash.score2 s /\
  KeyClash.keyClashRooms w'
  = (if (length (KeyClash.players s') =? 0)%nat || bool_decide (KeyClash.mode s = mode_local)
     then spliceFirst (String.eqb rid) (KeyClash.keyClashRooms w)
     else KeyClash.keyClashRooms w) /\
  KeyClash.keyClashTournaments w' = KeyClash.keyClashTournaments w.
Proof.
  cbv zeta. intros Hid Hin Hty Hlen Hf Hr.
  assert (Hex : existsb (fun r => bool_decide (socketId <$> KeyClash.heap (KeyClash.room w) !! r
                                               = Some (Some sock)))
                        (KeyClash.players (KeyClash.room w)) = true).
  { apply existsb_exists. apply find_some in Hf as [Hf1 Hf2]. exists r. split; assumption. }
  pose proof (spliceFirst_length
                (fun r => bool_decide (socketId <$> KeyClash.heap (KeyClash.room w) !! r
                                       = Some (Some sock)))
                (KeyClash.players (KeyClash.room w))) as Hsl.
  rewrite Hex in Hsl.
  assert (Hpos : (0 < length (KeyClash.players (KeyClash.room w)))%nat).
  { destruct (KeyClash.players (KeyClash.room w)); [discriminate|cbn [length]; lia]. }
  unfold KeyClash.on_disconnect.
  rewrite (bool_decide_eq_true_2 _ Hid), (bool_decide_eq_true_2 _ Hin).
  cbn [negb orb]. cbv zeta. rewrite Hf, Hr. cbn [mbind option_bind].
  set (s1 := match side p with
             | Some side_left => KeyClash.set_p1 None (KeyClash.room w)
             | Some side_right => KeyClash.set_p2 None (KeyClash.room w)
             | None => KeyClash.room w
             end).
  assert (F : KeyClash.players s1 = KeyClash.players (KeyClash.room w) /\
              KeyClash.type s1 = KeyClash.type (KeyClash.room w) /\
              KeyClash.mode s1 = KeyClash.mode (KeyClash.room w) /\
              KeyClash.interval s1 = KeyClash.interval (KeyClash.room w) /\
              KeyClash.score1 s1 = KeyClash.score1 (KeyClash.room w) /\
              KeyClash.score2 s1 = KeyClash.score2 (KeyClash.room w) /\
              KeyClash.p1 s1 = (if decide (side p = Some side_left) then None
                                else KeyClash.p1 (KeyClash.room w)) /\
              KeyClash.p2 s1 = (if decide (side p = Some side_right) then None
                                else KeyClash.p2 (KeyClash.room w))).
  { subst s1. destruct (side p) as [[|]|]; repeat split;
      repeat case_decide; try congruence; reflexivity. }
  destruct F as (Fp & Ft & Fm & Fi & F1 & F2 & Fp1 & Fp2).
  clearbody s1.
  cbn [KeyClash.type KeyClash.set_players KeyClash.players KeyClash.mode KeyClash.status].
  rewrite Ft, Hty. destruct (decide (type_1v1 = type_tournament)); [discriminate|].
  rewrite Fp.
  assert (Hlt : (length (spliceFirst
                   (fun r => bool_decide (socketId <$> KeyClash.heap (KeyClash.room w) !! r
                                          = Some (Some sock)))
                   (KeyClash.players (KeyClash.room w))) <? 2)%nat = true)
    by (apply Nat.ltb_lt; lia).
  rewrite Hlt.
  unfold KeyClash.stopInterval.
  cbn [KeyClash.room KeyClash.put_room KeyClash.with_room KeyClash.interval
       KeyClash.set_players].
  rewrite Fi.
  destruct (KeyClash.interval (KeyClash.room w)) as [h|];
    cbn [KeyClash.room KeyClash.put_room KeyClash.with_room KeyClash.timers
         KeyClash.nextTimer KeyClash.keyClashRooms KeyClash.keyClashTournaments
         KeyClash.players KeyClash.mode KeyClash.set_players KeyClash.set_interval
         KeyClash.set_status KeyClash.set_player1ready KeyClash.set_player2ready];
    rewrite Fm;
    (destruct ((length _ =? 0)%nat || bool_decide (KeyClash.mode (KeyClash.room w) = mode_local))
       eqn:Ec;
     cbn [KeyClash.room KeyClash.timers KeyClash.keyClashRooms KeyClash.keyClashTournaments
          KeyClash.with_room KeyClash.put_room
          KeyClash.players KeyClash.p1 KeyClash.p2 KeyClash.status KeyClash.player1ready
          KeyClash.player2ready KeyClash.interval KeyClash.score1 KeyClash.score2
          KeyClash.set_players KeyClash.set_interval KeyClash.set_status
          KeyClash.set_player1ready KeyClash.set_player2ready];
     rewrite ?Fm, ?Ec, ?Fp1, ?Fp2, ?F1, ?F2; repeat split; first [exact Fi | lia]).
Qed.

Lemma X25_witness :
  let w' := KeyClash.on_disconnect "s1" (Some "q7w1"%string) Demo.kcStarted in
  KeyClash.status (KeyClash.room w') = waiting /\
  KeyClash.interval (KeyClash.room w') = None /\
  KeyClash.p1 (KeyClash.room w') = None /\
  KeyClash.keyClashRooms w' = [].
Proof.
  cbv zeta.
  destruct (X25_reaction_1v1_dropout "s1" "q7w1" Demo.kcStarted 0%nat
              (mkPlayer None (Some "s1"%string) (Some "Alice"%string) (Some side_left)))
    as (_ & _ & H1 & _ & H2 & _ & _ & H3 & _ & _ & _ & H4 & _).
  - reflexivity.
  - apply (bool_decide_unpack _). vm_compute. exact I.
  - reflexivity.
  - vm_compute. lia.
  - reflexivity.
  - reflexivity.
  - split; [exact H2|]. split; [exact H3|]. split; [exact H1|]. exact H4.
Defined.

(** ** A local tournament is seated and paired by one [names] event *)

Lemma setPlayer_facts (sd : option Side) (nm sk : option string) (pid : option nat)
    (g : Pong.PingPongGame) :
  let g' := Pong.setPlayer sd nm sk pid g in
  Pong.players g' = Pong.players g ++ [length (Pong.heap g)] /\
  Pong.heap g' = Pong.heap g ++ [mkPlayer pid sk nm sd] /\
  Pong.mode g' = Pong.mode g /\ Pong.round g' = Pong.round g /\
  Pong.matches g' = Pong.matches g /\ Pong.loop g' = Pong.loop g.
Proof. destruct sd as [[|]|]; repeat split. Qed.

Lemma pong_seatMatch_heap_length (i : nat) (g g' : Pong.PingPongGame) :
  Pong.seatMatch i g = Some g' -> length (Pong.heap g') = length (Pong.heap g).
Proof.
  unfold Pong.seatMatch. intros H.
  destruct (Pong.matches g !! i) as [m|]; [|discriminate]. cbn [mbind option_bind] in H.
  destruct (nameOf _ (player1 m)); [|discriminate]. cbn [mbind option_bind] in H.
  destruct (nameOf _ (player2 m)); [|discriminate]. cbn [mbind option_bind] in H.
  destruct (player1 m) as [a|]; [|discriminate]. cbn [mbind option_bind] in H.
  destruct (player2 m) as [b|]; [|discriminate]. cbn [mbind option_bind] in H.
  injection H as <-. unfold Pong.resetPlayerSides.
  cbn [Pong.heap Pong.players Pong.set_heap Pong.set_leftPlayer Pong.set_rightPlayer].
  apply seated_length.
Qed.

Lemma pong_matchmake_heap_length (rand : nat -> Q) (g g' : Pong.PingPongGame) :
  Pong.matchmake rand g = Some g' -> length (Pong.heap g') = length (Pong.heap g).
Proof.
  unfold Pong.matchmake. intros H.
  repeat case_decide; simplify_option_eq; repeat case_match; simplify_eq;
    try (apply pong_seatMatch_heap_length in H; exact H); reflexivity.
Qed.

(** X26.  The [names] event of a local pong tournament on a room just
    created, with four accepted names: the four players are created in one
    step (the socket's own, then [p2], [p3], [p4]), the round counter goes
    to 1, [matchmake] shuffles the four and pairs the first two and the
    last two of the shuffled list, and the room is [starting]; the closure
    variable [player] is the socket's own player object and no timer is
    started. *)
Theorem X26_local_tournament_is_paired_at_once (sock : string) (pid : option nat)
    (names : Names) (e : Pong.Env) (w : Pong.World) :
  let g := Pong.game w in
  let n := length (Pong.heap g) in
  Pong.mode g = mode_local -> Pong.type g = type_tournament ->
  Pong.players g = [] -> Pong.matches g = [] -> Pong.round g = 0%nat ->
  validatePlayerNames names type_tournament mode_local = 0%nat ->
  exists w' a b c d,
    Pong.on_namesTournament sock pid names e w = Some (inr (w', Some n)) /\
    Pong.players (Pong.game w') = [a; b; c; d] /\
    [a; b; c; d] ≡ₚ [n; S n; S (S n); S (S (S n))] /\
    Pong.matches (Pong.game w') = [newMatch (Some a) (Some b); newMatch (Some c) (Some d)] /\
    Pong.round (Pong.game w') = 1%nat /\ Pong.status (Pong.game w') = starting /\
    length (Pong.heap (Pong.game w')) = (n + 4)%nat /\
    Pong.timers w' = Pong.timers w /\ Pong.loop (Pong.game w') = Pong.loop g.
Proof.
  cbv zeta. intros Hm Hty Hp Hma Hr Hv.
  unfold Pong.on_namesTournament. rewrite Hm, Hty, Hv, Hp.
  cbn [Nat.ltb Nat.leb length Nat.eqb andb].
  assert (Hs : forall i x, seatedAt (Pong.heap (Pong.game w)) [] i x = false).
  { intros i x. unfold seatedAt. apply bool_decide_eq_false_2.
    rewrite lookup_nil. discriminate. }
  rewrite !Hs. cbn [orb].
  pose proof (setPlayer_facts None (n_player1 names) (Some sock) pid (Pong.game w))
    as (P1 & H1 & F1).
  set (g1 := Pong.setPlayer None (n_player1 names) (Some sock) pid (Pong.game w)) in *.
  clearbody g1. destruct F1 as (Fm1 & Fr1 & Fma1 & Fl1).
  rewrite Fm1, Hm. destruct (decide (mode_local = mode_local)); [|contradiction].
  pose proof (setPlayer_facts None (n_player2 names) (Some "p2"%string) None g1)
    as (P2 & H2 & F2).
  set (g2 := Pong.setPlayer None (n_player2 names) (Some "p2"%string) None g1) in *.
  clearbody g2. destruct F2 as (Fm2 & Fr2 & Fma2 & Fl2).
  pose proof (setPlayer_facts None (n_player3 names) (Some "p3"%string) None g2)
    as (P3 & H3 & F3).
  set (g3 := Pong.setPlayer None (n_player3 names) (Some "p3"%string) None g2) in *.
  clearbody g3. destruct F3 as (Fm3 & Fr3 & Fma3 & Fl3).
  pose proof (setPlayer_facts None (n_player4 names) (Some "p4"%string) None g3)
    as (P4 & H4 & F4).
  set (g4 := Pong.setPlayer None (n_player4 names) (Some "p4"%string) None g3) in *.
  clearbody g4. destruct F4 as (Fm4 & Fr4 & Fma4 & Fl4).
  set (n := length (Pong.heap (Pong.game w))) in *.
  assert (Hh4 : Pong.heap g4
                = Pong.heap (Pong.game w)
                    ++ [mkPlayer pid (Some sock) (n_player1 names) None;
                        mkPlayer None (Some "p2"%string) (n_player2 names) None;
                        mkPlayer None (Some "p3"%string) (n_player3 names) None;
                        mkPlayer None (Some "p4"%string) (n_player4 names) None]).
  { rewrite H4, H3, H2, H1, <- !app_assoc. reflexivity. }
  assert (Hp4 : Pong.players g4 = [n; S n; S (S n); S (S (S n))]).
  { rewrite P4, P3, P2, P1, Hp, H3, H2, H1, !length_app. cbn [length app]. fold n.
    repeat f_equal; lia. }
  assert (Hfind : List.find (fun r => bool_decide (socketId <$> Pong.heap g4 !! r
                                                   = Some (Some sock)))
                            (Pong.players g4) = Some n).
  { rewrite Hp4, Hh4. cbn [List.find].
    rewrite lookup_app_r by (subst n; lia). subst n. rewrite Nat.sub_diag.
    cbn [lookup list_lookup fmap option_fmap option_map socketId].
    rewrite bool_decide_eq_true_2 by reflexivity. reflexivity. }
  rewrite Hfind, Hp4. cbn [length Nat.eqb].
  set (g5 := Pong.set_round (S (Pong.round g4)) (Pong.set_status starting g4)).
  assert (R5 : Pong.round g5 = 1%nat).
  { subst g5. cbn [Pong.round Pong.set_round]. rewrite Fr4, Fr3, Fr2, Fr1, Hr. reflexivity. }
  assert (M5 : Pong.matches g5 = []).
  { subst g5. cbn [Pong.matches Pong.set_round Pong.set_status].
    rewrite Fma4, Fma3, Fma2, Fma1. exact Hma. }
  assert (P5 : Pong.players g5 = [n; S n; S (S n); S (S (S n))]) by exact Hp4.
  assert (H5 : Pong.heap g5 = Pong.heap g4) by reflexivity.
  assert (S5 : Pong.status g5 = starting) by reflexivity.
  assert (L5 : Pong.loop g5 = Pong.loop (Pong.game w)).
  { subst g5. cbn [Pong.loop Pong.set_round Pong.set_status].
    rewrite Fl4, Fl3, Fl2, Fl1. reflexivity. }
  assert (V5 : refsValid (Pong.heap g5) (Pong.players g5) = true).
  { rewrite P5, H5, Hh4. unfold refsValid. rewrite length_app. cbn [length forallb].
    fold n. rewrite !andb_true_iff. repeat split; try apply Nat.ltb_lt; lia. }
  clearbody g5.
  destruct (pong_round1_total (Pong.shuffle e) g5 R5 M5) as [g6 E6];
    [rewrite P5; reflexivity|exact V5|].
  rewrite E6. cbn [mbind option_bind].
  destruct (pong_round1 _ _ _ R5 E6) as [Pl Ma].
  pose proof (shufflePlayers_Permutation (Pong.shuffle e) (Pong.players g5)) as Hperm.
  rewrite <- Pl, P5 in Hperm.
  destruct (four_elements (Pong.players g6)) as (a & b & c & d & E).
  { rewrite Hperm. reflexivity. }
  exists (Pong.put_game g6 w), a, b, c, d.
  split; [reflexivity|].
  cbn [Pong.game Pong.put_game Pong.with_game Pong.timers].
  split; [exact E|]. split; [rewrite <- E; exact Hperm|].
  split; [rewrite Ma, M5, E; reflexivity|].
  pose proof (matchmake_sameCore _ _ _ E6) as (_ & _ & _ & _ & _ & _ & L6).
  pose proof (pong_matchmake_heap_length _ _ _ E6) as Hlen.
  unfold Pong.matchmake in E6. rewrite R5 in E6.
  destruct (decide (1%nat = 1%nat)); [|contradiction].
  apply pong_seatMatch_frame in E6 as (_ & _ & R6 & S6).
  cbn [Pong.round Pong.status Pong.set_matches Pong.set_players] in R6, S6.
  split; [rewrite R6; exact R5|]. split; [rewrite S6; exact S5|].
  split; [|split; [reflexivity|rewrite L6; exact L5]].
  rewrite Hlen, H5, Hh4, length_app. reflexivity.
Qed.

Lemma X26_witness :
  exists w' a b c d,
    Pong.on_namesTournament "s1" None Demo.fourNames (Demo.tourEnv 500) Demo.tour0
    = Some (inr (w', Some 0%nat)) /\
    Pong.players (Pong.game w') = [a; b; c; d] /\
    Pong.matches (Pong.game w') = [newMatch (Some a) (Some b); newMatch (Some c) (Some d)] /\
    Pong.round (Pong.game w') = 1%nat /\ Pong.status (Pong.game w') = starting.
Proof.
  destruct (X26_local_tournament_is_paired_at_once "s1" None Demo.fourNames
              (Demo.tourEnv 500) Demo.tour0)
    as (w' & a & b & c & d & H1 & H2 & _ & H3 & H4 & H5 & _); try reflexivity.
  exists w', a, b, c, d. repeat split; assumption.
Defined.

